(* ===== verification/_CoqProject ===== *)
-Q . S2P
Prelude.v
RingBuffer.v
Consumer.v
Broadcast.v
Dispatcher.v
PyFormat.v
Json.v
Benchmark.v
MyConsumer.v
DispatcherFacts.v
BatchJson.v
FaultTolerant.v
Drivers.v
BatchMain.v
FTMain.v
