(* ===== verification/Prelude.v ===== *)
(** * A verification development for python-disruptor-example

    ** The program

    The repository holds three programs and a decorator under src/:
    - src/main.py: [main()] registers two [MyConsumer]s with a
      [Disruptor(name='Example', size=1024*8)], publishes [[i]] for each
      [i] of [range(10_000)], and calls [disruptor.close()] in a
      [finally] block; each consumer prints one line per batch.
    - src/batch_json_example.py: [BatchJsonConsumer] re-batches what it
      is handed into batches of [batch_size] rows, each written as
      [batch_NNNN.parquet] in its own directory; [main()] runs two of them
      (batch size 100) over 10000 generated JSON objects.
    - src/fault_tolerant_example.py: [FaultTolerantBatchConsumer] adds
      retries, a dead-letter queue and a checkpoint file to the same
      re-batching; [main()] runs two of them over 1000 objects with a
      [consumer_error_handler] installed.
    - src/benchmark.py: [measure_performance], a timing decorator.
    All three programs drive the [Disruptor] and [Consumer] classes of the
    [disruptor] package, which the repository imports but does not
    contain: it is modelled from the specification (spec.md).  A program
    has a main thread (registration, [produce], [close]) and one worker
    thread per consumer that hands the consumer every newly published item
    as one batch.

    ** Files, modules and what they model

    - [Prelude.v] (this file): Python values and effects.  [PyM St A] is a
      state-and-exception monad ([St -> St * result A]) with [let*] and
      [try*] in [py_scope]; [result] has a third outcome [NoFuel] for a
      [while] loop ([py_while]) that ran out of fuel; list slicing with
      Python's negative and out-of-range indices ([py_take], [py_drop]);
      [chunks n l], the reference cut of a list into batches of [n], with
      its specification ([chunks_spec]), uniqueness and composition;
      [returns m P], the total-correctness triple of the monad (from every
      state [m] returns a value satisfying [P]) with its bind rule.
    - [RingBuffer.v] ([Module RingBuffer], [Module Barrier]): the
      preallocated ring, indexed by [sequence mod size], and the gating
      barrier that refuses a claim running more than [size] past the
      slowest consumer.
    - [Consumer.v]: the [Consumer] class as a type class ([consume],
      [close] in [PyM]), one worker delivery ([deliver]) with the error
      handler protocol, the [close()] of every consumer ([close_all]), and
      the observable trace (publications, deliveries, closes).
    - [Broadcast.v] ([Module Broadcast]): the contract of the bus as an
      abstract broadcast queue over the whole publication history; its
      invariants.
    - [Dispatcher.v] ([Module Dispatcher]): the ring-buffer [Disruptor]
      (register, produce, worker iteration, close in two halves) as a
      step relation, and the refinement theorem: every reachable state
      refines a reachable state of the broadcast queue.
    - [DispatcherFacts.v]: properties P1 to P6 of the specification, the
      lifecycle state machine, misuse errors, what each consumer has
      become ([replay_inv]: its state is [consume] applied to each batch
      it was handed, then [close()] once closed) and liveness of
      [produce] and [close] under a fair schedule.
    - [PyFormat.v]: [f"{n:04d}"], [str(n)], the repr of a list of ints,
      and [name.replace(" ", "_").lower()], with a parser that reads the
      numbers back; [round] to even and the [.2f]/[.1f] presentation of a
      float ([round_half_even], [format_fixed]).
    - [Json.v]: [generate_complex_json()] of both example files, its
      values ([json]) and their shapes ([jty], [typed]), over a generator
      state [gen_state]; the methods of [random] it calls ([randint],
      [choice], [uniform], [sample]) as CPython's Lib/random.py writes
      them, on top of one draw per [_randbelow] or [random()] call.
    - [Benchmark.v]: [measure_performance] of src/benchmark.py, generic
      in the state of the function it wraps (two clocks, the resident
      memory and standard output as functions and updates of that state).
    - [MyConsumer.v]: [MyConsumer] of src/main.py.
    - [BatchJson.v] ([Module BatchJson]): [BatchJsonConsumer.__init__],
      [consume], [_process_batch], [close] over a state that holds the
      consumer's files; the Polars calls are section variables.
    - [FaultTolerant.v] ([Module FaultTolerant]):
      [FaultTolerantBatchConsumer] ([_load_checkpoint], [_save_checkpoint],
      [consume], [_process_batch_with_retry], [_process_batch],
      [_send_to_dlq], [close] with its DLQ report) and
      [custom_error_handler], with the files, the log, and the draws of
      [random] in the state; [time.sleep] of the retry is modelled by its
      errors (a negative or too large delay raises), and Python's
      recursion limit by a section variable [max_depth].
    - [Drivers.v] ([Module Driver]): a [main] as a program, [try] block
      then [finally] block, whose main thread steps interleave with worker
      iterations ([pstep]); straight-line mains (register, produce one item
      at a time, close) and their invariant [straight_at]; [main()] of
      src/main.py ([main_py]).
    - [BatchMain.v]: [main()] of src/batch_json_example.py.
    - [FTMain.v]: [main()] of src/fault_tolerant_example.py.

    ** The theorems

    - C1 to C12 ([Drivers.v]): in every state of main.py's run, under any
      interleaving, the dispatcher refines the broadcast queue, every
      consumer has been handed exactly the first items in order, no
      overwritten slot is read, cursors stay within the capacity and never
      go back, close is graceful and comes after the last consume, a
      failing consumer is isolated, the phase follows the lifecycle, the
      main thread is never refused, the run can always complete, and each
      consumer prints one line per batch covering [range(10_000)].
    - C13 to C15 ([BatchMain.v]): batch_json_example.py's main never
      misuses the dispatcher; each consumer has written the full batches
      of what it received, in order; once closed, files 1 to 100 hold
      objects [100 (k-1)] to [100 k - 1].
    - C16, C17 ([PyFormat.v]): the round trip of [f"{n:04d}"]; exactly
      which pairs of consumer names share a directory.
    - C18 to C23 ([BatchJson.v]): [consume] is the reference [chunks]
      (an equivalence), terminates with a positive batch size, and with
      [batch_size <= 0] never returns normally (it loops or raises);
      it loses a batch when a write fails, [close] flushes, and files are
      never overwritten.
    - C24 to C32 ([FaultTolerant.v]): when the retry delays are valid
      sleep lengths and the retries fit under the recursion limit
      ([retry_safe]), every batch is written or counted as an error and
      sent to the DLQ, the loop accounts for every batch and hangs with
      [batch_size <= 0], and the log numbers the attempts; the checkpoint
      round trip; DLQ name collisions; the error handler is unreachable;
      a restart after a failed checkpoint save overwrites a written file;
      a negative [retry_delay] makes the retry's [time.sleep] raise, so
      the batch is dropped without reaching the DLQ.
    - C33 to C35 ([FTMain.v]): fault_tolerant_example.py's main never
      misuses the dispatcher, its error handler never runs, and, with room
      for three retries under the recursion limit, every batch of 100 is
      accounted for, ten per consumer once closed.
    - C36, C37 ([Json.v]): every generated object has the schema that
      [_process_batch]'s [unnest] expects (the only theorem of kind
      "type"), and its fields lie within the ranges of their draws, for
      every stream of draws: [generate_complex_json] always returns.
    - [Benchmark.v] states what the decorated function returns and
      prints; its witness prints a negative elapsed time, [timer()] after
      minus [time()] before (two clocks with different origins).
    Theorems with hypotheses have witnesses, evaluated by [vm_compute] on
    concrete runs ([main_demo], [main_closed], [batch_demo],
    [batch_closed], [ft_demo], [ft_closed]) or consumer states;
    [generate_complex_json_run] evaluates one generated object.

    ** Fuel, bounds and integers

    Python ints are unbounded and are [Z] here; the 64-bit sequences of
    the specification "never wrap in practice", so they are [Z] too.  A
    [while] loop is [py_while] with fuel: [consume] gives its loop one unit
    more than the rows of the buffer, enough since each iteration removes
    [batch_size >= 1] rows (C19), and no fuel is enough when
    [batch_size <= 0] (C20, C26); [_process_batch_with_retry] gets
    [max_retries + 1] attempts, its recursion depth, which must stay
    below [max_depth] (CPython's default limit is 1000; the witnesses take
    990 for the frames the caller already holds).  [chunks] is
    structural in its fuel, the length of the list.  The mains are proved
    for any number of objects ([main_program n]) and stated at the
    source's 10000 and 1000.  [generate_complex_json] has no loop but its
    list comprehension, structural in the drawn [n_items]; its theorems
    are total ([returns]), not conditional on termination.  Floats of the
    generator and of [benchmark.py] are exact rationals: [random()] is
    CPython's 53-bit integer over [2^53]; the rounding error of float
    arithmetic in [uniform] and in the clock difference is not modelled.

    ** What is not modelled

    The [disruptor] package is modelled from the specification, not from
    code (it is not in the repository); its operations are atomic steps,
    as its locks and publication order make them.  In the mains,
    [generate_complex_json] is a parameter (the object of its [k]-th
    call), because its draws interleave with the consumers' draws of the
    same generator; [Json.v] models the function itself.  The Polars and
    PyArrow calls, the clocks, the memory reading and [random]'s draws are
    parameters: the theorems hold for every outcome.  CPython's
    [_randbelow] redraws until a value is below its bound: the model takes
    the accepted value, one draw per call; [datetime.isoformat] is a
    parameter.  The two
    fault-tolerant consumers each count their own draws of the shared
    generator, which the theorems cover since they hold for every
    sequence of draws.  [time.sleep] of the retry is modelled by its
    errors only (the time it waits is not observed); [print] of the main threads,
    INFO-level logging, the logging configuration ([logging.basicConfig]:
    the timestamp, logger name and level prefixed to each line by the
    library) and [mkdir] change no
    state the theorems observe and are left out; JSON files are modelled
    by their fields. *)

From stdpp Require Export base list gmap strings numbers.
From Stdlib Require Export ZArith.

(** ** Python exceptions and results *)

(** A raised Python exception: its class name and [str(e)]. *)
Inductive exn : Type :=
  | PyExc (cls : string) (msg : string).

Definition exn_msg (e : exn) : string :=
  match e with PyExc _ m => m end.

#[export] Instance exn_eq_dec : EqDecision exn.
Proof. solve_decision. Defined.

(** The outcome of running a Python statement: it returns a value, raises,
    or (in the model only) exhausts the fuel of a [while] loop. *)
Inductive result (A : Type) : Type :=
  | Ok (a : A)
  | Raise (e : exn)
  | NoFuel.
Arguments Ok {A} a.
Arguments Raise {A} e.
Arguments NoFuel {A}.

(** ** A state-and-exception monad

    Python methods mutate [self] (and the file system) and may raise; an
    exception does not undo the mutations made before it.  [PyM St A]
    threads the state and keeps it on every outcome. *)
Definition PyM (St A : Type) : Type := St -> St * result A.

Definition py_ret {St A} (a : A) : PyM St A := fun s => (s, Ok a).

Definition py_bind {St A B} (m : PyM St A) (k : A -> PyM St B) : PyM St B :=
  fun s =>
    let '(s', r) := m s in
    match r with
    | Ok a => k a s'
    | Raise e => (s', Raise e)
    | NoFuel => (s', NoFuel)
    end.

Definition py_raise {St A} (e : exn) : PyM St A := fun s => (s, Raise e).

(** [try: m except Exception as e: h e] *)
Definition py_try {St A} (m : PyM St A) (h : exn -> PyM St A) : PyM St A :=
  fun s =>
    let '(s', r) := m s in
    match r with
    | Raise e => h e s'
    | _ => (s', r)
    end.

Definition py_get {St} : PyM St St := fun s => (s, Ok s).
Definition py_put {St} (s : St) : PyM St unit := fun _ => (s, Ok tt).
Definition py_modify {St} (f : St -> St) : PyM St unit := fun s => (f s, Ok tt).

Declare Scope py_scope.
  Delimit Scope py_scope with py.
Notation "'let*' x ':=' m 'in' k" := (py_bind m (fun x => k))
  (at level 10, x name, m at level 100, k at level 200) : py_scope.
Notation "'try*' m 'except' e '=>' h" := (py_try m (fun e => h))
  (at level 10, e name, m at level 100, h at level 200) : py_scope.

(** [while cond: body], with fuel: [NoFuel] when the fuel runs out. *)
Fixpoint py_while {St} (fuel : nat) (cond : St -> bool) (body : PyM St unit)
    : PyM St unit :=
  fun s =>
    match fuel with
    | O => (s, NoFuel)
    | S f => if cond s then py_bind body (fun _ => py_while f cond body) s
             else (s, Ok tt)
    end.

(** Python's [len] on a list, as an integer. *)
Definition py_len {A} (l : list A) : Z := Z.of_nat (length l).

(** ** Python list slicing

    [l[:n]] and [l[n:]] for an integer [n]: a negative [n] counts from the
    end of the list, and any index is clamped to [0 .. len l]. *)
Definition py_slice_index (n : Z) (len : nat) : nat :=
  if decide (n < 0)%Z then Z.to_nat (n + Z.of_nat len)%Z else Z.to_nat n.

Definition py_take {A} (n : Z) (l : list A) : list A :=
  take (py_slice_index n (length l)) l.

Definition py_drop {A} (n : Z) (l : list A) : list A :=
  drop (py_slice_index n (length l)) l.

Create HintDb pydb discriminated.
Hint Constants Transparent : pydb.
Create Rewrite HintDb pyrw.

(** ** Generic lemmas on the monad *)

Section monad_laws.
Context {St A B C : Type}.

Lemma py_bind_ret_l (a : A) (k : A -> PyM St B) s :
  py_bind (py_ret a) k s = k a s.
Proof. reflexivity. Qed.

Lemma py_bind_ret_r (m : PyM St A) s : py_bind m py_ret s = m s.
Proof. unfold py_bind. destruct (m s) as [s' []]; reflexivity. Qed.

Lemma py_bind_assoc (m : PyM St A) (k : A -> PyM St B) (k' : B -> PyM St C) s :
  py_bind (py_bind m k) k' s = py_bind m (fun a => py_bind (k a) k') s.
Proof. unfold py_bind. destruct (m s) as [s' []]; reflexivity. Qed.

Lemma py_bind_ok (m : PyM St A) (k : A -> PyM St B) s s' a :
  m s = (s', Ok a) -> py_bind m k s = k a s'.
Proof. unfold py_bind. by intros ->. Qed.

Lemma py_bind_raise (m : PyM St A) (k : A -> PyM St B) s s' e :
  m s = (s', Raise e) -> py_bind m k s = (s', Raise e).
Proof. unfold py_bind. by intros ->. Qed.

Lemma py_try_ok (m : PyM St A) h s s' a :
  m s = (s', Ok a) -> py_try m h s = (s', Ok a).
Proof. unfold py_try. by intros ->. Qed.

Lemma py_try_raise (m : PyM St A) h s s' e :
  m s = (s', Raise e) -> py_try m h s = h e s'.
Proof. unfold py_try. by intros ->. Qed.

(** [except Exception] does not catch the model's out-of-fuel outcome. *)
Lemma py_try_nofuel (m : PyM St A) h s : (m s).2 = NoFuel -> (py_try m h s).2 = NoFuel.
Proof. unfold py_try. by destruct (m s) as [s' []]. Qed.

Lemma py_bind_nofuel (m : PyM St A) (k : A -> PyM St B) s s' a :
  m s = (s', Ok a) -> (py_bind m k s).2 = NoFuel <-> (k a s').2 = NoFuel.
Proof. unfold py_bind. by intros ->. Qed.
End monad_laws.

(** ** Total computations

    [returns m P]: from every state, [m] returns (neither raises nor runs
    out of fuel) a value satisfying [P].  A total-correctness triple: it
    says that [m] returns, not only what it returns if it does. *)
Definition returns {St A} (m : PyM St A) (P : A -> Prop) : Prop :=
  forall s, exists s' a, m s = (s', Ok a) /\ P a.

Section returns_rules.
Context {St A B : Type}.

Lemma returns_ret (a : A) (P : A -> Prop) : P a -> returns (St:=St) (py_ret a) P.
Proof. intros HP s. by exists s, a. Qed.

Lemma returns_bind (m : PyM St A) (k : A -> PyM St B) P Q :
  returns m P -> (forall a, P a -> returns (k a) Q) -> returns (py_bind m k) Q.
Proof.
  intros Hm Hk s. destruct (Hm s) as (s1 & a & Hs & HP).
  rewrite (py_bind_ok _ _ _ _ _ Hs). by apply Hk.
Qed.

Lemma returns_weaken (m : PyM St A) (P Q : A -> Prop) :
  returns m P -> (forall a, P a -> Q a) -> returns m Q.
Proof. intros Hm HPQ s. destruct (Hm s) as (s' & a & ? & ?). eauto. Qed.
End returns_rules.

#[export] Hint Rewrite @py_bind_ret_l @py_bind_assoc : pyrw.

Lemma py_while_S {St} f (cond : St -> bool) body s :
  py_while (S f) cond body s =
  if cond s then py_bind body (fun _ => py_while f cond body) s else (s, Ok tt).
Proof. reflexivity. Qed.

(** ** Generic lemmas on slicing *)

Lemma py_take_drop {A} (n : Z) (l : list A) : py_take n l ++ py_drop n l = l.
Proof. apply take_drop. Qed.

Lemma py_slice_index_nonneg (n : Z) len :
  (0 <= n)%Z -> py_slice_index n len = Z.to_nat n.
Proof. intros Hn. unfold py_slice_index. case_decide; [lia | done]. Qed.

Lemma py_take_nonneg {A} (n : Z) (l : list A) :
  (0 <= n)%Z -> py_take n l = take (Z.to_nat n) l.
Proof. intros Hn. unfold py_take. by rewrite py_slice_index_nonneg. Qed.

Lemma py_drop_nonneg {A} (n : Z) (l : list A) :
  (0 <= n)%Z -> py_drop n l = drop (Z.to_nat n) l.
Proof. intros Hn. unfold py_drop. by rewrite py_slice_index_nonneg. Qed.

#[export] Hint Resolve py_take_drop : pydb.

(** ** Generic lemmas on lists *)

Lemma lookup_snoc_cases {A} (l : list A) (x : A) (i : nat) :
  (l ++ [x]) !! i =
  if decide (i < length l)%nat then l !! i
  else if decide (i = length l) then Some x else None.
Proof.
  repeat case_decide.
  - by apply lookup_app_l.
  - subst. by apply list_lookup_middle.
  - apply lookup_ge_None. rewrite length_app. simpl. lia.
Qed.

(** Unfold one layer of the monad after [simpl] got stuck on a [let]. *)
Ltac py_unfold :=
  unfold py_bind, py_ret, py_raise, py_try, py_get, py_put, py_modify in *;
  simpl in *.

(** ** Cutting a list into batches

    The reference for the consumers' re-batching loops: the full batches of
    [n] items cut off the front of [l], and what remains.  [fuel] bounds
    the number of batches; [length l] always suffices when [n > 0]. *)
Fixpoint split_batches {A} (fuel n : nat) (l : list A) : list (list A) * list A :=
  match fuel with
  | O => ([], l)
  | S f =>
      if decide (0 < n <= length l)%nat then
        let '(bs, r) := split_batches f n (drop n l) in (take n l :: bs, r)
      else ([], l)
  end.

Definition chunks {A} (n : nat) (l : list A) : list (list A) * list A :=
  split_batches (length l) n l.

Section chunks.
Context {A : Type}.
Implicit Types (l : list A).

Lemma split_batches_enough (f1 f2 n : nat) l :
  (length l <= f1)%nat -> (length l <= f2)%nat ->
  split_batches f1 n l = split_batches f2 n l.
Proof.
  revert f2 l. induction f1 as [|f1 IH]; intros [|f2] l H1 H2; simpl; try done.
  - case_decide; [lia|done].
  - case_decide; [lia|done].
  - case_decide; [|done]. rewrite (IH f2); [done | |]; rewrite length_drop; lia.
Qed.

Lemma chunks_step (n : nat) l :
  (0 < n <= length l)%nat ->
  chunks n l = let '(bs, r) := chunks n (drop n l) in (take n l :: bs, r).
Proof.
  intros Hn. unfold chunks. destruct (length l) as [|k] eqn:E; [lia|]. simpl.
  rewrite decide_True by lia.
  rewrite (split_batches_enough k (length (drop n l))); [done | |]; rewrite length_drop; lia.
Qed.

Lemma chunks_stop (n : nat) l : ~ (0 < n <= length l)%nat -> chunks n l = ([], l).
Proof.
  intros Hn. unfold chunks. destruct (length l) eqn:E; [done|]. simpl.
  rewrite decide_False; [done | lia].
Qed.

(** The batches and the rest put back together are the list; every batch
    has [n] items; fewer than [n] remain. *)
Lemma chunks_spec (n : nat) l :
  (0 < n)%nat ->
  concat (chunks n l).1 ++ (chunks n l).2 = l /\
  Forall (fun b => length b = n) (chunks n l).1 /\ (length (chunks n l).2 < n)%nat.
Proof.
  intros Hn. induction l as [l IH] using (induction_ltof1 _ (@length A)). unfold ltof in IH.
  destruct (decide (n <= length l)%nat).
  - rewrite chunks_step by lia.
    destruct (IH (drop n l)) as (Hc & Hf & Hr); [rewrite length_drop; lia|].
    destruct (chunks n (drop n l)) as [bs r]. simpl in *.
    split_and!; [by rewrite <-app_assoc, Hc, take_drop | |done].
    constructor; [rewrite length_take; lia | done].
  - rewrite chunks_stop by lia. simpl. split_and!; [done | constructor | lia].
Qed.

(** [chunks] is determined by its specification: any cut of [l] into
    batches of [n] items and a rest shorter than [n] is the one [chunks]
    makes. *)
Lemma chunks_unique (n : nat) l bs r :
  (0 < n)%nat -> concat bs ++ r = l -> Forall (fun b => length b = n) bs -> (length r < n)%nat ->
  chunks n l = (bs, r).
Proof.
  intros Hn. revert l. induction bs as [|b bs IH]; intros l Hl Hf Hr; simpl in *.
  - subst l. apply chunks_stop. lia.
  - apply Forall_cons_1 in Hf as [Hb Hf]. rewrite <-app_assoc in Hl.
    rewrite chunks_step by (rewrite <-Hl, length_app; lia).
    rewrite (IH (drop n l)); [| by rewrite <-Hl, <-Hb, drop_app_length | done | done].
    by rewrite <-Hl, <-Hb, take_app_length.
Qed.

(** Cutting [l1 ++ l2] is cutting [l1], then cutting what was left of it
    followed by [l2]. *)
Lemma chunks_app (n : nat) l1 l2 :
  (0 < n)%nat ->
  chunks n (l1 ++ l2) =
  ((chunks n l1).1 ++ (chunks n ((chunks n l1).2 ++ l2)).1, (chunks n ((chunks n l1).2 ++ l2)).2).
Proof.
  intros Hn. destruct (chunks_spec n l1 Hn) as (H1 & F1 & _).
  destruct (chunks_spec n ((chunks n l1).2 ++ l2) Hn) as (H2 & F2 & R2).
  apply chunks_unique; [done | | by apply Forall_app | done].
  by rewrite concat_app, <-app_assoc, H2, app_assoc, H1.
Qed.
End chunks.

(** ** Cutting [n * m] items into batches of [n] *)

Lemma concat_blocks (n : Z) (m : nat) :
  (0 <= n)%Z ->
  concat ((fun k => seqZ (n * k) n) <$> seqZ 0 (Z.of_nat m)) = seqZ 0 (n * Z.of_nat m).
Proof.
  intros Hn. induction m as [|m IH]; [by rewrite Z.mul_0_r|].
  rewrite seqZ_S, fmap_app, concat_app, IH. simpl. rewrite app_nil_r.
  replace (n * Z.of_nat (S m))%Z with (n * Z.of_nat m + n)%Z by lia.
  rewrite seqZ_app by lia. repeat f_equal; lia.
Qed.

Lemma concat_fmap_fmap {X Y W} (f : Y -> W) (g : X -> list Y) (l : list X) :
  concat ((fun x => f <$> g x) <$> l) = f <$> concat (g <$> l).
Proof. induction l as [|x l IH]; [done|]. rewrite !fmap_cons. cbn [concat]. by rewrite fmap_app, IH. Qed.

Lemma chunks_blocks {Row} (gen : Z -> Row) (n : nat) (m : nat) :
  (0 < n)%nat ->
  chunks n (gen <$> seqZ 0 (Z.of_nat n * Z.of_nat m)) =
  ((fun k => gen <$> seqZ (Z.of_nat n * k) (Z.of_nat n)) <$> seqZ 0 (Z.of_nat m), []).
Proof.
  intros Hn. apply chunks_unique; [done | | | simpl; lia].
  - by rewrite app_nil_r, <-concat_blocks, concat_fmap_fmap by lia.
  - apply Forall_fmap, Forall_forall. intros k _. simpl. rewrite length_fmap, length_seqZ. lia.
Qed.
