(* ===== verification/RingBuffer.v ===== *)
(** * The ring buffer and its cursor barrier

    The preallocated circular buffer of the [disruptor] package (imported
    by every source file, not part of the repository: modelled from the
    specification, section 4.1 and 4.3).  A slot is [option A]: [None]
    until its first write.  Sequences are unbounded integers: the 64-bit
    cursors of the specification "never wrap in practice", so no wrap is
    modelled.  [Module Barrier] holds the gating sequence and the claim
    test that implement backpressure. *)

From S2P Require Import Prelude.

Module RingBuffer.
Section ring.
Context {A : Type}.

Record ring : Type := mk_ring {
  size : Z;                  (** the capacity, positive *)
  slots : list (option A)    (** [size] slots, indexed by [seq mod size] *)
  }.

(** [RingBuffer(size)]: [size] empty slots. *)
Definition create (n : Z) : ring :=
  {| size := n; slots := replicate (Z.to_nat n) None |}.

(** The slot index of a sequence: [sequence mod capacity]. *)
Definition idx (r : ring) (s : Z) : nat := Z.to_nat (s mod size r).

(** [write(sequence, item)] *)
Definition write (r : ring) (s : Z) (x : A) : ring :=
  {| size := size r; slots := <[idx r s := Some x]> (slots r) |}.

(** [read(sequence)]: the item stored in the slot, if any. *)
Definition read (r : ring) (s : Z) : option A :=
  mjoin (slots r !! idx r s).

(** Write [xs] at the consecutive sequences [lo], [lo+1], ... *)
Fixpoint write_from (r : ring) (lo : Z) (xs : list A) : ring :=
  match xs with
  | [] => r
  | x :: xs' => write_from (write r lo x) (lo + 1) xs'
  end.

(** Read the inclusive range [lo .. hi] into an ordered list. *)
Definition read_range (r : ring) (lo hi : Z) : option (list A) :=
  mapM (read r) (seqZ lo (hi - lo + 1)).

(** The ring is well formed: a positive capacity and that many slots. *)
Definition wf (r : ring) : Prop :=
  (0 < size r)%Z /\ length (slots r) = Z.to_nat (size r).

(** The window [lo .. hi] of the ring holds the items [hist] published at
    those sequences: the abstraction from ring to publication history. *)
Definition holds (r : ring) (hist : list A) (lo hi : Z) : Prop :=
  forall s, (lo <= s <= hi)%Z -> read r s = hist !! Z.to_nat s.
End ring.

(** [hist[lo : hi + 1]]: the items published at the sequences [lo .. hi]. *)
Definition hist_slice {A} (hist : list A) (lo hi : Z) : list A :=
  take (Z.to_nat (hi - lo + 1)) (drop (Z.to_nat lo) hist).
Arguments ring : clear implicits.
End RingBuffer.

Module Barrier.
(** The gating sequence: the minimum consumer cursor.  With no consumer
    registered nothing gates the producer, and the producer cursor
    itself is returned. *)
Definition gating (producer : Z) (cursors : list Z) : Z :=
  foldr Z.min producer cursors.

(** A claim of the sequences up to [hi] may proceed when the slot of
    [hi] (and so of every lower claimed sequence) is no longer needed:
    its previous occupant [hi - size] has been consumed by everyone. *)
Definition can_claim (size gate hi : Z) : bool := bool_decide (hi - size <= gate)%Z.

(** The claim test as literally written in the specification,
    [s - capacity < gating]. *)
Definition can_claim_literal (size gate hi : Z) : bool := bool_decide (hi - size < gate)%Z.
End Barrier.

(** ** Lemmas *)

Section ring_lemmas.
Context {A : Type}.
Implicit Types (r : RingBuffer.ring A) (s t lo hi : Z) (x : A) (xs hist : list A).
Import RingBuffer.

(** Two sequences less than one capacity apart use different slots. *)
Lemma mod_neq_window (K s t : Z) :
  (0 < K)%Z -> (s < t < s + K)%Z -> (s mod K <> t mod K)%Z.
Proof.
  intros HK Hst Heq.
  assert ((t - s) mod K = 0)%Z as H0.
  { apply Z.cong_iff_0. done. }
  rewrite Z.mod_small in H0; lia.
Qed.

Lemma idx_lt r s : wf r -> (idx r s < length (slots r))%nat.
Proof.
  intros [Hpos Hlen]. unfold idx. rewrite Hlen.
  pose proof (Z.mod_pos_bound s (size r) Hpos). lia.
Qed.

Lemma idx_inj r s t : wf r -> idx r s = idx r t -> (s mod size r = t mod size r)%Z.
Proof.
  intros [Hpos _]. unfold idx.
  pose proof (Z.mod_pos_bound s (size r) Hpos).
  pose proof (Z.mod_pos_bound t (size r) Hpos). lia.
Qed.

Lemma create_wf (n : Z) : (0 < n)%Z -> wf (create (A:=A) n).
Proof. intros Hn. split; simpl; [done | by rewrite length_replicate]. Qed.

Lemma write_wf r s x : wf r -> wf (write r s x).
Proof. intros [Hp Hl]. split; simpl; [done | by rewrite length_insert]. Qed.

Lemma write_from_wf r lo xs : wf r -> wf (write_from r lo xs).
Proof.
  revert r lo. induction xs as [|x xs IH]; intros r lo Hr; simpl; auto using write_wf.
Qed.

Lemma write_from_size r lo xs : size (write_from r lo xs) = size r.
Proof. revert r lo. induction xs; intros r lo; simpl; [done | by rewrite IHxs]. Qed.

Lemma read_write_eq r s x : wf r -> read (write r s x) s = Some x.
Proof.
  intros Hr. unfold read, write. simpl. unfold idx at 1. simpl.
  rewrite list_lookup_insert_eq; [done | by apply idx_lt].
Qed.

Lemma read_write_ne r s t x :
  wf r -> (s mod size r <> t mod size r)%Z -> read (write r s x) t = read r t.
Proof.
  intros Hr Hne. unfold read, write. simpl. unfold idx at 1 3. simpl.
  rewrite list_lookup_insert_ne; [done |].
  intros Heq. apply Hne. symmetry. apply (idx_inj r). done. unfold idx. done.
Qed.

Lemma read_create (n : Z) s : read (create (A:=A) n) s = None.
Proof.
  unfold read, create, idx. simpl.
  destruct (replicate _ None !! _) eqn:E; [|done].
  apply lookup_replicate in E as [-> _]. done.
Qed.

(** Publishing [xs] after the cursor [c] keeps the window [(g, c]] and
    extends it with [xs], provided the claim stays within one capacity
    of the gating sequence [g]: no live slot is overwritten. *)
Lemma holds_write_from r hist xs (g c : Z) :
  wf r -> (-1 <= g <= c)%Z -> length hist = Z.to_nat (c + 1) ->
  (c + Z.of_nat (length xs) - g <= size r)%Z ->
  holds r hist (g + 1) c ->
  holds (write_from r (c + 1) xs) (hist ++ xs) (g + 1) (c + Z.of_nat (length xs)).
Proof.
  revert r hist c. induction xs as [|x xs IH]; intros r hist c Hr Hg Hlen Hroom Hh.
  { simpl. rewrite app_nil_r, Z.add_0_r. done. }
  simpl. replace (hist ++ x :: xs) with ((hist ++ [x]) ++ xs) by by rewrite <-app_assoc.
  replace (c + Z.of_nat (S (length xs)))%Z with (c + 1 + Z.of_nat (length xs))%Z by lia.
  apply IH; [by apply write_wf | lia | rewrite length_app; simpl; lia | unfold write; simpl in *; lia |].
  intros s Hs. destruct (decide (s = c + 1)%Z) as [->|Hne].
  - rewrite read_write_eq by done. rewrite lookup_app_r by lia.
    replace (Z.to_nat (c + 1) - length hist)%nat with 0%nat by lia. done.
  - rewrite read_write_ne; [| done |].
    + rewrite lookup_app_l by lia. apply Hh. lia.
    + apply not_eq_sym, mod_neq_window; [apply Hr | simpl in Hroom; lia].
Qed.

(** Reading a range inside the window gives the published items. *)
Lemma read_range_holds r hist (g c lo hi : Z) :
  holds r hist (g + 1) c -> (g + 1 <= lo)%Z -> (0 <= lo)%Z -> (lo <= hi + 1)%Z ->
  (hi <= c)%Z -> (c < Z.of_nat (length hist))%Z ->
  read_range r lo hi = Some (hist_slice hist lo hi).
Proof.
  intros Hh Hlo H0 Hlohi Hhi Hc. unfold read_range, hist_slice.
  remember (Z.to_nat (hi - lo + 1)) as k eqn:Hk.
  replace (hi - lo + 1)%Z with (Z.of_nat k) by lia.
  assert (Z.of_nat k + lo - 1 <= c)%Z as Hkc by lia. clear Hk Hhi Hlohi.
  revert lo Hlo H0 Hkc. induction k as [|k IHk]; intros lo Hlo H0 Hkc; [done |].
  rewrite seqZ_cons by lia. simpl.
  destruct (hist !! Z.to_nat lo) as [x|] eqn:Ex; last first.
  { apply lookup_ge_None in Ex. lia. }
  rewrite (Hh lo) by lia. rewrite Ex. simpl.
  replace (Z.pred (Z.of_nat (S k))) with (Z.of_nat k) by lia.
  rewrite (IHk (Z.succ lo)) by lia. simpl.
  rewrite (drop_S hist x (Z.to_nat lo) Ex). simpl.
  replace (Z.to_nat (Z.succ lo)) with (S (Z.to_nat lo)) by lia. done.
Qed.
End ring_lemmas.
