(* ===== verification/Consumer.v ===== *)
(** * The consumer capability and the error-handler contract

    The [Consumer] base class of the [disruptor] package (imported by
    src/main.py, src/batch_json_example.py and src/fault_tolerant_example.py;
    the package is not part of the repository and is modelled from the
    specification, sections 4.4 and 6).  A consumer is a class with the
    two methods [consume(elements)] and [close()]; here it is the type
    class [Consumer A C] on the consumer's state [C] (its [self] together
    with whatever it owns, such as its output directory), with both methods
    in the [PyM] monad: they mutate [self] and may raise.

    [deliver] is the body of one consumer-worker iteration after the batch
    has been read (specification 4.4, steps 3-5): it calls [consume] and
    routes an exception to the configured [consumer_error_handler], or to
    the default handler (log and skip) when none is configured.  Both the
    abstract broadcast specification and the ring-buffer dispatcher use it,
    so the callback protocol is stated once. *)

From S2P Require Import Prelude.

Class Consumer (A C : Type) := {
    consume : list A -> PyM C unit;
    close : PyM C unit
  }.

(** The base class's [close()] does nothing: subclasses that do not
    override it (such as [MyConsumer] of src/main.py) inherit this. *)
Definition base_close {C : Type} : PyM C unit := py_ret tt.

(** [consumer_error_handler(consumer, input_batch, error)]: user code whose
    observable effect is the log lines it emits. *)
Definition handler (A C : Type) : Type := C -> list A -> exn -> list string.

(** The default when no handler is configured: log the error and skip. *)
Definition default_handler {A C : Type} : handler A C :=
  fun _ _ e => [("Consumer error: " ++ exn_msg e)%string].

Definition run_handler {A C} (h : option (handler A C)) : handler A C :=
  match h with Some f => f | None => default_handler end.

(** What the bus observably does, in order. *)
Inductive event (A : Type) : Type :=
  | EvPublish (lo : Z) (items : list A)          (** [produce(items)] published at [lo ..] *)
  | EvDeliver (i : nat) (batch : list A) (err : option exn)
      (** consumer [i]'s [consume(batch)] returned ([None]) or raised *)
  | EvClose (i : nat) (err : option exn).        (** consumer [i]'s [close()] ran *)
Arguments EvPublish {A} lo items.
Arguments EvDeliver {A} i batch err.
Arguments EvClose {A} i err.

Section deliver.
Context {A C : Type} `{!Consumer A C}.

(** One delivery to consumer [i]: its new state, the events and the log
    lines; [None] when [consume] does not return (the worker hangs). *)
Definition deliver (h : option (handler A C)) (i : nat) (c : C) (batch : list A)
    : option (C * list (event A) * list string) :=
  match consume batch c with
  | (c', Ok _) => Some (c', [EvDeliver i batch None], [])
  | (c', Raise e) => Some (c', [EvDeliver i batch (Some e)], run_handler h c' batch e)
  | (_, NoFuel) => None
  end.

(** [close()] on every consumer, in registration order, each exactly once;
    an exception from one [close()] is recorded and the others still run. *)
Fixpoint close_all (i : nat) (cs : list C) : list C * list (event A) :=
  match cs with
  | [] => ([], [])
  | c :: cs' =>
      let '(c', r) := close c in
      let ev := EvClose i (match r with Raise e => Some e | _ => None end) in
      let '(cs'', evs) := close_all (S i) cs' in
      (c' :: cs'', ev :: evs)
  end.

(** A consumer's state after [consume] was called on each batch in turn,
    whether each call returned or raised (the worker keeps the state
    [consume] left either way). *)
Definition feed (c : C) (bs : list (list A)) : C := foldl (fun c b => (consume b c).1) c bs.

Lemma feed_app c bs1 bs2 : feed c (bs1 ++ bs2) = feed (feed c bs1) bs2.
Proof. apply foldl_app. Qed.

Lemma close_all_lookup n cs j c :
  cs !! j = Some c -> (close_all n cs).1 !! j = Some (close c).1.
Proof.
  revert n j. induction cs as [|c' cs IH]; intros n j Hj; [done|]. simpl.
  destruct (close c') as [c1 r] eqn:Ec. specialize (IH (S n)).
  destruct (close_all (S n) cs) as [cs'' evs]. simpl in *.
  destruct j as [|j]; simplify_eq/=; [by rewrite Ec | by apply IH].
Qed.
End deliver.

(** ** Observations on traces *)

(** Everything published, in publication order. *)
Fixpoint published {A} (tr : list (event A)) : list A :=
  match tr with
  | [] => []
  | EvPublish _ items :: tr' => items ++ published tr'
  | _ :: tr' => published tr'
  end.

(** The concatenation of the batches passed to consumer [i]'s [consume]. *)
Fixpoint delivered {A} (i : nat) (tr : list (event A)) : list A :=
  match tr with
  | [] => []
  | EvDeliver j b _ :: tr' => if decide (i = j) then b ++ delivered i tr' else delivered i tr'
  | _ :: tr' => delivered i tr'
  end.

(** The batches passed to consumer [i], one per [consume] call. *)
Fixpoint batches {A} (i : nat) (tr : list (event A)) : list (list A) :=
  match tr with
  | [] => []
  | EvDeliver j b _ :: tr' => if decide (i = j) then b :: batches i tr' else batches i tr'
  | _ :: tr' => batches i tr'
  end.

(** How many times consumer [i]'s [close()] ran. *)
Fixpoint closes {A} (i : nat) (tr : list (event A)) : nat :=
  match tr with
  | [] => 0
  | EvClose j _ :: tr' => (if decide (i = j) then 1 else 0) + closes i tr'
  | _ :: tr' => closes i tr'
  end.

(** Whether a [close()] ran, and whether a [consume] was called after a
    [close()] had run. *)
Definition is_close {A} (ev : event A) : bool :=
  match ev with EvClose _ _ => true | _ => false end.
Definition is_deliver {A} (ev : event A) : bool :=
  match ev with EvDeliver _ _ _ => true | _ => false end.

Fixpoint deliver_after_close {A} (tr : list (event A)) : bool :=
  match tr with
  | [] => false
  | ev :: tr' => (is_close ev && existsb is_deliver tr') || deliver_after_close tr'
  end.

Section trace_lemmas.
Context {A : Type}.
Implicit Types (tr : list (event A)).

Lemma published_app tr1 tr2 : published (tr1 ++ tr2) = published tr1 ++ published tr2.
Proof. induction tr1 as [|[] ? IH]; simpl; rewrite ?IH, ?app_assoc; done. Qed.

Lemma delivered_app i tr1 tr2 : delivered i (tr1 ++ tr2) = delivered i tr1 ++ delivered i tr2.
Proof.
  induction tr1 as [|[] ? IH]; simpl; rewrite ?IH; try done. case_decide; by rewrite ?app_assoc.
Qed.

Lemma batches_app i tr1 tr2 : batches i (tr1 ++ tr2) = batches i tr1 ++ batches i tr2.
Proof. induction tr1 as [|[] ? IH]; simpl; rewrite ?IH; try done. case_decide; done. Qed.

Lemma closes_app i tr1 tr2 : closes i (tr1 ++ tr2) = (closes i tr1 + closes i tr2)%nat.
Proof. induction tr1 as [|[] ? IH]; simpl; rewrite ?IH; lia. Qed.

Lemma deliver_after_close_app tr1 tr2 :
  deliver_after_close (tr1 ++ tr2) =
  deliver_after_close tr1 || (existsb is_close tr1 && existsb is_deliver tr2)
  || deliver_after_close tr2.
Proof.
  induction tr1 as [|ev tr1 IH]; simpl; [done|].
  rewrite IH, existsb_app. destruct (is_close ev), (existsb is_deliver tr1),
    (existsb is_deliver tr2), (deliver_after_close tr1), (existsb is_close tr1),
    (deliver_after_close tr2); done.
Qed.

Lemma batches_no_deliver i tr : existsb is_deliver tr = false -> batches i tr = [].
Proof.
  induction tr as [|[] tr IH]; simpl; try done; intros H; by apply IH.
Qed.

(** No [consume] after a [close()]: every consumer's batches after any
    [close] event are empty. *)
Lemma no_deliver_after_close tr1 tr2 i e j :
  deliver_after_close (tr1 ++ EvClose i e :: tr2) = false -> batches j tr2 = [].
Proof.
  rewrite deliver_after_close_app. intros H. apply batches_no_deliver.
  destruct (existsb is_deliver tr2) eqn:E; [|done].
  simpl in H. rewrite E, orb_true_r in H. done.
Qed.

Lemma delivered_concat i tr : delivered i tr = concat (batches i tr).
Proof. induction tr as [|[] ? IH]; simpl; try done. case_decide; simpl; by rewrite IH. Qed.
End trace_lemmas.

Create Rewrite HintDb tracerw.
#[export] Hint Rewrite @published_app @delivered_app @batches_app @closes_app : tracerw.
