(* ===== verification/Broadcast.v ===== *)
(** * The abstract specification of the bus: a broadcast queue

    What the [Disruptor] of the [disruptor] package promises, stated
    without the ring: the bus keeps the whole publication history [hist]
    and, for each registered consumer, the number of items it has been
    handed.  A worker step hands a consumer everything published since its
    last batch, in one [consume] call; a producer may publish only while no
    consumer lags more than [size] items behind the new end (backpressure);
    the lifecycle is the state machine NEW, RUNNING, DRAINING, CLOSED of the
    specification (section 4.5).  The ring-buffer dispatcher of
    [Dispatcher.v] is proved to refine this machine step for step. *)

From S2P Require Import Prelude Consumer.

(** ** Vocabulary shared with the dispatcher *)

Inductive phase : Type := NEW | RUNNING | DRAINING | CLOSED.

#[export] Instance phase_eq_dec : EqDecision phase.
Proof. solve_decision. Defined.

(** The misuse errors of the specification (section 7, kind 1), raised to
    the caller with the state unchanged. *)
Inductive misuse : Type :=
  | NonPositiveSize        (** [Disruptor(size=n)] with [n <= 0] *)
  | LateRegistration       (** [register_consumer] after the first publication *)
  | ProduceAfterClose      (** [produce] once [close] has begun *)
  | EmptyProduce           (** [produce([])] *)
  | NoSuchConsumer.        (** a worker index with no registered consumer *)

#[export] Instance misuse_eq_dec : EqDecision misuse.
Proof. solve_decision. Defined.

(** The outcome of an operation: done, blocked (the caller waits: a full
    ring, an idle worker, a close that has not drained), or refused. *)
Inductive outcome (S : Type) : Type :=
  | Done (s : S)
  | Wait
  | Misuse (m : misuse).
Arguments Done {S} s.
Arguments Wait {S}.
Arguments Misuse {S} m.

(** The operations a run interleaves: the caller's [register_consumer],
    [produce] and [close], one iteration of worker [i], and the end of the
    drain inside [close]. *)
Inductive action (A C : Type) : Type :=
  | Register (c : C)
  | Produce (items : list A)
  | Work (i : nat)
  | Close
  | Finish.
Arguments Register {A C} c.
Arguments Produce {A C} items.
Arguments Work {A C} i.
Arguments Close {A C}.
Arguments Finish {A C}.

Module Broadcast.
Section spec.
Context {A C : Type} `{!Consumer A C}.

Record bus : Type := mk_bus {
  b_size : Z;                        (** capacity *)
  b_hist : list A;                   (** everything published, in order *)
  b_consumers : list (C * nat);      (** each consumer and how many items it was handed *)
  b_phase : phase;
  b_handler : option (handler A C);
  b_trace : list (event A);
  b_log : list string
  }.

Definition init (size : Z) (h : option (handler A C)) : bus :=
  {| b_size := size; b_hist := []; b_consumers := []; b_phase := NEW;
     b_handler := h; b_trace := []; b_log := [] |}.

(** The position of the slowest consumer (the end of the history when
    there is no consumer). *)
Definition low_water (b : bus) : nat :=
  foldr Nat.min (length (b_hist b)) (fmap snd (b_consumers b)).

Definition register (b : bus) (c : C) : outcome bus :=
  match b_phase b with
  | NEW => Done {| b_size := b_size b; b_hist := b_hist b;
                   b_consumers := b_consumers b ++ [(c, 0%nat)]; b_phase := NEW;
                   b_handler := b_handler b; b_trace := b_trace b; b_log := b_log b |}
  | _ => Misuse LateRegistration
  end.

Definition produce (b : bus) (items : list A) : outcome bus :=
  match b_phase b with
  | DRAINING | CLOSED => Misuse ProduceAfterClose
  | _ =>
      if decide (items = []) then Misuse EmptyProduce
      else if decide (Z.of_nat (length (b_hist b) + length items) - Z.of_nat (low_water b)
                      <= b_size b)%Z
      then Done {| b_size := b_size b; b_hist := b_hist b ++ items;
                   b_consumers := b_consumers b; b_phase := RUNNING;
                   b_handler := b_handler b;
                   b_trace := b_trace b ++ [EvPublish (Z.of_nat (length (b_hist b))) items];
                   b_log := b_log b |}
      else Wait
  end.

Definition work (b : bus) (i : nat) : outcome bus :=
  match b_consumers b !! i with
  | None => Misuse NoSuchConsumer
  | Some (c, p) =>
      if decide (p < length (b_hist b))%nat then
        match deliver (b_handler b) i c (drop p (b_hist b)) with
        | Some (c', evs, lines) =>
            Done {| b_size := b_size b; b_hist := b_hist b;
                    b_consumers := <[i := (c', length (b_hist b))]> (b_consumers b);
                    b_phase := b_phase b; b_handler := b_handler b;
                    b_trace := b_trace b ++ evs; b_log := b_log b ++ lines |}
        | None => Wait
        end
      else Wait
  end.

Definition with_phase (b : bus) (ph : phase) : bus :=
  {| b_size := b_size b; b_hist := b_hist b; b_consumers := b_consumers b;
     b_phase := ph; b_handler := b_handler b; b_trace := b_trace b; b_log := b_log b |}.

Definition close_begin (b : bus) : outcome bus :=
  match b_phase b with
  | NEW | RUNNING => Done (with_phase b DRAINING)
  | DRAINING | CLOSED => Done b
  end.

Definition caught_up (b : bus) : bool :=
  forallb (fun p => Nat.eqb p (length (b_hist b))) (fmap snd (b_consumers b)).

Definition finish (b : bus) : outcome bus :=
  match b_phase b with
  | DRAINING =>
      if caught_up b then
        let '(cs', evs) := close_all 0 (fmap fst (b_consumers b)) in
        Done {| b_size := b_size b; b_hist := b_hist b;
                b_consumers := zip cs' (fmap snd (b_consumers b)); b_phase := CLOSED;
                b_handler := b_handler b; b_trace := b_trace b ++ evs; b_log := b_log b |}
      else Wait
  | _ => Wait
  end.

Definition exec (b : bus) (a : action A C) : outcome bus :=
  match a with
  | Register c => register b c
  | Produce items => produce b items
  | Work i => work b i
  | Close => close_begin b
  | Finish => finish b
  end.

Inductive step : bus -> bus -> Prop :=
  | step_exec b a b' : exec b a = Done b' -> step b b'.

(** The states reachable from a freshly constructed bus. *)
Definition reachable (b : bus) : Prop :=
  exists size h, (0 < size)%Z /\ rtc step (init size h) b.
End spec.
Arguments bus : clear implicits.

(** ** The structural invariant *)

Section invariant.
Context {A C : Type} `{!Consumer A C}.
Implicit Types (b : bus A C).

(** Every consumer is at most the whole history and at least the history
    minus one capacity behind; nothing is published before the first
    [produce]; a closed bus has drained every consumer. *)
Definition inv b : Prop :=
  (0 < b_size b)%Z /\
  (forall i c p, b_consumers b !! i = Some (c, p) ->
     (p <= length (b_hist b))%nat /\ (Z.of_nat (length (b_hist b)) <= Z.of_nat p + b_size b)%Z) /\
  (b_phase b = NEW -> b_hist b = []) /\
  (b_phase b = CLOSED -> forall i c p, b_consumers b !! i = Some (c, p) -> p = length (b_hist b)).

Lemma low_water_le b i c p :
  b_consumers b !! i = Some (c, p) -> (low_water b <= p)%nat.
Proof.
  unfold low_water. generalize (length (b_hist b)). revert i.
  induction (b_consumers b) as [|[c' p'] cs IH]; intros [|i] n Hi; simplify_eq/=; [lia|].
  specialize (IH _ n Hi). lia.
Qed.

Lemma close_all_length (cs : list C) (n : nat) :
  length (close_all (A:=A) n cs).1 = length cs.
Proof.
  revert n. induction cs as [|c cs IH]; intros n; [done|]. simpl.
  destruct (close c) as [c' r]. specialize (IH (S n)).
  destruct (close_all (S n) cs) as [cs'' evs]. simpl in *. by rewrite IH.
Qed.

Lemma caught_up_spec b i c p :
  caught_up b = true -> b_consumers b !! i = Some (c, p) -> p = length (b_hist b).
Proof.
  unfold caught_up. intros Hc Hi. rewrite forallb_forall in Hc.
  apply Nat.eqb_eq, Hc, list_elem_of_In, list_elem_of_lookup.
  exists i. by rewrite list_lookup_fmap, Hi.
Qed.

Lemma register_inv b c b' : inv b -> register b c = Done b' -> inv b'.
Proof.
  intros (Hs & Hp & Hn & Hc) Hr. unfold register in Hr.
  destruct (b_phase b) eqn:Eph; simplify_eq/=.
  specialize (Hn eq_refl). rewrite Hn in Hp |- *.
  split_and!; simpl; try done.
  intros i c' p Hi. apply lookup_snoc_Some in Hi as [[_ Hi]|[_ Hi]]; simplify_eq/=; [by eapply Hp | lia].
Qed.

Lemma produce_inv b items b' : inv b -> produce b items = Done b' -> inv b'.
Proof.
  intros (Hs & Hp & Hn & Hc) Hr. unfold produce in Hr.
  destruct (b_phase b) eqn:Eph; try discriminate;
    (destruct (decide (items = [])); [discriminate|]);
    (case_decide as Hroom; [|discriminate]); simplify_eq/=;
    (split_and!; [done| |done|done]);
    intros i c p Hi; simpl in *; pose proof (low_water_le _ _ _ _ Hi); destruct (Hp _ _ _ Hi);
    unfold low_water in *; rewrite ?length_app; lia.
Qed.

Lemma work_inv b i b' : inv b -> work b i = Done b' -> inv b'.
Proof.
  intros (Hs & Hp & Hn & Hc) Hr. unfold work in Hr.
  destruct (b_consumers b !! i) as [[c p]|] eqn:Ei; [|discriminate].
  case_decide as Hlt; [|discriminate].
  destruct (deliver _ _ _ _) as [[[c' evs] lines]|]; simplify_eq/=.
  split_and!; simpl; try done.
  - intros j c'' p' Hj. rewrite list_lookup_insert in Hj.
    case_decide; simplify_eq/=; [lia | by eapply Hp].
  - intros Hcl j c'' p' Hj. specialize (Hc Hcl _ _ _ Ei). lia.
Qed.

Lemma close_begin_inv b b' : inv b -> close_begin b = Done b' -> inv b'.
Proof.
  intros Hinv Hr. unfold close_begin in Hr.
  destruct (b_phase b) eqn:Eph; simplify_eq/=; try done;
    destruct Hinv as (Hs & Hp & Hn & Hc); split_and!; simpl; try done; by rewrite Eph.
Qed.

Lemma finish_inv b b' : inv b -> finish b = Done b' -> inv b'.
Proof.
  intros (Hs & Hp & Hn & Hc) Hr. unfold finish in Hr.
  destruct (b_phase b) eqn:Eph; try discriminate.
  destruct (caught_up b) eqn:Hcu; [|discriminate].
  pose proof (close_all_length (fmap fst (b_consumers b)) 0) as Hlen.
  destruct (close_all 0 _) as [cs' evs]; simplify_eq/=.
  rewrite length_fmap in Hlen.
  assert (forall j c p, zip cs' (fmap snd (b_consumers b)) !! j = Some (c, p) ->
            exists c0, b_consumers b !! j = Some (c0, p)) as Hz.
  { intros j c p Hj. rewrite lookup_zip_with, list_lookup_fmap in Hj.
    destruct (cs' !! j), (b_consumers b !! j) as [[c1 p1]|] eqn:E1; simplify_eq/=. eauto. }
  split_and!; simpl; try done.
  - intros j c p Hj. destruct (Hz _ _ _ Hj) as [c0 Hj0]. by eapply Hp.
  - intros _ j c p Hj. destruct (Hz _ _ _ Hj) as [c0 Hj0]. by eapply caught_up_spec.
Qed.

Lemma exec_inv b a b' : inv b -> exec b a = Done b' -> inv b'.
Proof.
  destruct a; simpl;
    eauto using register_inv, produce_inv, work_inv, close_begin_inv, finish_inv.
Qed.

Lemma init_inv (size : Z) h : (0 < size)%Z -> inv (init (A:=A) (C:=C) size h).
Proof. intros Hs. split_and!; simpl; done. Qed.

Lemma step_inv b b' : step b b' -> inv b -> inv b'.
Proof. intros [? a ? Hex] Hb. eauto using exec_inv. Qed.

Lemma reachable_inv b : reachable b -> inv b.
Proof.
  intros (size & h & Hs & Hrtc). remember (init size h) as b0 eqn:E.
  assert (inv b0) as H0 by (subst; by apply init_inv). clear E.
  induction Hrtc; eauto using step_inv.
Qed.
(** Induction over the reachable states, with the structural invariant
    available at every step. *)
Lemma reachable_ind (P : bus A C -> Prop) :
  (forall size h, (0 < size)%Z -> P (init size h)) ->
  (forall b b', inv b -> step b b' -> P b -> P b') ->
  forall b, reachable b -> P b.
Proof.
  intros Hinit Hstep b (size & h & Hs & Hrtc). remember (init size h) as b0 eqn:E.
  assert (inv b0 /\ P b0) as [Hi0 HP0] by (subst; split; [by apply init_inv | auto]).
  clear E. induction Hrtc as [|x y z Hxy Hyz IH]; [done|].
  apply IH; eauto using step_inv.
Qed.
End invariant.

(** ** What the trace records *)

Section deliveries.
Context {A C : Type} `{!Consumer A C}.
Implicit Types (b : bus A C).

Lemma deliver_trace h i c (batch : list A) c' evs lines j :
  deliver h i c batch = Some (c', evs, lines) ->
  published evs = [] /\ delivered j evs = (if decide (j = i) then batch else []) /\
  batches j evs = (if decide (j = i) then [batch] else []) /\ closes j evs = 0%nat.
Proof.
  unfold deliver. destruct (consume batch c) as [c1 []]; intros; simplify_eq/=;
    case_decide; rewrite ?app_nil_r; done.
Qed.

Lemma close_all_trace (cs : list C) n j :
  published (close_all (A:=A) n cs).2 = [] /\ delivered j (close_all (A:=A) n cs).2 = [] /\
  batches j (close_all (A:=A) n cs).2 = [] /\
  closes j (close_all (A:=A) n cs).2 = (if decide (n <= j < n + length cs)%nat then 1 else 0)%nat.
Proof.
  revert n. induction cs as [|c cs IH]; intros n; simpl.
  { case_decide; [lia|done]. }
  destruct (close c) as [c' r]. specialize (IH (S n)).
  destruct (close_all (S n) cs) as [cs'' evs]. simpl in *.
  destruct IH as (-> & -> & -> & ->). split_and!; try done.
  repeat case_decide; lia.
Qed.

Lemma zip_close_lookup (cs' : list C) (cps : list (C * nat)) j c p :
  length cs' = length cps ->
  zip cs' (fmap snd cps) !! j = Some (c, p) <->
  (exists c0, cps !! j = Some (c0, p)) /\ cs' !! j = Some c.
Proof.
  intros Hlen. rewrite lookup_zip_with, list_lookup_fmap. split.
  - destruct (cs' !! j) eqn:E1, (cps !! j) as [[c1 p1]|] eqn:E2; intros H; simplify_eq/=; eauto.
  - intros [[c0 Hj] Hc]. by rewrite Hj, Hc.
Qed.

(** The trace agrees with the abstract state: the publications are the
    history, consumer [i] was handed exactly the first [p] items where [p]
    is its position, every batch was non-empty, and each consumer was
    closed once if the bus is closed, never otherwise. *)
Definition tinv b : Prop :=
  published (b_trace b) = b_hist b /\
  (forall i, delivered i (b_trace b) =
     match b_consumers b !! i with Some (_, p) => take p (b_hist b) | None => [] end) /\
  (forall i, Forall (fun bt => bt <> []) (batches i (b_trace b))) /\
  (forall i, closes i (b_trace b) =
     if decide (b_phase b = CLOSED /\ i < length (b_consumers b))%nat then 1%nat else 0%nat).

Lemma register_tinv b c b' : inv b -> tinv b -> register b c = Done b' -> tinv b'.
Proof.
  intros (_ & _ & Hn & _) (Hpub & Hdel & Hne & Hcl) Hr. unfold register in Hr.
  destruct (b_phase b) eqn:Eph; simplify_eq/=.
  split_and!; simpl; try done.
  - intros i. rewrite Hdel, lookup_snoc_cases.
    repeat case_decide; try done; by rewrite lookup_ge_None_2 by lia.
Qed.

Lemma produce_tinv b items b' : inv b -> tinv b -> produce b items = Done b' -> tinv b'.
Proof.
  intros (_ & Hp & _ & _) (Hpub & Hdel & Hne & Hcl) Hr. unfold produce in Hr.
  destruct (b_phase b) eqn:Eph; try discriminate;
    (destruct (decide (items = [])); [discriminate|]);
    (case_decide as Hroom; [|discriminate]); simplify_eq/=;
    (split_and!; try intros i; simpl; autorewrite with tracerw; simpl;
     [by rewrite Hpub, ?app_nil_r
     | rewrite ?app_nil_r, Hdel;
       destruct (b_consumers b !! i) as [[c p]|] eqn:Ei; [|done];
       symmetry; apply take_app_le; by destruct (Hp _ _ _ Ei)
     | by rewrite ?app_nil_r
     | rewrite ?Nat.add_0_r, Hcl, ?Eph; repeat case_decide; naive_solver]).
Qed.

Lemma work_tinv b i b' : inv b -> tinv b -> work b i = Done b' -> tinv b'.
Proof.
  intros (_ & Hp & _ & _) (Hpub & Hdel & Hne & Hcl) Hr. unfold work in Hr.
  destruct (b_consumers b !! i) as [[c p]|] eqn:Ei; [|discriminate].
  case_decide as Hlt; [|discriminate].
  destruct (deliver _ _ _ _) as [[[c' evs] lines]|] eqn:Ed; simplify_eq/=.
  pose proof (lookup_lt_Some _ _ _ Ei) as Hi.
  split_and!; try intros j; simpl; autorewrite with tracerw.
  - destruct (deliver_trace _ _ _ _ _ _ _ 0 Ed) as (-> & _). by rewrite app_nil_r.
  - destruct (deliver_trace _ _ _ _ _ _ _ j Ed) as (_ & -> & _).
    rewrite Hdel, list_lookup_insert. destruct (decide (j = i)) as [->|Hji].
    + rewrite decide_True by (split; [done|lia]). rewrite Ei, take_drop.
      symmetry. apply firstn_all.
    + rewrite decide_False by (intros [? _]; congruence). by rewrite app_nil_r.
  - destruct (deliver_trace _ _ _ _ _ _ _ j Ed) as (_ & _ & -> & _).
    apply Forall_app. split; [apply Hne|]. destruct (decide (j = i)); [|constructor].
    apply Forall_singleton. intros Hd%(f_equal length). rewrite length_drop in Hd. simpl in Hd. lia.
  - destruct (deliver_trace _ _ _ _ _ _ _ j Ed) as (_ & _ & _ & ->).
    by rewrite Nat.add_0_r, Hcl, length_insert.
Qed.

Lemma close_begin_tinv b b' : tinv b -> close_begin b = Done b' -> tinv b'.
Proof.
  intros Ht Hr. unfold close_begin in Hr.
  destruct (b_phase b) eqn:Eph; simplify_eq/=; try done;
    destruct Ht as (Hpub & Hdel & Hne & Hcl); split_and!; simpl; try done;
    intros i; rewrite Hcl, Eph; repeat case_decide; naive_solver.
Qed.

Lemma finish_tinv b b' : tinv b -> finish b = Done b' -> tinv b'.
Proof.
  intros (Hpub & Hdel & Hne & Hcl) Hr. unfold finish in Hr.
  destruct (b_phase b) eqn:Eph; try discriminate.
  destruct (caught_up b) eqn:Hcu; [|discriminate].
  pose proof (close_all_length (fmap fst (b_consumers b)) 0) as Hlen.
  pose proof (close_all_trace (fmap fst (b_consumers b)) 0) as Htr.
  destruct (close_all 0 _) as [cs' evs]; simplify_eq/=.
  rewrite length_fmap in Hlen, Htr.
  split_and!; try intros j; simpl; autorewrite with tracerw.
  - destruct (Htr 0%nat) as (-> & _). by rewrite app_nil_r.
  - destruct (Htr j) as (_ & -> & _). rewrite app_nil_r, Hdel.
    destruct (zip cs' _ !! j) as [[c p]|] eqn:Ej.
    + apply zip_close_lookup in Ej as [[c0 ->] _]; done.
    + rewrite lookup_zip_with, list_lookup_fmap in Ej.
      destruct (cs' !! j) eqn:E1, (b_consumers b !! j) as [[c1 p1]|] eqn:E2; simplify_eq/=; try done.
      apply lookup_lt_Some in E2. apply lookup_ge_None in E1. lia.
  - destruct (Htr j) as (_ & _ & -> & _). by rewrite app_nil_r.
  - destruct (Htr j) as (_ & _ & _ & ->). rewrite Hcl, ?Eph.
    rewrite length_zip_with, length_fmap, Hlen, Nat.min_id.
    repeat case_decide; naive_solver lia.
Qed.

Lemma step_tinv b b' : step b b' -> inv b -> tinv b -> tinv b'.
Proof.
  intros [? a ? Hex] Hb Ht. destruct a; simpl in Hex;
    eauto using register_tinv, produce_tinv, work_tinv, close_begin_tinv, finish_tinv.
Qed.

Lemma reachable_tinv b : reachable b -> tinv b.
Proof.
  apply reachable_ind; [|eauto using step_tinv].
  intros size h Hs. split_and!; simpl; try done.
Qed.

(** The closing protocol: a [close()] event only once the bus is CLOSED,
    and no [consume] after any [close()]. *)
Definition cinv b : Prop :=
  (existsb is_close (b_trace b) = true -> b_phase b = CLOSED) /\
  deliver_after_close (b_trace b) = false.

Lemma deliver_events h i c (batch : list A) c' evs lines :
  deliver h i c batch = Some (c', evs, lines) ->
  existsb is_close evs = false /\ deliver_after_close evs = false.
Proof. unfold deliver. destruct (consume batch c) as [? []]; intros; by simplify_eq/=. Qed.

Lemma close_all_events (cs : list C) n :
  existsb is_deliver (close_all (A:=A) n cs).2 = false /\
  deliver_after_close (close_all (A:=A) n cs).2 = false.
Proof.
  revert n. induction cs as [|c cs IH]; intros n; [done|]. simpl.
  destruct (close c) as [c' r]. specialize (IH (S n)).
  destruct (close_all (S n) cs) as [cs'' evs]. simpl in *. by destruct IH as [-> ->].
Qed.

Lemma step_cinv b b' : step b b' -> inv b -> cinv b -> cinv b'.
Proof.
  intros [b0 a b1 Hex]. clear b b'. rename b0 into b, b1 into b'.
  intros (Hs & Hp & Hn & Hc) [Hcl Hdac].
  destruct (existsb is_close (b_trace b)) eqn:Ehc.
  { (* once closed, nothing changes the trace *)
    specialize (Hcl eq_refl). destruct a; simpl in Hex;
      unfold register, produce, work, close_begin, finish in Hex; rewrite ?Hcl in Hex;
      try discriminate; try (simplify_eq; by split).
    destruct (b_consumers b !! i) as [[c p]|] eqn:Ei; [|discriminate].
    specialize (Hc Hcl _ _ _ Ei). case_decide; [lia | discriminate]. }
  destruct a; simpl in Hex.
  - unfold register in Hex. destruct (b_phase b); simplify_eq/=.
    split; simpl; by rewrite ?Ehc.
  - unfold produce in Hex. destruct (b_phase b); try discriminate;
      (destruct (decide (items = [])); [discriminate|]); (case_decide; [|discriminate]);
      simplify_eq/=; split; simpl; rewrite ?existsb_app, ?deliver_after_close_app, Ehc, ?Hdac;
      done.
  - unfold work in Hex. destruct (b_consumers b !! i) as [[c p]|]; [|discriminate].
    case_decide; [|discriminate].
    destruct (deliver _ _ _ _) as [[[c' evs] lines]|] eqn:Ed; simplify_eq/=.
    destruct (deliver_events _ _ _ _ _ _ _ Ed) as [He1 He2].
    split; simpl; rewrite ?existsb_app, ?deliver_after_close_app, Ehc, ?Hdac, ?He1, ?He2;
      done.
  - unfold close_begin in Hex.
    destruct (b_phase b); simplify_eq/=; split; simpl; by rewrite ?Ehc.
  - unfold finish in Hex. destruct (b_phase b); try discriminate.
    destruct (caught_up b); [|discriminate].
    pose proof (close_all_events (b_consumers b).*1 0) as [He1 He2].
    destruct (close_all 0 _) as [cs' evs]; simplify_eq/=.
    split; simpl; [done|]. by rewrite deliver_after_close_app, Ehc, Hdac, He2.
Qed.

Lemma reachable_cinv b : reachable b -> cinv b.
Proof. apply reachable_ind; [by split | intros; eauto using step_cinv]. Qed.
End deliveries.
End Broadcast.
