(* ===== verification/Dispatcher.v ===== *)
(** * The dispatcher: the [Disruptor] of the [disruptor] package

    The lifecycle owner of the bus (specification 4.2 to 4.5), modelled
    from the specification because the package is imported, not part of
    the repository.  Its state is the ring buffer, the producer cursor, one
    cursor per registered consumer, the lifecycle phase, the configured
    [consumer_error_handler], and the observable trace and log.  Cursors
    start at [-1]; a [produce] claims the sequences after the producer
    cursor, subject to the barrier of [RingBuffer.v], writes the items into
    their slots and publishes them by advancing the cursor; a worker
    iteration reads every slot between its consumer's cursor and the
    producer cursor and hands them to [consume] in one batch.

    The section at the end proves that the dispatcher refines the abstract
    broadcast queue of [Broadcast.v]: the ring reproduces the publication
    history for every sequence a consumer may still read. *)

From S2P Require Import Prelude RingBuffer Consumer Broadcast.

Module Dispatcher.
Section disp.
Context {A C : Type} `{!Consumer A C}.

Record disruptor : Type := mk_disruptor {
  d_name : string;
  d_ring : RingBuffer.ring A;
  d_cursor : Z;                       (** the producer cursor *)
  d_consumers : list (C * Z);         (** each consumer and its cursor *)
  d_phase : phase;
  d_handler : option (handler A C);
  d_trace : list (event A);
  d_log : list string
  }.

(** [Disruptor(name, size, consumer_error_handler)] *)
Definition create (name : string) (size : Z) (h : option (handler A C)) : outcome disruptor :=
  if decide (0 < size)%Z then
    Done {| d_name := name; d_ring := RingBuffer.create size; d_cursor := -1;
            d_consumers := []; d_phase := NEW; d_handler := h; d_trace := []; d_log := [] |}
  else Misuse NonPositiveSize.

Definition gating (d : disruptor) : Z :=
  Barrier.gating (d_cursor d) (fmap snd (d_consumers d)).

(** [register_consumer(consumer)]: a new cursor at [-1]. *)
Definition register (d : disruptor) (c : C) : outcome disruptor :=
  match d_phase d with
  | NEW => Done {| d_name := d_name d; d_ring := d_ring d; d_cursor := d_cursor d;
                   d_consumers := d_consumers d ++ [(c, (-1)%Z)]; d_phase := NEW;
                   d_handler := d_handler d; d_trace := d_trace d; d_log := d_log d |}
  | _ => Misuse LateRegistration
  end.

(** [produce(items)]: claim [lo .. hi], wait while the barrier refuses
    the claim, write the slots, publish by moving the cursor to [hi]. *)
Definition produce (d : disruptor) (items : list A) : outcome disruptor :=
  match d_phase d with
  | DRAINING | CLOSED => Misuse ProduceAfterClose
  | _ =>
      if decide (items = []) then Misuse EmptyProduce
      else
        let lo := (d_cursor d + 1)%Z in
        let hi := (d_cursor d + Z.of_nat (length items))%Z in
        if Barrier.can_claim (RingBuffer.size (d_ring d)) (gating d) hi then
          Done {| d_name := d_name d; d_ring := RingBuffer.write_from (d_ring d) lo items;
                  d_cursor := hi; d_consumers := d_consumers d; d_phase := RUNNING;
                  d_handler := d_handler d; d_trace := d_trace d ++ [EvPublish lo items];
                  d_log := d_log d |}
        else Wait
  end.

(** One iteration of consumer [i]'s worker: if the producer cursor is
    ahead of its cursor, read the whole backlog as one batch, deliver it,
    and advance the consumer cursor to the producer cursor (also after a
    failure: the failing batch is skipped). *)
Definition work (d : disruptor) (i : nat) : outcome disruptor :=
  match d_consumers d !! i with
  | None => Misuse NoSuchConsumer
  | Some (c, ci) =>
      if decide (ci < d_cursor d)%Z then
        match RingBuffer.read_range (d_ring d) (ci + 1) (d_cursor d) with
        | Some batch =>
            match deliver (d_handler d) i c batch with
            | Some (c', evs, lines) =>
                Done {| d_name := d_name d; d_ring := d_ring d; d_cursor := d_cursor d;
                        d_consumers := <[i := (c', d_cursor d)]> (d_consumers d);
                        d_phase := d_phase d; d_handler := d_handler d;
                        d_trace := d_trace d ++ evs; d_log := d_log d ++ lines |}
            | None => Wait
            end
        | None => Wait
        end
      else Wait
  end.

Definition with_phase (d : disruptor) (ph : phase) : disruptor :=
  {| d_name := d_name d; d_ring := d_ring d; d_cursor := d_cursor d;
     d_consumers := d_consumers d; d_phase := ph; d_handler := d_handler d;
     d_trace := d_trace d; d_log := d_log d |}.

(** [close()], first half: stop accepting publications. *)
Definition close_begin (d : disruptor) : outcome disruptor :=
  match d_phase d with
  | NEW | RUNNING => Done (with_phase d DRAINING)
  | DRAINING | CLOSED => Done d
  end.

Definition caught_up (d : disruptor) : bool :=
  forallb (fun ci => bool_decide (ci = d_cursor d)) (fmap snd (d_consumers d)).

(** [close()], second half: once every consumer has drained, call each
    consumer's [close()] and enter CLOSED. *)
Definition finish (d : disruptor) : outcome disruptor :=
  match d_phase d with
  | DRAINING =>
      if caught_up d then
        let '(cs', evs) := close_all 0 (fmap fst (d_consumers d)) in
        Done {| d_name := d_name d; d_ring := d_ring d; d_cursor := d_cursor d;
                d_consumers := zip cs' (fmap snd (d_consumers d)); d_phase := CLOSED;
                d_handler := d_handler d; d_trace := d_trace d ++ evs; d_log := d_log d |}
      else Wait
  | _ => Wait
  end.

Definition exec (d : disruptor) (a : action A C) : outcome disruptor :=
  match a with
  | Register c => register d c
  | Produce items => produce d items
  | Work i => work d i
  | Close => close_begin d
  | Finish => finish d
  end.

Inductive step : disruptor -> disruptor -> Prop :=
  | step_exec d a d' : exec d a = Done d' -> step d d'.

Definition reachable (d : disruptor) : Prop :=
  exists name size h d0, create name size h = Done d0 /\ rtc step d0 d.

(** Run a schedule of actions, skipping those that wait or are refused. *)
Fixpoint run (d : disruptor) (sched : list (action A C)) : disruptor :=
  match sched with
  | [] => d
  | a :: sched' =>
      match exec d a with
      | Done d' => run d' sched'
      | _ => run d sched'
      end
  end.

(** The schedule that runs every consumer's worker once, in order. *)
Definition drain (d : disruptor) : disruptor :=
  run d (Work <$> seq 0 (length (d_consumers d))).
End disp.
Arguments disruptor : clear implicits.

(** ** Refinement of the broadcast queue *)

(** Relating two outcomes: both done in related states, both waiting, or
    both refused for the same reason. *)
Definition outcome_rel {X Y} (R : X -> Y -> Prop) (o1 : outcome X) (o2 : outcome Y) : Prop :=
  match o1, o2 with
  | Done x, Done y => R x y
  | Wait, Wait => True
  | Misuse m1, Misuse m2 => m1 = m2
  | _, _ => False
  end.

Section refinement.
Context {A C : Type} `{!Consumer A C}.
Implicit Types (d : disruptor A C) (b : Broadcast.bus A C).

(** A consumer that was handed [p] items has the cursor [p - 1]. *)
Definition cursor_of (cp : C * nat) : C * Z := (cp.1, (Z.of_nat cp.2 - 1)%Z).

(** The abstraction: same lifecycle, handler, trace and log; the cursors
    are the abstract positions minus one; and the ring holds the
    published item of every sequence from the slowest consumer's next
    read up to the producer cursor. *)
Definition refines d b : Prop :=
  d_phase d = Broadcast.b_phase b /\ d_handler d = Broadcast.b_handler b /\
  d_trace d = Broadcast.b_trace b /\ d_log d = Broadcast.b_log b /\
  RingBuffer.wf (d_ring d) /\ RingBuffer.size (d_ring d) = Broadcast.b_size b /\
  d_cursor d = (Z.of_nat (length (Broadcast.b_hist b)) - 1)%Z /\
  d_consumers d = cursor_of <$> Broadcast.b_consumers b /\
  RingBuffer.holds (d_ring d) (Broadcast.b_hist b)
    (Z.of_nat (Broadcast.low_water b)) (d_cursor d).

Lemma holds_mono (r : RingBuffer.ring A) hist (lo lo' hi hi' : Z) :
  RingBuffer.holds r hist lo hi -> (lo <= lo')%Z -> (hi' <= hi)%Z ->
  RingBuffer.holds r hist lo' hi'.
Proof. intros Hh ? ? s ?. apply Hh. lia. Qed.

Lemma foldr_min_ge (k n : nat) (ps : list nat) :
  (k <= foldr Nat.min n ps)%nat <-> (k <= n)%nat /\ Forall (fun p => k <= p)%nat ps.
Proof.
  induction ps as [|p ps IH]; simpl; [split; [by intros; split | by intros []]|].
  rewrite Forall_cons_iff. split.
  - intros Hk. assert (k <= foldr Nat.min n ps)%nat as Hr by lia.
    apply IH in Hr as [? ?]. split; [done | split; [lia | done]].
  - intros (Hn & Hp & Hps). assert (k <= foldr Nat.min n ps)%nat by by apply IH. lia.
Qed.

Lemma foldr_min_le_init (n : nat) (ps : list nat) : (foldr Nat.min n ps <= n)%nat.
Proof. induction ps; simpl; lia. Qed.

Lemma foldr_min_mono_init (n m : nat) (ps : list nat) :
  (n <= m)%nat -> (foldr Nat.min n ps <= foldr Nat.min m ps)%nat.
Proof. induction ps; simpl; lia. Qed.

(** The slowest position only moves forward when every consumer's
    position and the history length do. *)
Lemma low_water_mono b b' :
  (length (Broadcast.b_hist b) <= length (Broadcast.b_hist b'))%nat ->
  (forall i c' p', Broadcast.b_consumers b' !! i = Some (c', p') ->
     exists c p, Broadcast.b_consumers b !! i = Some (c, p) /\ (p <= p')%nat) ->
  (Broadcast.low_water b <= Broadcast.low_water b')%nat.
Proof.
  intros Hlen Hcs. unfold Broadcast.low_water at 2. apply foldr_min_ge. split.
  - unfold Broadcast.low_water. etrans; [|exact Hlen]. apply foldr_min_le_init.
  - apply Forall_forall. intros p' Hp'.
    apply list_elem_of_In, list_elem_of_lookup in Hp' as [i Hi].
    rewrite list_lookup_fmap in Hi.
    destruct (Broadcast.b_consumers b' !! i) as [[c' q]|] eqn:Ei; simplify_eq/=.
    destruct (Hcs _ _ _ Ei) as (c & p & Hi' & Hle).
    pose proof (Broadcast.low_water_le _ _ _ _ Hi'). lia.
Qed.

(** The gating sequence is the slowest abstract position minus one. *)
Lemma gating_refines d b :
  d_cursor d = (Z.of_nat (length (Broadcast.b_hist b)) - 1)%Z ->
  d_consumers d = cursor_of <$> Broadcast.b_consumers b ->
  gating d = (Z.of_nat (Broadcast.low_water b) - 1)%Z.
Proof.
  intros Hc Hcs. unfold gating, Barrier.gating, Broadcast.low_water. rewrite Hc, Hcs.
  clear Hc Hcs. generalize (length (Broadcast.b_hist b)).
  induction (Broadcast.b_consumers b) as [|[c p] cs IH]; intros n; csimpl; [done|].
  rewrite IH, Nat2Z.inj_min. lia.
Qed.

(** Publishing [xs] at the producer cursor keeps every sequence from
    [lw] on, when the new end stays within one capacity of [lw]. *)
Lemma holds_publish (r : RingBuffer.ring A) hist xs (lw : nat) :
  RingBuffer.wf r -> (lw <= length hist)%nat ->
  (Z.of_nat (length hist + length xs) - Z.of_nat lw <= RingBuffer.size r)%Z ->
  RingBuffer.holds r hist (Z.of_nat lw) (Z.of_nat (length hist) - 1) ->
  RingBuffer.holds (RingBuffer.write_from r (Z.of_nat (length hist) - 1 + 1) xs) (hist ++ xs)
    (Z.of_nat lw) (Z.of_nat (length hist) - 1 + Z.of_nat (length xs)).
Proof.
  intros Hr Hlw Hroom Hh.
  replace (Z.of_nat lw) with (Z.of_nat lw - 1 + 1)%Z by lia.
  apply holds_write_from; try done; try lia.
  by replace (Z.of_nat lw - 1 + 1)%Z with (Z.of_nat lw) by lia.
Qed.

(** A consumer at position [p] reads its whole backlog from the ring. *)
Lemma read_backlog (r : RingBuffer.ring A) hist (lw p : nat) :
  RingBuffer.holds r hist (Z.of_nat lw) (Z.of_nat (length hist) - 1) ->
  (lw <= p)%nat -> (p <= length hist)%nat ->
  RingBuffer.read_range r (Z.of_nat p - 1 + 1) (Z.of_nat (length hist) - 1) = Some (drop p hist).
Proof.
  intros Hh Hlw Hp.
  rewrite (read_range_holds r hist (Z.of_nat lw - 1) (Z.of_nat (length hist) - 1)); try lia.
  - unfold RingBuffer.hist_slice. f_equal.
    replace (Z.to_nat (Z.of_nat p - 1 + 1)) with p by lia.
    apply take_ge. rewrite length_drop. lia.
  - by replace (Z.of_nat lw - 1 + 1)%Z with (Z.of_nat lw) by lia.
Qed.

Lemma caught_up_refines d b :
  d_cursor d = (Z.of_nat (length (Broadcast.b_hist b)) - 1)%Z ->
  d_consumers d = cursor_of <$> Broadcast.b_consumers b ->
  caught_up d = Broadcast.caught_up b.
Proof.
  intros Hc Hcs. unfold caught_up, Broadcast.caught_up. rewrite Hc, Hcs. clear Hc Hcs.
  induction (Broadcast.b_consumers b) as [|[c p] cs IH]; csimpl; [done|].
  rewrite IH. f_equal. case_bool_decide; destruct (Nat.eqb_spec p (length (Broadcast.b_hist b))); lia.
Qed.

Lemma fmap_fst_cursor_of (cs : list (C * nat)) : (cursor_of <$> cs).*1 = cs.*1.
Proof. induction cs; csimpl; by f_equal. Qed.

Lemma zip_cursor_of (cs' : list C) (cs : list (C * nat)) :
  zip cs' (cursor_of <$> cs).*2 = cursor_of <$> zip cs' cs.*2.
Proof. revert cs. induction cs' as [|c' cs' IH]; intros [|[c p] cs]; csimpl; by rewrite ?IH. Qed.

Ltac refines_destruct :=
  intros (Hph & Hh & Htr & Hlog & Hwf & Hsz & Hcur & Hcs & Hold) (Hpos & Hp & Hn & Hc).

Lemma register_refines d b c :
  refines d b -> Broadcast.inv b -> outcome_rel refines (register d c) (Broadcast.register b c).
Proof.
  refines_destruct. unfold register, Broadcast.register. rewrite Hph.
  destruct (Broadcast.b_phase b) eqn:E; simpl; try done.
  specialize (Hn eq_refl). split_and!; simpl; try done.
  - by rewrite Hcs, fmap_app.
  - intros s Hs. rewrite Hcur, Hn in Hs. simpl in Hs. lia.
Qed.

Lemma produce_refines d b items :
  refines d b -> Broadcast.inv b -> outcome_rel refines (produce d items) (Broadcast.produce b items).
Proof.
  refines_destruct. unfold produce, Broadcast.produce. rewrite Hph.
  pose proof (foldr_min_le_init (length (Broadcast.b_hist b)) (Broadcast.b_consumers b).*2).
  destruct (Broadcast.b_phase b) eqn:E; simpl; try done;
    (destruct (decide (items = [])); simpl; [done|]);
    rewrite (gating_refines d b Hcur Hcs); unfold Barrier.can_claim; rewrite Hsz, Hcur;
    unfold Broadcast.low_water in *;
    (case_bool_decide as Hg; case_decide as Hr; simpl; try done; try lia);
    (split_and!; simpl; try done;
     [ rewrite Htr; do 3 f_equal; lia
     | by apply write_from_wf
     | by rewrite write_from_size
     | rewrite length_app; lia
     | eapply holds_mono;
       [ apply holds_publish; [done | done | rewrite Hsz; lia | by rewrite <-Hcur]
       | unfold Broadcast.low_water; simpl;
         apply Nat2Z.inj_le, foldr_min_mono_init; rewrite length_app; lia
       | rewrite ?length_app; lia ] ]).
Qed.

Lemma work_refines d b i :
  refines d b -> Broadcast.inv b -> outcome_rel refines (work d i) (Broadcast.work b i).
Proof.
  refines_destruct. unfold work, Broadcast.work. rewrite Hcs, list_lookup_fmap.
  destruct (Broadcast.b_consumers b !! i) as [[c p]|] eqn:Ei; simpl; [|done].
  destruct (Hp _ _ _ Ei) as [Hple Hroom].
  pose proof (Broadcast.low_water_le _ _ _ _ Ei) as Hlw.
  rewrite Hcur. case_decide as H1; case_decide as H2; try lia; simpl; [|done].
  rewrite (read_backlog _ _ (Broadcast.low_water b)) by (try rewrite <-Hcur; done).
  rewrite Hh. destruct (deliver _ _ _ _) as [[[c' evs] lines]|]; simpl; [|done].
  split_and!; simpl; try done.
  - by rewrite Htr.
  - by rewrite Hlog.
  - by rewrite list_fmap_insert.
  - eapply holds_mono; [exact Hold | | lia].
    apply Nat2Z.inj_le, low_water_mono; [done|]. simpl.
    intros j c'' p' Hj. rewrite list_lookup_insert in Hj.
    case_decide as Hij; simplify_eq/=.
    + destruct Hij as [<- _]. eauto.
    + eexists _, _. split; [done | lia].
Qed.

Lemma close_begin_refines d b :
  refines d b -> outcome_rel refines (close_begin d) (Broadcast.close_begin b).
Proof.
  intros Hr. pose proof Hr as (Hph & Hh & Htr & Hlog & Hwf & Hsz & Hcur & Hcs & Hold).
  unfold close_begin, Broadcast.close_begin. rewrite Hph.
  destruct (Broadcast.b_phase b); simpl; try done; split_and!; simpl; done.
Qed.

Lemma finish_refines d b :
  refines d b -> Broadcast.inv b -> outcome_rel refines (finish d) (Broadcast.finish b).
Proof.
  refines_destruct. unfold finish, Broadcast.finish. rewrite Hph.
  destruct (Broadcast.b_phase b); simpl; try done.
  rewrite (caught_up_refines d b Hcur Hcs).
  destruct (Broadcast.caught_up b) eqn:Hcu; simpl; [|done].
  rewrite Hcs, fmap_fst_cursor_of.
  pose proof (Broadcast.close_all_length (A:=A) (Broadcast.b_consumers b).*1 0) as Hlen.
  destruct (close_all 0 _) as [cs' evs]; simpl in *.
  rewrite length_fmap in Hlen.
  split_and!; simpl; try done.
  - by rewrite Htr.
  - apply zip_cursor_of.
  - eapply holds_mono; [exact Hold | | lia].
    apply Nat2Z.inj_le, low_water_mono; [done|]. simpl.
    intros j c'' p' Hj. apply Broadcast.zip_close_lookup in Hj as [[c0 Hj] _]; [|done].
    eauto.
Qed.

Lemma exec_refines d b a :
  refines d b -> Broadcast.inv b -> outcome_rel refines (exec d a) (Broadcast.exec b a).
Proof.
  intros Hr Hb. destruct a; simpl;
    eauto using register_refines, produce_refines, work_refines, close_begin_refines,
      finish_refines.
Qed.

Lemma create_refines name size h d0 :
  create name size h = Done d0 -> (0 < size)%Z /\ refines d0 (Broadcast.init size h).
Proof.
  unfold create. case_decide; intros E; simplify_eq/=.
  split; [done|]. split_and!; simpl; try done.
  - by apply RingBuffer.create_wf.
  - intros s Hs. lia.
Qed.

(** Every state the ring-buffer dispatcher reaches is related, by
    [refines], to a state the abstract broadcast queue reaches: same
    consumers' states, trace and log, cursors equal to the abstract
    positions minus one, and a ring whose slots hold the published item
    of every sequence a consumer may still read. *)
Theorem refinement d : reachable d -> exists b, Broadcast.reachable b /\ refines d b.
Proof.
  intros (name & size & h & d0 & Hc & Hrtc).
  destruct (create_refines _ _ _ _ Hc) as [Hs Hr0].
  assert (Broadcast.reachable (Broadcast.init (A:=A) (C:=C) size h)) as Hb0
    by (exists size, h; split; [done | apply rtc_refl]).
  clear Hc. revert Hb0 Hr0. generalize (Broadcast.init (A:=A) (C:=C) size h) as b0.
  induction Hrtc as [d|d1 d2 d3 [? a ? Hex] Hrest IH]; intros b1 Hb1 Hr1; [eauto|].
  pose proof (exec_refines _ b1 a Hr1 (Broadcast.reachable_inv _ Hb1)) as Ho.
  rewrite Hex in Ho. destruct (Broadcast.exec b1 a) as [b2| |] eqn:Eb; try done.
  apply (IH b2); [|done].
  destruct Hb1 as (sz & h' & Hsz & Hrtc1). exists sz, h'. split; [done|].
  eapply rtc_r; [exact Hrtc1 | by econstructor].
Qed.
End refinement.
End Dispatcher.
