(* ===== verification/PyFormat.v ===== *)
(** * Python string formatting used by the consumers

    The f-string conversions of src/batch_json_example.py and
    src/fault_tolerant_example.py that name files: [f"{n:04d}"] (an int
    zero-padded to width 4, the sign counting in the width, as Python's
    format mini-language does), [str(n)] for an int, and
    [name.replace(" ", "_").lower()] for a consumer's directory.  Decimal
    digits are stdpp's [pretty]; [parse_int] reads them back, and the round
    trip gives injectivity of the file names. *)

From S2P Require Import Prelude.
From stdpp Require Import pretty.
From Stdlib Require Import Ascii QArith.

Local Open Scope string_scope.

(** [s.zfill]-style padding: ["0"]s on the left up to width [w]. *)
Definition zero_pad (w : nat) (s : string) : string :=
  String.string_of_list_ascii (replicate (w - String.length s) "0"%char) ++ s.

(** [format(n, "0" + str(w) + "d")]: a minus sign, then the magnitude padded
    to [w - 1]; a non-negative [n] padded to [w]. *)
Definition format_0d (w : nat) (n : Z) : string :=
  if decide (n < 0)%Z then "-" ++ zero_pad (w - 1) (pretty (Z.to_N (- n)))
  else zero_pad w (pretty (Z.to_N n)).

(** [str(n)] for an int: no padding. *)
Definition py_str_int (n : Z) : string := format_0d 0 n.

(** [f"batch_{file_counter:04d}.parquet"] (batch_json_example.py line 113,
    fault_tolerant_example.py line 212). *)
Definition batch_filename (file_counter : Z) : string :=
  "batch_" ++ format_0d 4 file_counter ++ ".parquet".

(** [repr] of a Python list of ints: ["[0, 1, 2]"]; an int's [repr] is its
    [str]. *)
Definition py_repr_int_list (l : list Z) : string :=
  "[" ++ String.concat ", " (py_str_int <$> l) ++ "]".

(** Round half to even of [num / den] ([den > 0]): Python's [round] and
    the [f] presentation type of [format] round a value lying exactly
    halfway between two results to the even one. *)
Definition round_half_even (num den : Z) : Z :=
  let f := (num / den)%Z in
  let r := (num mod den)%Z in
  if decide (2 * r < den)%Z then f
  else if decide (den < 2 * r)%Z then (f + 1)%Z
  else if Z.even f then f else (f + 1)%Z.

(** [f"{x:.{p}f}"] for the float [x], given exactly as a rational: a minus
    sign when [x] is negative (also when every printed digit is zero:
    Python prints [-0.00]), the integer part, and [p] decimals rounded half
    to even. *)
Definition format_fixed (p : nat) (x : Q) : string :=
  let scale := (10 ^ Z.of_nat p)%Z in
  let m := round_half_even (Z.abs (Qnum x) * scale) (Zpos (Qden x)) in
  (if decide (Qnum x < 0)%Z then "-" else EmptyString) ++
  pretty (Z.to_N (m / scale)) ++
  (if p is O then EmptyString else "." ++ zero_pad p (pretty (Z.to_N (m mod scale)))).

(** ** Reading decimals back *)

Definition digit_value (c : ascii) : N := (N_of_ascii c - 48)%N.

Fixpoint parse_dec_go (s : string) (acc : N) : N :=
  match s with
  | EmptyString => acc
  | String c s' => parse_dec_go s' (acc * 10 + digit_value c)%N
  end.

Definition parse_int (s : string) : Z :=
  match s with
  | String "-" s' => (- Z.of_N (parse_dec_go s' 0))%Z
  | _ => Z.of_N (parse_dec_go s 0)
  end.

(** ** [str.replace] and [str.lower] on ASCII names *)

Fixpoint py_replace_char (old new : ascii) (s : string) : string :=
  match s with
  | EmptyString => EmptyString
  | String c s' => String (if decide (c = old) then new else c) (py_replace_char old new s')
  end.

Definition ascii_lower (c : ascii) : ascii :=
  let n := N_of_ascii c in
  if decide (65 <= n <= 90)%N then ascii_of_N (n + 32) else c.

Fixpoint py_lower (s : string) : string :=
  match s with
  | EmptyString => EmptyString
  | String c s' => String (ascii_lower c) (py_lower s')
  end.

(** [self.name.replace(" ", "_").lower()] (batch_json_example.py line 82,
    fault_tolerant_example.py line 108). *)
Definition consumer_dir_name (name : string) : string :=
  py_lower (py_replace_char " " "_" name).

(** When two characters of a name end up the same in its directory name:
    equal characters, a space and an underscore in any combination, or an
    upper-case letter and its lower-case form. *)
Definition same_dir_char (c d : ascii) : Prop :=
  c = d \/
  (c ∈ [" "; "_"]%char /\ d ∈ [" "; "_"]%char) \/
  ((65 <= N_of_ascii c <= 90)%N /\ N_of_ascii d = (N_of_ascii c + 32)%N) \/
  ((65 <= N_of_ascii d <= 90)%N /\ N_of_ascii c = (N_of_ascii d + 32)%N).

#[local] Instance same_dir_char_dec c d : Decision (same_dir_char c d).
Proof. unfold same_dir_char. apply _. Defined.

(** Every character, for checking a property of characters exhaustively. *)
Definition all_ascii : list ascii := ascii_of_nat <$> seq 0 256.

(** ** Lemmas *)

Lemma digit_value_pretty_char (d : N) : (d < 10)%N -> digit_value (pretty_N_char d) = d.
Proof.
  intros Hd. assert (d = 0 \/ d = 1 \/ d = 2 \/ d = 3 \/ d = 4 \/ d = 5 \/ d = 6 \/ d = 7 \/
    d = 8 \/ d = 9)%N as Hc by lia.
  repeat destruct Hc as [->|Hc]; try reflexivity. subst. reflexivity.
Qed.

Lemma parse_dec_go_pretty (x : N) (s : string) (acc : N) :
  exists k, parse_dec_go (pretty_N_go x s) acc = parse_dec_go s (acc * 10 ^ k + x)%N.
Proof.
  revert s acc. induction (N.lt_wf_0 x) as [x _ IH]; intros s acc.
  destruct (decide (x = 0)%N) as [->|Hx].
  { exists 0%N. rewrite pretty_N_go_0. f_equal. lia. }
  rewrite pretty_N_go_step by lia.
  destruct (IH (x `div` 10)%N ltac:(apply N.div_lt; lia)
              (String (pretty_N_char (x `mod` 10)) s) acc) as [k ->].
  exists (k + 1)%N. simpl. rewrite digit_value_pretty_char by (apply N.mod_lt; lia).
  f_equal. rewrite N.pow_add_r. pose proof (N.div_mod x 10). lia.
Qed.

Lemma parse_pretty (x : N) : parse_dec_go (pretty x) 0 = x.
Proof.
  unfold pretty, pretty_N. case_decide as Hx; [by subst|].
  destruct (parse_dec_go_pretty x "" 0) as [k ->]. simpl. lia.
Qed.

Lemma parse_dec_go_zeros (k : nat) (s : string) :
  parse_dec_go (String.string_of_list_ascii (replicate k "0"%char) ++ s) 0 = parse_dec_go s 0.
Proof. induction k; [done|]. exact IHk. Qed.

Lemma parse_zero_pad (w : nat) (x : N) : parse_dec_go (zero_pad w (pretty x)) 0 = x.
Proof. unfold zero_pad. by rewrite parse_dec_go_zeros, parse_pretty. Qed.

Lemma zero_pad_head (w : nat) (x : N) : exists c s, zero_pad w (pretty x) = String c s /\ c <> "-"%char.
Proof.
  unfold zero_pad. destruct (w - String.length (pretty x))%nat as [|k].
  - simpl. unfold pretty, pretty_N. case_decide; [by eexists _, _|].
    destruct (pretty_N_go x "") as [|c s] eqn:E.
    + exfalso. destruct (parse_dec_go_pretty x "" 0) as [k Hk]. rewrite E in Hk. simpl in Hk. lia.
    + exists c, s. split; [done|]. intros ->.
      apply (pretty_N_go_ne_dash x "" s); [done|]. by rewrite E.
  - simpl. by eexists _, _.
Qed.

Lemma format_0d_roundtrip (w : nat) (n : Z) : parse_int (format_0d w n) = n.
Proof.
  unfold format_0d. case_decide as Hn.
  - unfold parse_int. change ("-" +:+ ?x) with (String "-" x). cbv iota beta.
    rewrite parse_zero_pad. lia.
  - destruct (zero_pad_head w (Z.to_N n)) as (c & s & Hcs & Hc).
    unfold parse_int. rewrite Hcs.
    assert (parse_dec_go (String c s) 0 = Z.to_N n) as Hp by (rewrite <-Hcs; apply parse_zero_pad).
    destruct c as [[] [] [] [] [] [] [] []]; cbn -[parse_dec_go]; first [by destruct Hc | rewrite Hp; lia].
Qed.

Lemma string_length_app (s t : string) :
  String.length (s ++ t) = (String.length s + String.length t)%nat.
Proof. induction s; simpl; auto. Qed.

Lemma string_app_inj_r (s1 s2 t : string) : s1 ++ t = s2 ++ t -> s1 = s2.
Proof.
  intros H. assert (String.length s1 = String.length s2) as Hlen.
  { apply (f_equal String.length) in H. rewrite !string_length_app in H. lia. }
  revert s2 H Hlen. induction s1 as [|c s1 IH]; intros [|c' s2] H Hlen; simpl in *; try done.
  injection H as -> H. f_equal. apply IH; [done | lia].
Qed.

Lemma string_app_assoc (s t u : string) : (s ++ t) ++ u = s ++ t ++ u.
Proof.
  induction s as [|c s IH]; [done|]. change (String c ((s ++ t) ++ u) = String c (s ++ t ++ u)).
  by rewrite IH.
Qed.

Lemma string_app_inj_l (s t1 t2 : string) : s ++ t1 = s ++ t2 -> t1 = t2.
Proof. induction s as [|c s IH]; simpl; [done|]. intros H. injection H. apply IH. Qed.

Lemma batch_filename_inj (n m : Z) : batch_filename n = batch_filename m -> n = m.
Proof.
  unfold batch_filename. intros H. simplify_eq. apply string_app_inj_r in H.
  rewrite <-(format_0d_roundtrip 4 n), <-(format_0d_roundtrip 4 m). by rewrite H.
Qed.

(** C16 (round trip of the parquet file names). The integer in
    [f"batch_{n:04d}.parquet"] reads back to [n], for every int [n]
    (negative ones included), so distinct counters never name the same
    file. *)
Theorem batch_filename_roundtrip (n m : Z) :
  parse_int (format_0d 4 n) = n /\ (batch_filename n = batch_filename m -> n = m).
Proof. split; [apply format_0d_roundtrip | apply batch_filename_inj]. Qed.

Lemma all_ascii_complete (c : ascii) : c ∈ all_ascii.
Proof.
  unfold all_ascii. apply list_elem_of_fmap. exists (nat_of_ascii c).
  rewrite ascii_nat_embedding. split; [done|].
  apply list_elem_of_In, in_seq. pose proof (nat_ascii_bounded c). lia.
Qed.

(** One character of [name.replace(" ", "_").lower()]. *)
Lemma consumer_dir_name_cons (c : ascii) (s : string) :
  consumer_dir_name (String c s) =
  String (ascii_lower (if decide (c = " "%char) then "_"%char else c)) (consumer_dir_name s).
Proof. reflexivity. Qed.

(** Checked on all 256 x 256 pairs of characters. *)
Lemma same_dir_char_spec (c d : ascii) :
  ascii_lower (if decide (c = " "%char) then "_"%char else c) =
  ascii_lower (if decide (d = " "%char) then "_"%char else d) <-> same_dir_char c d.
Proof.
  assert (Forall (fun c => Forall (fun d =>
            bool_decide (ascii_lower (if decide (c = " "%char) then "_"%char else c) =
                         ascii_lower (if decide (d = " "%char) then "_"%char else d)) =
            bool_decide (same_dir_char c d)) all_ascii) all_ascii) as Hall.
  { apply (bool_decide_unpack _). vm_compute. reflexivity. }
  rewrite Forall_forall in Hall. specialize (Hall c (all_ascii_complete c)).
  rewrite Forall_forall in Hall. specialize (Hall d (all_ascii_complete d)).
  split; intros H.
  - apply (bool_decide_eq_true_1 (same_dir_char c d)). rewrite <-Hall. by apply bool_decide_eq_true_2.
  - apply (bool_decide_eq_true_1 _). rewrite Hall. by apply bool_decide_eq_true_2.
Qed.


Lemma batch_filename_roundtrip_witness :
  parse_int (format_0d 4 7) = 7%Z /\ (batch_filename 7 = batch_filename 7 -> 7%Z = 7%Z).
Proof. exact (batch_filename_roundtrip 7 7). Defined.
