(* ===== verification/Json.v ===== *)
(** * [generate_complex_json()]: the random JSON objects the mains publish

    [generate_complex_json] (src/batch_json_example.py lines 13-64, and
    the identical copy at src/fault_tolerant_example.py lines 24-75) builds
    a nested dict from draws of Python's [random] module and one reading of
    [datetime.now()].  This file holds:

    - [json], the values such a dict holds (ints, floats rounded to two
      decimals, strings, booleans, lists, objects with their keys in
      insertion order), and [jty] with [typed], the shapes of values;
    - the [random] methods the function calls, as CPython writes them in
      Lib/random.py ([_randbelow], [randint], [choice], [random],
      [uniform], [sample]), over a generator state [gen_state] that counts
      the draws taken and the clock readings made;
    - [generate_complex_json] itself, its draws in Python's evaluation
      order (a dict display evaluates key, value, key, value, left to
      right; the [range(...)] of a comprehension is evaluated first);
    - its schema ([complex_json_ty]) and the bounds of its fields.

    The generator's output is a section variable [draw]: [draw k] is the
    [k]-th value the generator hands out.  CPython's [_randbelow(n)] draws
    [getrandbits(n.bit_length())] until the value is below [n]; the model
    takes one accepted value per call, reduced modulo [n], so every stream
    of draws is a possible one.  [random()] is a 53-bit integer over
    [2^53], exactly as CPython computes it; [uniform] and [round(x, 2)] are
    computed exactly on rationals (the rounding error of the float
    arithmetic, at most one unit in the last place, is not modelled). *)

From S2P Require Import Prelude PyFormat.
From stdpp Require Import list strings.
From Stdlib Require Import QArith.

Local Open Scope Z_scope.
Local Set Warnings "-register-all".

(** ** JSON values and their shapes *)

Inductive json : Type :=
  | JInt (z : Z)
  | JFloat (q : Q)
  | JStr (s : string)
  | JBool (b : bool)
  | JList (vs : list json)
  | JObj (fields : list (string * json)).

Inductive jty : Type :=
  | TInt
  | TFloat
  | TStr
  | TBool
  | TList (t : jty)
  | TObj (fields : list (string * jty)).

(** [typed t v]: [v] has the shape [t]; an object has exactly the keys of
    its type, in the same order, each with a value of its field's type. *)
Fixpoint typed (t : jty) (v : json) {struct v} : bool :=
  match t, v with
  | TInt, JInt _ | TFloat, JFloat _ | TStr, JStr _ | TBool, JBool _ => true
  | TList t', JList vs => forallb (typed t') vs
  | TObj fts, JObj fvs =>
      (fix go (fts : list (string * jty)) (fvs : list (string * json)) {struct fvs} : bool :=
         match fts, fvs with
         | [], [] => true
         | (k, t') :: fts', (k', v') :: fvs' =>
             bool_decide (k = k') && typed t' v' && go fts' fvs'
         | _, _ => false
         end) fts fvs
  | _, _ => false
  end.

(** [obj[key]] on an object: the first field with that key. *)
Fixpoint field_lookup (key : string) (fvs : list (string * json)) : option json :=
  match fvs with
  | [] => None
  | (k, v) :: fvs' => if decide (k = key) then Some v else field_lookup key fvs'
  end.

Definition jget (key : string) (v : json) : option json :=
  match v with
  | JObj fvs => field_lookup key fvs
  | _ => None
  end.

(** ** The generator state *)

Record gen_state := mk_gen {
  rnd_pos : nat;     (** draws taken from the generator *)
  clock_pos : nat    (** readings of the wall clock *)
}.

Definition gen_start : gen_state := mk_gen 0 0.

Section random.
Variable draw : nat -> Z.

Local Open Scope py_scope.

(** One value from the generator. *)
Definition next_draw : PyM gen_state Z :=
  fun s => (mk_gen (S (rnd_pos s)) (clock_pos s), Ok (draw (rnd_pos s))).

(** [_randbelow(n)]: an int in [0 .. n-1]. *)
Definition randbelow (n : Z) : PyM gen_state Z :=
  let* r := next_draw in py_ret (r mod n).

(** [randint(a, b)] is [randrange(a, b + 1)]: [a + _randbelow(width)]
    for a positive [width = b + 1 - a], a [ValueError] otherwise. *)
Definition randint (a b : Z) : PyM gen_state Z :=
  let width := b + 1 - a in
  if decide (0 < width) then let* r := randbelow width in py_ret (a + r)
  else py_raise (PyExc "ValueError"
         ("empty range in randrange(" ++ py_str_int a ++ ", " ++ py_str_int (b + 1) ++ ")")%string).

(** [choice(seq)] raises [IndexError] on an empty [seq] and is
    [seq[_randbelow(len(seq))]] otherwise (the index is in range, so the
    default [d] is never returned). *)
Definition choice {A} (d : A) (seq : list A) : PyM gen_state A :=
  if decide (py_len seq = 0) then
    py_raise (PyExc "IndexError" "Cannot choose from an empty sequence")
  else let* i := randbelow (py_len seq) in py_ret (default d (seq !! Z.to_nat i)).

(** [random()]: a 53-bit int [r] for the float [r / 2^53]. *)
Definition random53 : PyM gen_state Z :=
  let* r := next_draw in py_ret (r mod 2 ^ 53).

(** [round(uniform(a, b), 2)] with [a] and [b] given in hundredths:
    [uniform(a, b) = a + (b - a) * random()]; the result is the float
    [c / 100] for the returned [c]. *)
Definition uniform_round2 (a b : Z) : PyM gen_state Z :=
  let* r := random53 in py_ret (round_half_even (a * 2 ^ 53 + (b - a) * r) (2 ^ 53)).

(** The pool loop of [sample] (the branch CPython takes when [n] is at most
    [setsize = 21]):
    [for i in range(k): j = randbelow(n - i); result[i] = pool[j];
     pool[j] = pool[n - i - 1]]. *)
Fixpoint sample_loop {A} (d : A) (m : nat) (i n : Z) (pool result : list A)
    : PyM gen_state (list A) :=
  match m with
  | O => py_ret result
  | S m' =>
      let* j := randbelow (n - i) in
      let x := default d (pool !! Z.to_nat j) in
      let pool' := <[Z.to_nat j := default d (pool !! Z.to_nat (n - i - 1))]> pool in
      sample_loop d m' (i + 1) n pool' (result ++ [x])
  end.

(** [sample(population, k)]. *)
Definition sample {A} (d : A) (population : list A) (k : Z) : PyM gen_state (list A) :=
  let n := py_len population in
  if decide (0 <= k <= n) then sample_loop d (Z.to_nat k) 0 n population []
  else py_raise (PyExc "ValueError" "Sample larger than population or is negative").

(** [[m for _ in range(n)]]: [m] run [n] times, its results in order. *)
Fixpoint py_list_comp {A} (n : nat) (m : PyM gen_state A) : PyM gen_state (list A) :=
  match n with
  | O => py_ret []
  | S n' => let* x := m in let* xs := py_list_comp n' m in py_ret (x :: xs)
  end.

(** [datetime.now()], as microseconds since the epoch: the clock is a
    section variable, read once per call. *)
Variable now : nat -> Z.
(** [datetime.isoformat()] of a time in microseconds since the epoch. *)
Variable isoformat : Z -> string.

Definition datetime_now : PyM gen_state Z :=
  fun s => (mk_gen (rnd_pos s) (S (clock_pos s)), Ok (now (clock_pos s))).

(** [timedelta(days=d)] in microseconds. *)
Definition timedelta_days (d : Z) : Z := d * 86400 * 1000000.

Local Open Scope string_scope.

Definition user_names : list string :=
  ["Alice"; "Bob"; "Charlie"; "Diana"; "Eve"; "Frank"; "Grace"; "Henry"].
Definition themes : list string := ["dark"; "light"; "auto"].
Definition languages : list string := ["en"; "es"; "fr"; "de"; "ja"; "zh"].
Definition currencies : list string := ["USD"; "EUR"; "GBP"; "JPY"; "CNY"].
Definition statuses : list string := ["pending"; "completed"; "failed"; "refunded"].
Definition payment_methods : list string :=
  ["credit_card"; "debit_card"; "paypal"; "crypto"; "bank_transfer"].
Definition product_names : list string := ["Widget"; "Gadget"; "Tool"; "Device"; "Accessory"].
Definition user_agents : list string :=
  ["Mozilla/5.0 (Windows NT 10.0; Win64; x64)";
   "Mozilla/5.0 (Macintosh; Intel Mac OS X 10_15_7)";
   "Mozilla/5.0 (X11; Linux x86_64)";
   "Mozilla/5.0 (iPhone; CPU iPhone OS 14_6 like Mac OS X)"].
Definition referrers : list string :=
  ["google.com"; "facebook.com"; "twitter.com"; "direct"; "email"].
Definition device_types : list string := ["desktop"; "mobile"; "tablet"].
Definition tag_names : list string :=
  ["electronics"; "fashion"; "home"; "sports"; "books"; "toys"; "food"].

(** One element of ["items"]. *)
Definition gen_item : PyM gen_state json :=
  let* pid := randint 100 999 in
  let* name := choice EmptyString product_names in
  let* quantity := randint 1 10 in
  let* price := uniform_round2 500 50000 in
  py_ret (JObj [("product_id", JStr ("prod_" ++ py_str_int pid));
                ("name", JStr name);
                ("quantity", JInt quantity);
                ("price", JFloat (price # 100))]).

Definition generate_complex_json : PyM gen_state json :=
  let* id := randint 1000 9999 in
  let* t := datetime_now in
  let* days := randint 0 365 in
  let* user_id := randint 1 10000 in
  let* name := choice EmptyString user_names in
  let* email := randint 1 10000 in
  let* age := randint 18 80 in
  let* premium := choice false [true; false] in
  let* theme := choice EmptyString themes in
  let* language := choice EmptyString languages in
  let* notifications := choice false [true; false] in
  let* amount := uniform_round2 1000 500000 in
  let* currency := choice EmptyString currencies in
  let* status := choice EmptyString statuses in
  let* payment_method := choice EmptyString payment_methods in
  let* n_items := randint 1 5 in
  let* items := py_list_comp (Z.to_nat n_items) gen_item in
  let* ip1 := randint 1 255 in
  let* ip2 := randint 1 255 in
  let* ip3 := randint 1 255 in
  let* ip4 := randint 1 255 in
  let* user_agent := choice EmptyString user_agents in
  let* session := randint 100000 999999 in
  let* referrer := choice EmptyString referrers in
  let* device := choice EmptyString device_types in
  let* page_views := randint 1 100 in
  let* time_on_site := randint 10 3600 in
  let* bounce_rate := uniform_round2 0 100 in
  let* conversion := choice false [true; false] in
  let* k := randint 1 4 in
  let* tags := sample EmptyString tag_names k in
  py_ret (JObj
    [("id", JInt id);
     ("timestamp", JStr (isoformat (t - timedelta_days days)));
     ("user", JObj
        [("user_id", JStr ("user_" ++ py_str_int user_id));
         ("name", JStr name);
         ("email", JStr ("user" ++ py_str_int email ++ "@example.com"));
         ("age", JInt age);
         ("premium", JBool premium);
         ("preferences", JObj
            [("theme", JStr theme);
             ("language", JStr language);
             ("notifications", JBool notifications)])]);
     ("transaction", JObj
        [("amount", JFloat (amount # 100));
         ("currency", JStr currency);
         ("status", JStr status);
         ("payment_method", JStr payment_method);
         ("items", JList items)]);
     ("metadata", JObj
        [("ip_address", JStr (py_str_int ip1 ++ "." ++ py_str_int ip2 ++ "."
                              ++ py_str_int ip3 ++ "." ++ py_str_int ip4));
         ("user_agent", JStr user_agent);
         ("session_id", JStr ("sess_" ++ py_str_int session));
         ("referrer", JStr referrer);
         ("device_type", JStr device)]);
     ("analytics", JObj
        [("page_views", JInt page_views);
         ("time_on_site", JInt time_on_site);
         ("bounce_rate", JFloat (bounce_rate # 100));
         ("conversion", JBool conversion);
         ("tags", JList (JStr <$> tags))])]).

(** src/fault_tolerant_example.py defines the same function again, token
    for token (lines 24-75). *)
Definition ft_generate_complex_json : PyM gen_state json := generate_complex_json.

End random.

(** ** Shapes and bounds of the generated objects *)

Local Open Scope string_scope.

Definition item_ty : jty :=
  TObj [("product_id", TStr); ("name", TStr); ("quantity", TInt); ("price", TFloat)].

(** The schema of [generate_complex_json()]'s result: the nested records
    [user], [transaction], [metadata] and [analytics] that
    [_process_batch]'s [unnest] calls expect. *)
Definition complex_json_ty : jty :=
  TObj
    [("id", TInt); ("timestamp", TStr);
     ("user", TObj [("user_id", TStr); ("name", TStr); ("email", TStr); ("age", TInt);
                    ("premium", TBool);
                    ("preferences", TObj [("theme", TStr); ("language", TStr);
                                          ("notifications", TBool)])]);
     ("transaction", TObj [("amount", TFloat); ("currency", TStr); ("status", TStr);
                           ("payment_method", TStr); ("items", TList item_ty)]);
     ("metadata", TObj [("ip_address", TStr); ("user_agent", TStr); ("session_id", TStr);
                        ("referrer", TStr); ("device_type", TStr)]);
     ("analytics", TObj [("page_views", TInt); ("time_on_site", TInt);
                         ("bounce_rate", TFloat); ("conversion", TBool);
                         ("tags", TList TStr)])].

(** The ranges the arguments of the draws give an item. *)
Definition item_bounds (v : json) : Prop :=
  (exists q, jget "quantity" v = Some (JInt q) /\ (1 <= q <= 10)%Z) /\
  (exists c, jget "price" v = Some (JFloat (c # 100)) /\ (500 <= c <= 50000)%Z).

(** The ranges of an object's fields: the id, the age, the amount (in
    cents), one to five items each within [item_bounds], the bounce rate,
    and one to four distinct tags of the seven. *)
Definition complex_json_bounds (v : json) : Prop :=
  (exists id, jget "id" v = Some (JInt id) /\ (1000 <= id <= 9999)%Z) /\
  (exists u age, jget "user" v = Some u /\ jget "age" u = Some (JInt age) /\
                 (18 <= age <= 80)%Z) /\
  (exists t a items, jget "transaction" v = Some t /\
     jget "amount" t = Some (JFloat (a # 100)) /\ (1000 <= a <= 500000)%Z /\
     jget "items" t = Some (JList items) /\ (1 <= length items <= 5)%nat /\
     Forall item_bounds items) /\
  (exists an b tags, jget "analytics" v = Some an /\
     jget "bounce_rate" an = Some (JFloat (b # 100)) /\ (0 <= b <= 100)%Z /\
     jget "tags" an = Some (JList (JStr <$> tags)) /\ (1 <= length tags <= 4)%nat /\
     NoDup tags /\ tags ⊆ tag_names).

(** ** The draws *)

Lemma round_half_even_bounds (num den lo hi : Z) :
  (0 < den -> lo * den <= num <= hi * den -> lo <= round_half_even num den <= hi)%Z.
Proof.
  intros Hd Hn. unfold round_half_even.
  pose proof (Z.div_mod num den ltac:(lia)) as Hdm.
  pose proof (Z.mod_pos_bound num den Hd) as Hr.
  set (f := num / den) in *. set (r := num mod den) in *.
  assert (lo <= f <= hi) by nia.
  assert (f = hi -> r = 0)%Z by nia.
  repeat case_decide; try destruct (Z.even f); lia.
Qed.

Section draws.
Variable draw : nat -> Z.

Lemma randbelow_returns (n : Z) :
  (0 < n)%Z -> returns (randbelow draw n) (fun r => 0 <= r < n)%Z.
Proof. intros Hn s. eexists _, _. split; [reflexivity|]. by apply Z.mod_pos_bound. Qed.

Lemma randint_returns (a b : Z) :
  (a <= b)%Z -> returns (randint draw a b) (fun r => a <= r <= b)%Z.
Proof.
  intros Hab. unfold randint. rewrite decide_True by lia.
  eapply returns_bind; [apply randbelow_returns; lia|].
  intros r Hr. cbv beta in Hr. apply returns_ret. lia.
Qed.

Lemma choice_returns {A} (d : A) (seq : list A) :
  seq <> [] -> returns (choice draw d seq) (fun x => x ∈ seq).
Proof.
  intros Hne. assert (0 < py_len seq)%Z by (destruct seq; [done | unfold py_len; simpl; lia]).
  unfold choice. rewrite decide_False by lia.
  eapply returns_bind; [by apply randbelow_returns|].
  intros i Hi. apply returns_ret.
  destruct (lookup_lt_is_Some_2 seq (Z.to_nat i)) as [x Hx]; [unfold py_len in Hi; lia|].
  rewrite Hx. simpl. by eapply list_elem_of_lookup_2.
Qed.

Lemma uniform_round2_returns (a b : Z) :
  (a <= b)%Z -> returns (uniform_round2 draw a b) (fun c => a <= c <= b)%Z.
Proof.
  intros Hab s. eexists _, _. split; [reflexivity|].
  pose proof (Z.mod_pos_bound (draw (rnd_pos s)) (2 ^ 53) ltac:(lia)).
  apply round_half_even_bounds; nia.
Qed.

Lemma py_list_comp_returns {A} (n : nat) (m : PyM gen_state A) P :
  returns m P -> returns (py_list_comp n m) (fun l => length l = n /\ Forall P l).
Proof.
  intros Hm. induction n as [|n IH]; simpl.
  - by apply returns_ret.
  - eapply returns_bind; [exact Hm|]. intros x Hx.
    eapply returns_bind; [exact IH|]. intros xs [Hl Hxs].
    apply returns_ret. simpl. auto.
Qed.

Lemma datetime_now_returns now : returns (datetime_now now) (fun _ => True).
Proof. intros s. by eexists _, _. Qed.
End draws.

(** ** [sample]: the pool loop keeps a permutation *)

(** One round of the pool loop on the live prefix [take m p] of the pool:
    the picked [p !! j] together with the new live prefix, where the last
    live element has moved into the vacancy, is a permutation of the old
    live prefix. *)
Lemma swap_remove_perm {A} (d : A) (p : list A) (m j : nat) :
  (j < m)%nat -> (m <= length p)%nat ->
  default d (p !! j) :: take (m - 1)%nat (<[j := default d (p !! (m - 1)%nat)]> p) ≡ₚ take m p.
Proof.
  intros Hj Hm. destruct m as [|m]; [lia|]. replace (S m - 1)%nat with m by lia.
  destruct (lookup_lt_is_Some_2 p m) as [y Hy]; [lia|]. rewrite Hy. simpl.
  rewrite (take_S_r _ _ y Hy).
  destruct (decide (j = m)) as [->|Hjm].
  - rewrite Hy, take_insert_ge by lia. simpl. apply Permutation_cons_append.
  - rewrite take_insert_lt by lia.
    destruct (lookup_lt_is_Some_2 (take m p) j) as [x Hx]; [rewrite length_take; lia|].
    rewrite <-(lookup_take_lt _ m) by lia. rewrite Hx. simpl.
    rewrite insert_take_drop by (rewrite length_take; lia).
    pose proof (take_drop_middle _ _ _ Hx) as Hq.
    remember (take j (take m p)) as a. remember (drop (S j) (take m p)) as b.
    rewrite <-Hq, <-app_assoc. simpl. rewrite <-Permutation_middle.
    rewrite <-(Permutation_middle a (b ++ [y]) x). constructor.
    rewrite (Permutation_cons_append (a ++ b) y). by rewrite <-app_assoc.
Qed.

Section sample_facts.
Variable draw : nat -> Z.
Context {A : Type} (d : A) (pop : list A).

(** The loop invariant: the items picked so far followed by the live part
    [pool[:n - i]] of the pool are a permutation of the population. *)
Lemma sample_loop_returns (m : nat) (i : Z) (pool result : list A) :
  length pool = length pop -> i = Z.of_nat (length result) ->
  (i + Z.of_nat m <= py_len pop)%Z ->
  result ++ take (Z.to_nat (py_len pop - i)) pool ≡ₚ pop ->
  returns (sample_loop draw d m i (py_len pop) pool result)
    (fun r => length r = (length result + m)%nat /\ exists rest, r ++ rest ≡ₚ pop).
Proof.
  revert i pool result. induction m as [|m IH]; intros i pool result Hlen Hi Hm Hperm; simpl.
  - apply returns_ret. split; [lia|]. eauto.
  - unfold py_len in *. eapply returns_bind; [apply randbelow_returns; lia|].
    intros j Hj. cbv beta zeta in *.
    eapply returns_weaken;
      [apply IH; [by rewrite length_insert | rewrite length_app; simpl; lia | lia |]|].
    2:{ intros r [Hr Hrest]. rewrite length_app in Hr. simpl in Hr. split; [lia | done]. }
    replace (Z.to_nat (Z.of_nat (length pop) - (i + 1)))
      with (Z.to_nat (Z.of_nat (length pop) - i) - 1)%nat by lia.
    replace (Z.to_nat (Z.of_nat (length pop) - i - 1))
      with (Z.to_nat (Z.of_nat (length pop) - i) - 1)%nat by lia.
    rewrite <-app_assoc. simpl. rewrite swap_remove_perm by lia. done.
Qed.

Lemma sample_returns (k : Z) :
  (0 <= k <= py_len pop)%Z ->
  returns (sample draw d pop k)
    (fun r => length r = Z.to_nat k /\ exists rest, r ++ rest ≡ₚ pop).
Proof.
  intros Hk. unfold sample. rewrite decide_True by done.
  eapply returns_weaken; [apply sample_loop_returns; simpl; try lia|].
  - rewrite take_ge by (unfold py_len; lia). done.
  - intros r [Hr Hrest]. simpl in Hr. split; [lia | done].
Qed.
End sample_facts.

Lemma prefix_perm_nodup {A} (r rest pop : list A) :
  r ++ rest ≡ₚ pop -> NoDup pop -> NoDup r /\ r ⊆ pop.
Proof.
  intros Hp Hnd. rewrite <-Hp in Hnd |- *. apply NoDup_app in Hnd as [? _].
  split; [done | set_solver].
Qed.

Lemma sample_distinct (draw : nat -> Z) {A} (d : A) (pop : list A) (k : Z) :
  NoDup pop -> (0 <= k <= py_len pop)%Z ->
  returns (sample draw d pop k) (fun r => length r = Z.to_nat k /\ NoDup r /\ r ⊆ pop).
Proof.
  intros Hnd Hk. eapply returns_weaken; [by apply sample_returns|].
  intros r [Hr [rest Hp]]. split; [done|]. by eapply prefix_perm_nodup.
Qed.

(** ** [generate_complex_json] *)

Lemma typed_list (t : jty) (vs : list json) :
  Forall (fun v => typed t v = true) vs -> forallb (typed t) vs = true.
Proof. induction 1; simpl; [done|]. by apply andb_true_intro. Qed.

Lemma typed_strs (ss : list string) : forallb (typed TStr) (JStr <$> ss) = true.
Proof. by induction ss. Qed.

Section generate.
Variable draw : nat -> Z.
Variable now : nat -> Z.
Variable isoformat : Z -> string.

Lemma tag_names_nodup : NoDup tag_names.
Proof. apply (bool_decide_unpack (NoDup tag_names)). by vm_compute. Qed.

(** A draw of [generate_complex_json]: a primitive with its range. *)
Ltac gen_prim :=
  first [ apply randint_returns; lia
        | apply choice_returns; discriminate
        | apply uniform_round2_returns; lia
        | apply datetime_now_returns
        | apply sample_distinct; [apply tag_names_nodup | unfold py_len; simpl; lia] ].

Ltac gen_bind prim := eapply returns_bind; [prim | intros ? ?; cbv beta in *].

Lemma gen_item_returns : returns (gen_item draw) (fun v => typed item_ty v = true /\ item_bounds v).
Proof.
  unfold gen_item. do 4 gen_bind gen_prim. apply returns_ret. split; [done|].
  split; eexists; split; try reflexivity; lia.
Qed.

Ltac gen_step :=
  gen_bind ltac:(first [gen_prim | apply py_list_comp_returns, gen_item_returns]).

(** C36 (type): from any generator state, [generate_complex_json()]
    returns (it never raises) an object of the schema [complex_json_ty]:
    the keys [id], [timestamp], [user], [transaction], [metadata] and
    [analytics] in this order, each nested record with its keys, an int, a
    float, a string or a bool where the schema says so, and lists of items
    and of tag strings. *)
Theorem generate_complex_json_typed :
  returns (generate_complex_json draw now isoformat)
    (fun v => typed complex_json_ty v = true).
Proof.
  unfold generate_complex_json. do 31 gen_step. apply returns_ret.
  match goal with H : _ /\ Forall _ ?items |- _ => destruct H as [_ Hitems] end.
  simpl. rewrite typed_strs, typed_list; [done|].
  eapply Forall_impl; [exact Hitems | naive_solver].
Qed.

(** C37 (bounds): every object [generate_complex_json()] returns has its
    fields within the ranges of its draws: [1000 <= id <= 9999],
    [18 <= age <= 80], an amount between 10.00 and 5000.00, one to five
    items each with a quantity in [1 .. 10] and a price between 5.00 and
    500.00, a bounce rate between 0.00 and 1.00, and one to four distinct
    tags from the seven of the list. *)
Theorem generate_complex_json_bounds :
  returns (generate_complex_json draw now isoformat) complex_json_bounds.
Proof.
  unfold generate_complex_json. do 31 gen_step. apply returns_ret.
  repeat match goal with H : _ /\ _ |- _ => destruct H end.
  unfold complex_json_bounds. simpl.
  repeat (first [split | eexists]); try done; try lia.
  eapply Forall_impl; [eassumption | naive_solver].
Qed.

End generate.

(** The draws [12345 + 7919 k] give this object (the clock and
    [isoformat] are fixed for the example). *)
Example generate_complex_json_run :
  generate_complex_json (fun k => Z.of_nat k * 7919 + 12345) (fun _ => 0) (fun _ => "iso")
    gen_start =
  (mk_gen 39 1, Ok (JObj
    [("id", JInt 4345); ("timestamp", JStr "iso");
     ("user", JObj
        [("user_id", JStr "user_8184"); ("name", JStr "Grace");
         ("email", JStr "user4022@example.com"); ("age", JInt 46);
         ("premium", JBool false);
         ("preferences", JObj [("theme", JStr "auto"); ("language", JStr "es");
                               ("notifications", JBool true)])]);
     ("transaction", JObj
        [("amount", JFloat (1000 # 100)); ("currency", JStr "CNY");
         ("status", JStr "completed"); ("payment_method", JStr "paypal");
         ("items", JList
            [JObj [("product_id", JStr "prod_730"); ("name", JStr "Accessory");
                   ("quantity", JInt 9); ("price", JFloat (500 # 100))];
             JObj [("product_id", JStr "prod_906"); ("name", JStr "Widget");
                   ("quantity", JInt 5); ("price", JFloat (500 # 100))]])]);
     ("metadata", JObj
        [("ip_address", JStr "173.187.201.215");
         ("user_agent", JStr "Mozilla/5.0 (X11; Linux x86_64)");
         ("session_id", JStr "sess_334077"); ("referrer", JStr "facebook.com");
         ("device_type", JStr "desktop")]);
     ("analytics", JObj
        [("page_views", JInt 35); ("time_on_site", JInt 29);
         ("bounce_rate", JFloat (0 # 100)); ("conversion", JBool false);
         ("tags", JList [JStr "food"; JStr "home"; JStr "toys"])])])).
Proof. vm_compute. reflexivity. Qed.
