(* ===== verification/Benchmark.v ===== *)
(** * src/benchmark.py: the [measure_performance] decorator

    [measure_performance(func)] returns [wrapper], which reads the
    process's resident memory, reads [time.time()], runs [func], reads
    [timeit.default_timer()] (i.e. [time.perf_counter()]), reads the memory
    again, prints one line and returns [func]'s result.  The three mains
    of the repository are decorated with it.

    The wrapper is generic in the state [St] of the program it wraps: the
    two clocks and the memory reading are functions of that state, and
    [print] appends a line to the state's standard output.  The clocks are
    read as exact rationals; the memory in bytes, divided by [1024 ** 2].
    There is no [try] in the wrapper: when [func] raises, the exception
    propagates and nothing is printed. *)

From S2P Require Import Prelude PyFormat.
From stdpp Require Import strings.
From Stdlib Require Import Ascii QArith.

Local Open Scope string_scope.

(** The bytes of "⏱" (U+23F1) in UTF-8, as [print] writes them. *)
Definition stopwatch : string :=
  String (ascii_of_nat 226) (String (ascii_of_nat 143) (String (ascii_of_nat 177) EmptyString)).

Definition newline : string := String (ascii_of_nat 10) EmptyString.

(** [f"⏱ {func.__name__} took {elapsed_time:.2f}s, "
     f"used {mem_used:.1f} MB\n"] *)
Definition perf_line (name : string) (elapsed_time mem_used : Q) : string :=
  stopwatch ++ " " ++ name ++ " took " ++ format_fixed 2 elapsed_time ++ "s, "
  ++ "used " ++ format_fixed 1 mem_used ++ " MB" ++ newline.

(** [process.memory_info().rss / (1024 ** 2)] *)
Definition rss_mb (rss : Z) : Q := rss # 1048576.

Section measure.
Context {St : Type}.
(** [time.time()], the wall clock, in the state. *)
Variable time : St -> Q.
(** [timeit.default_timer()], i.e. [time.perf_counter()]. *)
Variable timer : St -> Q.
(** [psutil.Process(os.getpid()).memory_info().rss], in bytes. *)
Variable rss : St -> Z.
(** [print(line)]: the line is appended to standard output. *)
Variable print : string -> St -> St.

Local Open Scope py_scope.

(** [measure_performance(func)(...)]: [name] is [func.__name__], which
    [@wraps] copies to the wrapper. *)
Definition measure_performance {A} (name : string) (func : PyM St A) : PyM St A :=
  let* s0 := py_get in
  let mem_before := rss_mb (rss s0) in
  let start := time s0 in
  let* result := func in
  let* s1 := py_get in
  let end_ := timer s1 in
  let elapsed_time := (end_ - start)%Q in
  let mem_after := rss_mb (rss s1) in
  let mem_used := (mem_after - mem_before)%Q in
  let* _ := py_modify (print (perf_line name elapsed_time mem_used)) in
  py_ret result.
End measure.

(** ** A run of a decorated function

    A process whose wall clock reads [time.time()] as seconds since the
    epoch and whose [perf_counter] counts from an arbitrary point (here
    twelve seconds before the call): the function sleeps half a second. *)

Record world := mk_world {
  wall : Q;
  perf : Q;
  rss_bytes : Z;
  stdout : list string
}.

Definition world_print (line : string) (w : world) : world :=
  mk_world (wall w) (perf w) (rss_bytes w) (stdout w ++ [line]).

Definition sleep (dt : Q) : PyM world unit :=
  fun w => (mk_world (wall w + dt) (perf w + dt) (rss_bytes w) (stdout w), Ok tt).

Definition world0 : world := mk_world 1700000000 12 52428800 [].

Definition world1 : world := mk_world (1700000000 + (1 # 2)) (12 + (1 # 2)) 52428800 [].

(** ** What the wrapper does *)

Section measure_facts.
Context {St A : Type}.
Variables (time timer : St -> Q) (rss : St -> Z) (print : string -> St -> St).

(** When [func] returns [a], the decorated function returns the same [a]
    in the state [func] left, after printing one line: [func]'s name, the
    elapsed time computed as [timer()] read after the call minus [time()]
    read before it, and the difference of the resident memory in MB. *)
Lemma measure_performance_ok (name : string) (func : PyM St A) s s1 a :
  func s = (s1, Ok a) ->
  measure_performance time timer rss print name func s =
  (print (perf_line name (timer s1 - time s) (rss_mb (rss s1) - rss_mb (rss s))) s1, Ok a).
Proof. intros Hf. unfold measure_performance, py_bind, py_get, py_modify, py_ret. by rewrite Hf. Qed.

End measure_facts.

(** The decorated call takes half a second and prints a negative elapsed
    time, because the two clocks have different origins. *)
Lemma measure_performance_ok_witness :
  sleep (1 # 2) world0 = (world1, Ok tt) /\
  measure_performance wall perf rss_bytes world_print "main" (sleep (1 # 2)) world0 =
  (world_print (stopwatch ++ " main took -1699999987.50s, used 0.0 MB" ++ newline) world1,
   Ok tt).
Proof.
  split; [reflexivity|].
  rewrite (measure_performance_ok wall perf rss_bytes world_print "main" _ world0 world1 tt);
    [|reflexivity].
  vm_compute. reflexivity.
Defined.

