(* ===== verification/MyConsumer.v ===== *)
(** * [MyConsumer] of src/main.py

    The demonstration consumer: [consume(elements)] sleeps a random time
    (not observable, not modelled) and prints [f"{self.name} consumed
    {elements}"].  Its state is its [name] and the lines it has printed;
    [elements] is a list of Python ints, printed with Python's list repr.
    It does not override [close()], so the base class's no-op is used. *)

From S2P Require Import Prelude Consumer PyFormat.

Local Open Scope string_scope.

Record my_consumer : Type := mk_my_consumer {
    mc_name : string;               (** [self.name] *)
    mc_stdout : list string         (** the lines printed so far *)
  }.

(** [MyConsumer.__init__(name)] *)
Definition my_consumer_init (name : string) : my_consumer :=
  {| mc_name := name; mc_stdout := [] |}.

(** [f"{self.name} consumed {elements}"] *)
Definition consumed_line (name : string) (elements : list Z) : string :=
  name ++ " consumed " ++ py_repr_int_list elements.

(** [MyConsumer.consume(elements)] *)
Definition my_consume (elements : list Z) : PyM my_consumer unit :=
  py_modify (fun s =>
    {| mc_name := mc_name s; mc_stdout := mc_stdout s ++ [consumed_line (mc_name s) elements] |}).

#[export] Instance MyConsumer_Consumer : Consumer Z my_consumer :=
  {| consume := my_consume; close := base_close |}.

(** The callback returns normally on every batch. *)
Lemma my_consume_ok (elements : list Z) (s : my_consumer) :
  consume elements s =
  ({| mc_name := mc_name s; mc_stdout := mc_stdout s ++ [consumed_line (mc_name s) elements] |},
   Ok tt).
Proof. reflexivity. Qed.

(** [close()] changes no consumer. *)
Lemma my_close_all (i : nat) (cs : list my_consumer) : (close_all (A:=Z) i cs).1 = cs.
Proof.
  revert i. induction cs as [|c cs IH]; intros i; [done|]. simpl.
  specialize (IH (S i)). destruct (close_all (S i) cs). simpl in *. by rewrite IH.
Qed.

(** A [MyConsumer] handed the batches [bs] in turn has printed one line
    per batch, in order. *)
Lemma my_feed (c : my_consumer) (bs : list (list Z)) :
  feed c bs =
  {| mc_name := mc_name c; mc_stdout := mc_stdout c ++ (consumed_line (mc_name c) <$> bs) |}.
Proof.
  unfold feed. revert c. induction bs as [|b bs IH]; intros c; simpl.
  - rewrite app_nil_r. by destruct c.
  - rewrite IH. simpl. by rewrite <-app_assoc.
Qed.
