(* ===== verification/DispatcherFacts.v ===== *)
(** * What the dispatcher guarantees

    The testable properties of the specification (section 8, P1 to P6,
    and the invariants of section 3) stated on the ring-buffer dispatcher
    of [Dispatcher.v] and proved through its refinement of the broadcast
    queue: broadcast completeness, no overwritten slot is ever read,
    cursor bounds and backpressure, monotone cursors, graceful close, the
    order of [close()] after the last [consume], isolation of a failing
    consumer, the lifecycle state machine and its misuse errors, and the
    liveness of [produce] and [close] under a schedule that runs every
    worker.  [replay_inv] says what every consumer has become: the
    registered object after [consume] on each batch it was handed, and
    after [close()] once the dispatcher is CLOSED; [exec_log] says the
    dispatcher's log grows only by error-handler lines.  [Drivers.v]
    applies them to the programs of src/. *)

From S2P Require Import Prelude RingBuffer Consumer Broadcast Dispatcher.
Import Dispatcher.

(** The lifecycle of specification 4.5, with one transition the diagram
    lacks: [close()] on a dispatcher that never published (NEW to
    DRAINING), which every driver of src/ performs when it fails before
    producing, since each calls [close()] in a [finally]. *)
Inductive lifecycle : phase -> phase -> Prop :=
  | lc_register : lifecycle NEW NEW
  | lc_first_produce : lifecycle NEW RUNNING
  | lc_running : lifecycle RUNNING RUNNING
  | lc_close_new : lifecycle NEW DRAINING
  | lc_close : lifecycle RUNNING DRAINING
  | lc_draining : lifecycle DRAINING DRAINING
  | lc_drained : lifecycle DRAINING CLOSED
  | lc_closed : lifecycle CLOSED CLOSED.

Section facts.
Context {A C : Type} `{!Consumer A C}.
Implicit Types (d : disruptor A C).

(** Everything the abstract side knows about a reachable state. *)
Lemma reachable_facts d :
  reachable d -> exists b, refines d b /\ Broadcast.inv b /\ Broadcast.tinv b /\ Broadcast.cinv b.
Proof.
  intros Hd. destruct (refinement d Hd) as (b & Hb & Hr).
  exists b. split_and!; eauto using Broadcast.reachable_inv, Broadcast.reachable_tinv,
    Broadcast.reachable_cinv.
Qed.

Lemma consumer_lookup_refines d b i c ci :
  refines d b -> d_consumers d !! i = Some (c, ci) ->
  exists p, Broadcast.b_consumers b !! i = Some (c, p) /\ ci = (Z.of_nat p - 1)%Z.
Proof.
  intros (_ & _ & _ & _ & _ & _ & _ & Hcs & _) Hi.
  rewrite Hcs, list_lookup_fmap in Hi.
  destruct (Broadcast.b_consumers b !! i) as [[c' p]|]; simpl in Hi; [|done].
  injection Hi as <- <-. exists p. split; reflexivity.
Qed.

(** (P1, broadcast completeness). In every reachable state, the
    batches handed to a registered consumer, concatenated, are exactly
    the first [ci + 1] published items, in publication order, where
    [ci] is its cursor. *)
Theorem broadcast_complete d i c ci :
  reachable d -> d_consumers d !! i = Some (c, ci) ->
  delivered i (d_trace d) = take (Z.to_nat (ci + 1)) (published (d_trace d)).
Proof.
  intros Hd Hi. destruct (reachable_facts d Hd) as (b & Hr & _ & (Hpub & Hdel & _) & _).
  destruct (consumer_lookup_refines d b i c ci Hr Hi) as (p & Hbi & ->).
  destruct Hr as (_ & _ & -> & _).
  rewrite Hdel, Hbi, Hpub. f_equal. lia.
Qed.

(** (P2, no overwrite). When a worker reads its backlog, the ring
    returns exactly the items published at those sequences: no slot it
    reads has been overwritten. *)
Theorem worker_reads_published d i c ci :
  reachable d -> d_consumers d !! i = Some (c, ci) -> (ci < d_cursor d)%Z ->
  RingBuffer.read_range (d_ring d) (ci + 1) (d_cursor d) =
  Some (drop (Z.to_nat (ci + 1)) (published (d_trace d))).
Proof.
  intros Hd Hi Hlt. destruct (reachable_facts d Hd) as (b & Hr & Hinv & (Hpub & _) & _).
  destruct (consumer_lookup_refines d b i c ci Hr Hi) as (p & Hbi & ->).
  destruct Hinv as (_ & Hp & _). destruct (Hp _ _ _ Hbi) as [Hple _].
  destruct Hr as (_ & _ & Htr & _ & _ & _ & Hcur & _ & Hold).
  rewrite Htr, Hpub, Hcur. rewrite Hcur in Hold.
  replace (Z.to_nat (Z.of_nat p - 1 + 1)) with p by lia.
  apply (read_backlog _ _ (Broadcast.low_water b)); eauto using Broadcast.low_water_le.
Qed.

(** (invariants 1 and 2, P4 backpressure). Every consumer cursor lies
    between [-1] and the producer cursor, and the producer is never more
    than one capacity ahead of any consumer; the producer cursor is the
    last published sequence. *)
Theorem cursor_bounds d i c ci :
  reachable d -> d_consumers d !! i = Some (c, ci) ->
  (-1 <= ci <= d_cursor d)%Z /\ (d_cursor d - ci <= RingBuffer.size (d_ring d))%Z /\
  d_cursor d = (Z.of_nat (length (published (d_trace d))) - 1)%Z.
Proof.
  intros Hd Hi. destruct (reachable_facts d Hd) as (b & Hr & Hinv & (Hpub & _) & _).
  destruct (consumer_lookup_refines d b i c ci Hr Hi) as (p & Hbi & ->).
  destruct Hinv as (_ & Hp & _). destruct (Hp _ _ _ Hbi) as [Hple Hroom].
  destruct Hr as (_ & _ & Htr & _ & _ & Hsz & Hcur & _).
  rewrite Hcur, Hsz, Htr, Hpub. lia.
Qed.

(** (P3, monotonic cursors). No operation moves the producer cursor
    or any consumer cursor backwards, and no consumer is ever dropped. *)
Theorem cursors_monotone d d' :
  step d d' ->
  (d_cursor d <= d_cursor d')%Z /\
  (forall i c ci, d_consumers d !! i = Some (c, ci) ->
     exists c' ci', d_consumers d' !! i = Some (c', ci') /\ (ci <= ci')%Z).
Proof.
  intros [d0 a d1 Hex]. clear d d'.
  destruct a as [c|items|i| |]; simpl in Hex.
  - unfold register in Hex. destruct (d_phase d0); simplify_eq/=.
    split; [lia|]. intros i c' ci Hi. exists c', ci. split; [|lia].
    by apply lookup_app_l_Some.
  - unfold produce in Hex. destruct (d_phase d0); try discriminate;
      (destruct (decide (items = [])) as [|Hne]; [discriminate|]);
      (destruct (Barrier.can_claim _ _ _); [|discriminate]); simplify_eq/=;
      (split; [destruct items; [done|simpl; lia] | eauto with lia]).
  - unfold work in Hex.
    destruct (d_consumers d0 !! i) as [[c ci]|] eqn:Ei; [|discriminate].
    case_decide as Hlt; [|discriminate].
    destruct (RingBuffer.read_range _ _ _); [|discriminate].
    destruct (deliver _ _ _ _) as [[[c' evs] lines]|]; simplify_eq/=.
    split; [lia|]. intros j c'' cj Hj. rewrite list_lookup_insert.
    case_decide as Hij; [destruct Hij as [<- _]; simplify_eq; eauto with lia|].
    eauto with lia.
  - unfold close_begin in Hex. destruct (d_phase d0); simplify_eq/=; eauto with lia.
  - unfold finish in Hex. destruct (d_phase d0); try discriminate.
    destruct (caught_up d0); [|discriminate].
    pose proof (Broadcast.close_all_length (A:=A) (d_consumers d0).*1 0) as Hlen.
    destruct (close_all 0 _) as [cs' evs]; simplify_eq/=. rewrite length_fmap in Hlen.
    split; [lia|]. intros i c ci Hi.
    destruct (cs' !! i) as [c'|] eqn:Ec.
    + exists c', ci. split; [|lia]. rewrite lookup_zip_with, list_lookup_fmap, Ec, Hi. done.
    + apply lookup_ge_None in Ec. apply lookup_lt_Some in Hi. lia.
Qed.

(** (P5, graceful close). Once the dispatcher is CLOSED, every
    consumer's cursor is the producer cursor, the batches it was handed
    are the whole publication history, and its [close()] ran exactly
    once. *)
Theorem graceful_close d i c ci :
  reachable d -> d_phase d = CLOSED -> d_consumers d !! i = Some (c, ci) ->
  ci = d_cursor d /\ delivered i (d_trace d) = published (d_trace d) /\
  closes i (d_trace d) = 1%nat.
Proof.
  intros Hd Hcl Hi.
  destruct (reachable_facts d Hd) as (b & Hr & Hinv & (Hpub & Hdel & _ & Hcls) & _).
  destruct (consumer_lookup_refines d b i c ci Hr Hi) as (p & Hbi & ->).
  destruct Hinv as (_ & _ & _ & Hc).
  destruct Hr as (Hph & _ & Htr & _ & _ & _ & Hcur & _).
  rewrite Hph in Hcl. specialize (Hc Hcl _ _ _ Hbi) as ->.
  rewrite Htr, Hcur, Hdel, Hbi, Hpub, Hcls, firstn_all, decide_True; [done|].
  split; [done|]. by eapply lookup_lt_Some.
Qed.

(** (scenario S6). A [close()] event only appears once the dispatcher
    is CLOSED, and after any consumer's [close()] no consumer's
    [consume] is ever called again. *)
Theorem close_after_last_consume d t1 t2 i e :
  reachable d -> d_trace d = t1 ++ EvClose i e :: t2 ->
  d_phase d = CLOSED /\ forall j, batches j t2 = [].
Proof.
  intros Hd Htr. destruct (reachable_facts d Hd) as (b & Hr & _ & _ & [Hcl Hdac]).
  destruct Hr as (Hph & _ & Htr' & _). rewrite <-Htr' in Hcl, Hdac. rewrite Htr in Hcl, Hdac.
  split.
  - rewrite Hph. apply Hcl. rewrite existsb_app. simpl. by rewrite orb_true_r.
  - intros j. by eapply no_deliver_after_close.
Qed.

(** (P6, error isolation; the skip policy of 4.4). A worker iteration
    of consumer [i] changes no other consumer's cursor or batches, and
    it advances [i]'s cursor to the producer cursor whether [consume]
    returned or raised. *)
Theorem work_isolation d d' i :
  work d i = Done d' ->
  d_cursor d' = d_cursor d /\
  (exists c', d_consumers d' !! i = Some (c', d_cursor d)) /\
  (forall j, j <> i ->
     d_consumers d' !! j = d_consumers d !! j /\ batches j (d_trace d') = batches j (d_trace d)).
Proof.
  unfold work. intros Hw.
  destruct (d_consumers d !! i) as [[c ci]|] eqn:Ei; [|discriminate].
  case_decide; [|discriminate].
  destruct (RingBuffer.read_range _ _ _) as [batch|]; [|discriminate].
  destruct (deliver _ _ _ _) as [[[c' evs] lines]|] eqn:Ed; simplify_eq/=.
  split_and!; [done| |].
  - exists c'. apply list_lookup_insert_eq. by eapply lookup_lt_Some.
  - intros j Hj. rewrite list_lookup_insert_ne by done. split; [done|].
    destruct (Broadcast.deliver_trace _ _ _ _ _ _ _ j Ed) as (_ & _ & Hb & _).
    by rewrite batches_app, Hb, decide_False, app_nil_r.
Qed.

Lemma lifecycle_refl ph : lifecycle ph ph.
Proof. destruct ph; constructor. Qed.

(** (the state machine of 4.5). Every operation moves the lifecycle
    phase along the diagram: registration and publication only before
    [close()], CLOSED only from DRAINING, nothing leaves CLOSED. *)
Theorem lifecycle_step d d' : step d d' -> lifecycle (d_phase d) (d_phase d').
Proof.
  intros [d0 a d1 Hex]. clear d d'.
  destruct a as [c|items|i| |]; simpl in Hex.
  - unfold register in Hex. destruct (d_phase d0) eqn:E; simplify_eq/=. constructor.
  - unfold produce in Hex. destruct (d_phase d0); try discriminate;
      (destruct (decide (items = [])); [discriminate|]);
      (destruct (Barrier.can_claim _ _ _); [|discriminate]); simplify_eq/=; constructor.
  - unfold work in Hex. destruct (d_consumers d0 !! i) as [[c ci]|]; [|discriminate].
    case_decide; [|discriminate]. destruct (RingBuffer.read_range _ _ _); [|discriminate].
    destruct (deliver _ _ _ _) as [[[? ?] ?]|]; simplify_eq/=. apply lifecycle_refl.
  - unfold close_begin in Hex. destruct (d_phase d0) eqn:E; simplify_eq/=;
      rewrite ?E; constructor.
  - unfold finish in Hex. destruct (d_phase d0); try discriminate.
    destruct (caught_up d0); [|discriminate].
    destruct (close_all 0 _); simplify_eq/=. constructor.
Qed.

(** (misuse, section 7 kind 1). A non-positive capacity is refused;
    registration after the first publication or after [close()] is
    refused; publication after [close()] is refused; so is an empty
    publication and a worker of an unknown consumer. *)
Theorem misuse_refused d name size h c items i :
  ((size <= 0)%Z -> create (A:=A) (C:=C) name size h = Misuse NonPositiveSize) /\
  (d_phase d <> NEW -> register d c = Misuse LateRegistration) /\
  (d_phase d = DRAINING \/ d_phase d = CLOSED -> produce d items = Misuse ProduceAfterClose) /\
  (d_phase d = NEW \/ d_phase d = RUNNING -> items = [] -> produce d items = Misuse EmptyProduce) /\
  (d_consumers d !! i = None -> work d i = Misuse NoSuchConsumer).
Proof.
  split_and!.
  - intros Hs. unfold create. case_decide; [lia | done].
  - intros Hph. unfold register. by destruct (d_phase d).
  - intros [Hph|Hph]; unfold produce; by rewrite Hph.
  - intros [Hph|Hph] ->; unfold produce; by rewrite Hph.
  - intros Hi. unfold work. by rewrite Hi.
Qed.

Lemma gating_le_cursor d : (gating d <= d_cursor d)%Z.
Proof.
  unfold gating, Barrier.gating. induction (d_consumers d).*2; simpl; lia.
Qed.

(** (a gap in the specification). A [produce] of more items than the
    capacity waits in every state, whatever the consumers do: the claim
    of [len(items)] contiguous sequences can never pass the barrier, so
    the producer blocks forever. *)
Theorem produce_oversized_waits d items :
  d_phase d = NEW \/ d_phase d = RUNNING -> items <> [] ->
  (RingBuffer.size (d_ring d) < Z.of_nat (length items))%Z ->
  produce d items = Wait.
Proof.
  intros Hph Hne Hbig. pose proof (gating_le_cursor d).
  unfold produce, Barrier.can_claim.
  destruct Hph as [-> | ->]; rewrite decide_False by done;
    rewrite bool_decide_false by lia; done.
Qed.
End facts.

(** ** What each consumer has become *)

Section replay.
Context {A C : Type} `{!Consumer A C}.
Implicit Types (d : disruptor A C) (cs : list C).

(** What a consumer registered as [c0] has become once it was handed
    the batches [bs]: [consume] on each batch in turn, then [close()]
    once the dispatcher is CLOSED. *)
Definition consumer_view (ph : phase) (c0 : C) (bs : list (list A)) : C :=
  match ph with CLOSED => (close (feed c0 bs)).1 | _ => feed c0 bs end.

(** The consumers registered so far, in order, are [cs]; each one's
    state is what its [consume] and [close()] calls made of it, and no
    batch went to an index that was never registered. *)
Definition replay_inv cs d : Prop :=
  length (d_consumers d) = length cs /\
  (forall j, (length cs <= j)%nat -> batches j (d_trace d) = []) /\
  (forall i c ci, d_consumers d !! i = Some (c, ci) ->
     exists c0, cs !! i = Some c0 /\ c = consumer_view (d_phase d) c0 (batches i (d_trace d))).

(** The consumers registered after action [a]. *)
Definition registered (a : action A C) cs : list C :=
  match a with Register c => cs ++ [c] | _ => cs end.

Lemma replay_inv_create name size h d0 : create name size h = Done d0 -> replay_inv [] d0.
Proof. unfold create. case_decide; intros; simplify_eq/=. split_and!; done. Qed.

Lemma deliver_state h i c (batch : list A) c' evs lines :
  deliver h i c batch = Some (c', evs, lines) -> c' = (consume batch c).1.
Proof. unfold deliver. destruct (consume batch c) as [c1 []]; intros; simplify_eq/=; done. Qed.

Lemma replay_register cs d c d' :
  register d c = Done d' -> replay_inv cs d -> replay_inv (cs ++ [c]) d'.
Proof.
  unfold register. destruct (d_phase d) eqn:Eph; intros Hd; simplify_eq/=.
  intros (Hlen & Hnone & Hcs). unfold replay_inv; simpl. rewrite !length_app. simpl. split_and!.
  - rewrite Hlen. done.
  - intros j Hj. apply Hnone. lia.
  - intros i c1 ci [Hi | (Hj & Hc)]%lookup_app_Some.
    + destruct (Hcs i c1 ci Hi) as (c0 & H0 & ->). exists c0. rewrite Eph.
      split; [|done]. apply lookup_app_l_Some, H0.
    + apply list_lookup_singleton_Some in Hc as [Hi Hc]. injection Hc as Hc1 _. subst c1.
      exists c. rewrite Hlen in Hj, Hi. rewrite lookup_app_r by lia.
      replace (i - length cs)%nat with 0%nat by lia.
      split; [done|]. rewrite Hnone by lia. done.
Qed.

Lemma replay_produce cs d items d' :
  produce d items = Done d' -> replay_inv cs d -> replay_inv cs d'.
Proof.
  unfold produce, replay_inv. intros Hd (Hlen & Hnone & Hcs).
  destruct (d_phase d) eqn:Eph; try discriminate; case_decide; try discriminate;
    (destruct (Barrier.can_claim _ _ _); [|discriminate]); simplify_eq/=;
    (split_and!; [done | intros j Hj; rewrite batches_app, Hnone by done; done |]);
    intros i c ci Hi; destruct (Hcs i c ci Hi) as (c0 & H0 & ->); exists c0;
    rewrite ?Eph, batches_app; simpl; rewrite app_nil_r; done.
Qed.

Lemma replay_work cs d i d' :
  reachable d -> work d i = Done d' -> replay_inv cs d -> replay_inv cs d'.
Proof.
  intros Hr Hw (Hlen & Hnone & Hcs). unfold work in Hw. unfold replay_inv.
  destruct (d_consumers d !! i) as [[c ci]|] eqn:Ei; [|discriminate].
  case_decide as Hlt; [|discriminate].
  destruct (RingBuffer.read_range _ _ _) as [batch|]; [|discriminate].
  destruct (deliver _ _ _ _) as [[[c' evs] lines]|] eqn:Ed; simplify_eq/=.
  pose proof (lookup_lt_Some _ _ _ Ei) as Hil.
  assert (d_phase d <> CLOSED) as Hopen.
  { intros Hcl. destruct (graceful_close d i c ci Hr Hcl Ei) as [-> _]. lia. }
  pose proof (fun j => Broadcast.deliver_trace _ _ _ _ _ _ _ j Ed) as Htr.
  split_and!; [by rewrite length_insert | |].
  - intros j Hj. rewrite batches_app, Hnone by done. destruct (Htr j) as (_ & _ & -> & _).
    rewrite decide_False by lia. done.
  - intros j c1 cj Hj. destruct (Htr j) as (_ & _ & Hb & _). rewrite batches_app, Hb.
    destruct (decide (j = i)) as [->|Hji].
    + rewrite list_lookup_insert_eq in Hj by done. simplify_eq/=.
      destruct (Hcs i c ci Ei) as (c0 & H0 & ->). exists c0. split; [done|].
      rewrite (deliver_state _ _ _ _ _ _ _ Ed). unfold consumer_view.
      destruct (d_phase d); [..|done]; by rewrite feed_app.
    + rewrite list_lookup_insert_ne in Hj by done. rewrite app_nil_r. by apply (Hcs j c1 cj).
Qed.

Lemma replay_close_begin cs d d' :
  close_begin d = Done d' -> replay_inv cs d -> replay_inv cs d'.
Proof.
  unfold close_begin, replay_inv. intros Hd (Hlen & Hnone & Hcs).
  destruct (d_phase d) eqn:Eph; simplify_eq/=; split_and!; try done;
    intros i c ci Hi; destruct (Hcs i c ci Hi) as (c0 & H0 & ->); exists c0; by rewrite Eph.
Qed.

Lemma replay_finish cs d d' :
  finish d = Done d' -> replay_inv cs d -> replay_inv cs d'.
Proof.
  unfold finish, replay_inv. intros Hd (Hlen & Hnone & Hcs). destruct (d_phase d) eqn:Eph; try discriminate.
  destruct (caught_up d); [|discriminate].
  pose proof (Broadcast.close_all_length (A:=A) (d_consumers d).*1 0) as Hcl.
  pose proof (fun j => Broadcast.close_all_trace (A:=A) (d_consumers d).*1 0 j) as Htr.
  pose proof (close_all_lookup (A:=A) 0 (d_consumers d).*1) as Hlk.
  destruct (close_all 0 _) as [cs' evs]. simpl in *. simplify_eq/=.
  split_and!.
  - rewrite length_zip_with, length_fmap, Hcl, length_fmap. lia.
  - intros j Hj. rewrite batches_app, Hnone by done. destruct (Htr j) as (_ & _ & -> & _). done.
  - intros i c ci Hi. rewrite lookup_zip_with, list_lookup_fmap in Hi.
    destruct (cs' !! i) as [c'|] eqn:E1, (d_consumers d !! i) as [[c1 ci1]|] eqn:E2;
      simplify_eq/=.
    destruct (Hcs i c1 _ E2) as (c0 & H0 & Hc1). exists c0. split; [done|].
    rewrite ?Eph in Hc1. simpl in Hc1.
    rewrite batches_app. destruct (Htr i) as (_ & _ & -> & _). rewrite app_nil_r.
    specialize (Hlk i c1). rewrite list_lookup_fmap, E2 in Hlk. simpl in Hlk.
    rewrite Hlk in E1 by done. injection E1 as <-. by rewrite Hc1.
Qed.

(** Every accepted action keeps the picture of the consumers' states,
    registration adding its consumer at the end. *)
Lemma exec_replay cs d a d' :
  reachable d -> exec d a = Done d' -> replay_inv cs d -> replay_inv (registered a cs) d'.
Proof.
  intros Hr. destruct a as [c|items|i| |]; simpl.
  - apply replay_register.
  - apply replay_produce.
  - by apply replay_work.
  - apply replay_close_begin.
  - apply replay_finish.
Qed.
(** The dispatcher's log only grows by the lines of the error handler,
    when a worker's [consume] raised. *)
Lemma exec_log d a d' :
  exec d a = Done d' ->
  d_log d' = d_log d \/
  exists i c ci batch c' evs lines, d_consumers d !! i = Some (c, ci) /\
    deliver (d_handler d) i c batch = Some (c', evs, lines) /\ d_log d' = d_log d ++ lines.
Proof.
  destruct a as [c|items|i| |]; simpl.
  - unfold register. destruct (d_phase d); intros; simplify_eq/=; by left.
  - unfold produce. destruct (d_phase d); try discriminate; case_decide; try discriminate;
      (destruct (Barrier.can_claim _ _ _); [|discriminate]); intros; simplify_eq/=; by left.
  - unfold work. destruct (d_consumers d !! i) as [[c ci]|] eqn:Ei; [|discriminate].
    case_decide; [|discriminate]. destruct (RingBuffer.read_range _ _ _) as [batch|]; [|discriminate].
    destruct (deliver _ _ _ _) as [[[c' evs] lines]|] eqn:Ed; intros; simplify_eq/=.
    right. by exists i, c, ci, batch, c', evs, lines.
  - unfold close_begin. destruct (d_phase d); intros; simplify_eq/=; by left.
  - unfold finish. destruct (d_phase d); try discriminate. destruct (caught_up d); [|discriminate].
    destruct (close_all 0 _). intros; simplify_eq/=. by left.
Qed.

(** A [consume] that returns adds no line to the log. *)
Lemma deliver_ok_lines h i c (batch : list A) c1 c' evs lines :
  consume batch c = (c1, Ok tt) -> deliver h i c batch = Some (c', evs, lines) -> lines = [].
Proof. unfold deliver. intros ->. by intros; simplify_eq/=. Qed.
End replay.

(** ** Liveness under a fair schedule *)

Section liveness.
Context {A C : Type} `{!Consumer A C}.
Implicit Types (d : disruptor A C).

(** The consumers' callbacks return (normally or by raising): a callback
    that never returns stalls its worker, and with it the producer. *)
Hypothesis consume_returns : forall (batch : list A) (c : C), (consume batch c).2 <> NoFuel.

Lemma run_cons d a sched : run d (a :: sched) = run (run d [a]) sched.
Proof. simpl. by destruct (exec d a). Qed.

Lemma run_reachable d sched : reachable d -> reachable (run d sched).
Proof.
  revert d. induction sched as [|a sched IH]; intros d Hd; simpl; [done|].
  destruct (exec d a) as [d'| |] eqn:E; apply IH; try done.
  destruct Hd as (name & size & h & d0 & Hc & Hrtc).
  exists name, size, h, d0. split; [done|]. eapply rtc_r; [exact Hrtc | by econstructor].
Qed.

Lemma deliver_returns h i c (batch : list A) : exists r, deliver h i c batch = Some r.
Proof.
  unfold deliver. pose proof (consume_returns batch c) as Hc.
  destruct (consume batch c) as [c' []]; simpl in Hc; eauto; done.
Qed.

Lemma work_shape d i d' :
  work d i = Done d' ->
  d_phase d' = d_phase d /\ length (d_consumers d') = length (d_consumers d) /\
  d_ring d' = d_ring d.
Proof.
  unfold work. destruct (d_consumers d !! i) as [[c ci]|]; [|done].
  case_decide; [|done]. destruct (RingBuffer.read_range _ _ _); [|done].
  destruct (deliver _ _ _ _) as [[[? ?] ?]|]; intros; simplify_eq/=.
  by rewrite length_insert.
Qed.

(** Consumers in [S] have caught up with the producer. *)
Definition caught (d : disruptor A C) (S : list nat) : Prop :=
  forall j c ci, j ∈ S -> d_consumers d !! j = Some (c, ci) -> ci = d_cursor d.

(** One worker iteration of a total consumer catches it up and keeps the
    ones already caught up. *)
Lemma work_catches_up d S i :
  reachable d -> caught d S ->
  caught (run d [Work i]) (S ++ [i]) /\ d_cursor (run d [Work i]) = d_cursor d /\
  d_phase (run d [Work i]) = d_phase d /\
  length (d_consumers (run d [Work i])) = length (d_consumers d) /\
  d_ring (run d [Work i]) = d_ring d.
Proof.
  intros Hd HS. simpl.
  destruct (d_consumers d !! i) as [[c ci]|] eqn:Ei; last first.
  { unfold work. rewrite Ei. split_and!; try done.
    intros j c' cj [Hj|Hj]%elem_of_app Hl; [by eapply HS|].
    apply list_elem_of_singleton in Hj as ->. congruence. }
  destruct (cursor_bounds d i c ci Hd Ei) as [[Hlo Hhi] _].
  destruct (decide (ci < d_cursor d)%Z) as [Hlt|Hge]; last first.
  { unfold work. rewrite Ei, decide_False by done. split_and!; try done.
    intros j c' cj [Hj|Hj]%elem_of_app Hl; [by eapply HS|].
    apply list_elem_of_singleton in Hj as ->. rewrite Ei in Hl. simplify_eq. lia. }
  destruct (work d i) as [d'| |] eqn:Ew; last first.
  1,2: exfalso; unfold work in Ew; rewrite Ei, decide_True in Ew by done;
    rewrite (worker_reads_published d i c ci Hd Ei Hlt) in Ew;
    destruct (deliver_returns (d_handler d) i c
      (drop (Z.to_nat (ci + 1)) (published (d_trace d)))) as [[[? ?] ?] Hdl];
    rewrite Hdl in Ew; done.
  destruct (work_isolation d d' i Ew) as (Hcur & [c' Hi'] & Hother).
  destruct (work_shape d i d' Ew) as (Hph & Hlen & Hring).
  split_and!; try done.
  intros j c'' cj [Hj|Hj]%elem_of_app Hl.
  - destruct (decide (j = i)) as [->|Hji]; [congruence|].
    destruct (Hother j Hji) as [Hl' _]. rewrite Hl' in Hl. rewrite Hcur. by eapply HS.
  - apply list_elem_of_singleton in Hj as ->. congruence.
Qed.

Lemma run_work_caught_up (l : list nat) d S :
  reachable d -> caught d S ->
  caught (run d (Work <$> l)) (S ++ l) /\ d_cursor (run d (Work <$> l)) = d_cursor d /\
  d_phase (run d (Work <$> l)) = d_phase d /\
  length (d_consumers (run d (Work <$> l))) = length (d_consumers d) /\
  d_ring (run d (Work <$> l)) = d_ring d.
Proof.
  revert d S. induction l as [|i l IH]; intros d S Hd HS.
  { simpl. by rewrite app_nil_r. }
  rewrite fmap_cons, run_cons.
  destruct (work_catches_up d S i Hd HS) as (HS' & Hc & Hp & Hl & Hr).
  destruct (IH (run d [Work i]) (S ++ [i])) as (HS'' & Hc' & Hp' & Hl' & Hr');
    [by apply run_reachable | done |].
  rewrite <-app_assoc in HS''. split_and!; [exact HS'' | congruence..].
Qed.

Lemma drain_caught_up d :
  reachable d ->
  (forall j c ci, d_consumers (drain d) !! j = Some (c, ci) -> ci = d_cursor (drain d)) /\
  d_cursor (drain d) = d_cursor d /\ d_phase (drain d) = d_phase d /\ d_ring (drain d) = d_ring d.
Proof.
  intros Hd. unfold drain.
  destruct (run_work_caught_up (seq 0 (length (d_consumers d))) d [] Hd) as (HS & Hc & Hp & Hl & Hr);
    [intros ? ? ? Hj; by apply not_elem_of_nil in Hj|].
  split_and!; try done. intros j c ci Hj. eapply HS; [|done].
  simpl. apply elem_of_seq. apply lookup_lt_Some in Hj. lia.
Qed.

Lemma gating_caught_up d :
  (forall j c ci, d_consumers d !! j = Some (c, ci) -> ci = d_cursor d) -> gating d = d_cursor d.
Proof.
  unfold gating, Barrier.gating. generalize (d_cursor d) (d_consumers d). clear d.
  intros x cs H. induction cs as [|[c ci] cs IH]; [done|]. csimpl.
  rewrite IH; [|intros j; apply (H (S j))]. rewrite (H 0%nat c ci); [lia | done].
Qed.

(** (liveness of [produce], 4.3). From any reachable state, once
    every worker has run, a publication of at most one capacity of items
    succeeds: the producer is never blocked for ever by consumers that
    make progress. *)
Theorem produce_liveness d items :
  reachable d -> d_phase d = NEW \/ d_phase d = RUNNING -> items <> [] ->
  (Z.of_nat (length items) <= RingBuffer.size (d_ring d))%Z ->
  exists d', produce (drain d) items = Done d'.
Proof.
  intros Hd Hph Hne Hle. destruct (drain_caught_up d Hd) as (Hall & Hc & Hp & Hr).
  unfold produce, Barrier.can_claim. rewrite Hp, (gating_caught_up _ Hall), Hr.
  destruct Hph as [-> | ->]; rewrite decide_False by done;
    rewrite bool_decide_true by lia; eauto.
Qed.
Lemma caught_up_all d :
  (forall j c ci, d_consumers d !! j = Some (c, ci) -> ci = d_cursor d) -> caught_up d = true.
Proof.
  intros H. unfold caught_up. apply forallb_forall. intros x Hx.
  apply list_elem_of_In, list_elem_of_lookup in Hx as [j Hj].
  rewrite list_lookup_fmap in Hj.
  destruct (d_consumers d !! j) as [[c ci]|] eqn:Ej; simplify_eq/=.
  apply bool_decide_eq_true. eauto.
Qed.

(** (liveness of [close()], 4.5). From any reachable state that is
    not yet CLOSED, [close()] followed by one iteration of every worker
    lets the drain finish: the dispatcher reaches CLOSED (where
    [graceful_close] applies). *)
Theorem close_liveness d :
  reachable d -> d_phase d <> CLOSED ->
  exists d', finish (drain (run d [Close])) = Done d' /\ d_phase d' = CLOSED /\ reachable d'.
Proof.
  intros Hd Hph. set (d1 := run d [Close]).
  assert (reachable d1) as Hd1 by apply run_reachable, Hd.
  assert (d_phase d1 = DRAINING) as Hph1.
  { subst d1. simpl. unfold close_begin. destruct (d_phase d) eqn:E; simpl; rewrite ?E; congruence. }
  destruct (drain_caught_up d1 Hd1) as (Hall & _ & Hp & _).
  assert (reachable (run (drain d1) [Finish])) as Hd2 by (apply run_reachable; unfold drain; apply run_reachable, Hd1).
  simpl in Hd2. unfold finish in Hd2 |- *. rewrite Hp, Hph1, (caught_up_all _ Hall) in Hd2 |- *.
  destruct (close_all 0 _). eauto.
Qed.
End liveness.

(** (an inconsistency of the specification). Section 3 states the
    claim test as [s - capacity < gating]; read literally, a ring of
    capacity 1 can never accept a publication, since the gating sequence
    never exceeds the producer cursor.  The dispatcher uses the test that
    matches invariant 2 and P4, [s - capacity <= gating]
    ([Barrier.can_claim]). *)
Theorem literal_claim_capacity_one (gate cursor n : Z) :
  (gate <= cursor)%Z -> (1 <= n)%Z ->
  Barrier.can_claim_literal 1 gate (cursor + n) = false /\
  (Barrier.can_claim 1 gate (cursor + n) = true <-> gate = cursor /\ n = 1%Z).
Proof.
  intros Hg Hn. unfold Barrier.can_claim_literal, Barrier.can_claim. split.
  - apply bool_decide_false. lia.
  - rewrite bool_decide_eq_true. lia.
Qed.
