(* ===== verification/BatchJson.v ===== *)
(** * [BatchJsonConsumer] of src/batch_json_example.py

    A consumer that re-batches what the bus hands it: [consume] appends the
    elements to [batch_buffer] and, while the buffer holds at least
    [batch_size] rows, cuts a batch off its front and processes it;
    [_process_batch] turns the batch into a Polars data frame, flattens it,
    computes a statistic, takes the next file number and writes
    [batch_NNNN.parquet] into the consumer's directory; [close] processes
    what is left.

    The state is [self] with the consumer's directory: a parquet file is
    modelled by the batch it was written from.  The library calls are
    parameters of the section: [to_frame] ([pl.from_dicts(batch)] and the
    four [unnest] calls), [total_amount] (the [amount] sum), both of which
    may raise, and [write_fails], the paths where [write_parquet] raises.
    [time.sleep] and [print] have no effect on the state and are left out.
    The [while] loop is a [py_while] with fuel; the theorems show that the
    fuel [consume] gives it suffices when [batch_size > 0], and that for
    [batch_size <= 0] no fuel is enough: the loop never ends normally. *)

From S2P Require Import Prelude Consumer PyFormat.

Local Open Scope string_scope.

Module BatchJson.
Section batch_json.
Context {Row Frame Amount : Type}.
Variable to_frame : list Row -> exn + Frame.
Variable total_amount : Frame -> exn + Amount.
Variable write_fails : string -> bool.

Record state : Type := mk_state {
  name : string;
  batch_size : Z;
  processed_count : Z;
  batch_buffer : list Row;
  file_counter : Z;
  output_dir : string;
  consumer_dir : string;
  files : gmap string (list Row)   (** the parquet files, by path *)
  }.

Definition set_buffer (s : state) (buf : list Row) : state :=
  {| name := name s; batch_size := batch_size s; processed_count := processed_count s;
     batch_buffer := buf; file_counter := file_counter s; output_dir := output_dir s;
     consumer_dir := consumer_dir s; files := files s |}.

Definition set_file_counter (s : state) (n : Z) : state :=
  {| name := name s; batch_size := batch_size s; processed_count := processed_count s;
     batch_buffer := batch_buffer s; file_counter := n; output_dir := output_dir s;
     consumer_dir := consumer_dir s; files := files s |}.

Definition set_processed_count (s : state) (n : Z) : state :=
  {| name := name s; batch_size := batch_size s; processed_count := n;
     batch_buffer := batch_buffer s; file_counter := file_counter s; output_dir := output_dir s;
     consumer_dir := consumer_dir s; files := files s |}.

Definition set_files (s : state) (fs : gmap string (list Row)) : state :=
  {| name := name s; batch_size := batch_size s; processed_count := processed_count s;
     batch_buffer := batch_buffer s; file_counter := file_counter s; output_dir := output_dir s;
     consumer_dir := consumer_dir s; files := fs |}.

(** [BatchJsonConsumer(name, batch_size=10, output_dir="data")]: the two
    [mkdir] calls create directories that the model names but does not
    hold. *)
Definition init (name : string) (batch_size : Z) (output_dir : string) : state :=
  {| name := name; batch_size := batch_size; processed_count := 0; batch_buffer := [];
     file_counter := 0; output_dir := output_dir;
     consumer_dir := output_dir ++ "/" ++ consumer_dir_name name; files := ∅ |}.

(** A library call that returns ([inr]) or raises ([inl]). *)
Definition py_call {A} (r : exn + A) : PyM state A :=
  fun s => (s, match r with inl e => Raise e | inr a => Ok a end).

(** [df.write_parquet(filepath, compression='snappy')] *)
Definition write_parquet (filepath : string) (batch : list Row) : PyM state unit :=
  fun s => if write_fails filepath
           then (s, Raise (PyExc "OSError" filepath))
           else (set_files s (<[filepath := batch]> (files s)), Ok tt).

(** [_process_batch(batch)] *)
Definition process_batch (batch : list Row) : PyM state unit :=
  (let* df := py_call (to_frame batch) in
   let* _ := py_call (total_amount df) in
   let* _ := py_modify (fun s => set_file_counter s (file_counter s + 1)) in
   let* s := py_get in
   let* _ := write_parquet (consumer_dir s ++ "/" ++ batch_filename (file_counter s)) batch in
   py_modify (fun s => set_processed_count s (processed_count s + py_len batch)))%py.

(** The [while] loop of [consume]. *)
Definition consume_loop (fuel : nat) : PyM state unit :=
  py_while fuel (fun s => bool_decide (batch_size s <= py_len (batch_buffer s))%Z)
    (let* s := py_get in
     let* _ := py_put (set_buffer s (py_drop (batch_size s) (batch_buffer s))) in
     process_batch (py_take (batch_size s) (batch_buffer s)))%py.

Definition consume_fuel (fuel : nat) (elements : list Row) : PyM state unit :=
  (let* _ := py_modify (fun s => set_buffer s (batch_buffer s ++ elements)) in
   consume_loop fuel)%py.

(** [consume(elements)], with one more unit of fuel than there are rows. *)
Definition consume (elements : list Row) : PyM state unit :=
  fun s => consume_fuel (S (length (batch_buffer s ++ elements))) elements s.

(** [close()] *)
Definition close : PyM state unit :=
  (let* s := py_get in
   if decide (batch_buffer s = []) then py_ret tt
   else let* _ := process_batch (batch_buffer s) in
        py_modify (fun s => set_buffer s []))%py.

Definition consumer_inst : Consumer Row state :=
  {| Consumer.consume := consume; Consumer.close := close |}.
End batch_json.
Arguments state : clear implicits.

(** ** The loop, one step at a time *)

Section steps.
Context {Row Frame Amount : Type}.
Variable to_frame : list Row -> exn + Frame.
Variable total_amount : Frame -> exn + Amount.
Variable write_fails : string -> bool.
Local Notation process_batch := (process_batch to_frame total_amount write_fails).
Local Notation consume_loop := (consume_loop to_frame total_amount write_fails).
Local Notation consume_fuel := (consume_fuel to_frame total_amount write_fails).
Implicit Types (s : state Row).

Definition batch_path s (n : Z) : string := consumer_dir s ++ "/" ++ batch_filename n.

(** The state after [_process_batch(batch)] succeeded. *)
Definition after_batch s (batch : list Row) : state Row :=
  set_processed_count
    (set_files (set_file_counter s (file_counter s + 1))
       (<[batch_path s (file_counter s + 1) := batch]> (files s)))
    (processed_count s + py_len batch).

(** The files written for [bs], numbered from [fc + 1]. *)
Fixpoint write_batches (dir : string) (fc : Z) (bs : list (list Row))
    (fs : gmap string (list Row)) : gmap string (list Row) :=
  match bs with
  | [] => fs
  | b :: bs' => write_batches dir (fc + 1) bs' (<[dir ++ "/" ++ batch_filename (fc + 1) := b]> fs)
  end.

Lemma consume_loop_S f s :
  consume_loop (S f) s =
  if bool_decide (batch_size s <= py_len (batch_buffer s))%Z then
    py_bind (process_batch (py_take (batch_size s) (batch_buffer s)))
      (fun _ => consume_loop f) (set_buffer s (py_drop (batch_size s) (batch_buffer s)))
  else (s, Ok tt).
Proof. reflexivity. Qed.

Lemma process_batch_ok s batch df a :
  to_frame batch = inr df -> total_amount df = inr a ->
  write_fails (batch_path s (file_counter s + 1)) = false ->
  process_batch batch s = (after_batch s batch, Ok tt).
Proof.
  intros Hf Ht Hw. unfold BatchJson.process_batch, py_call, write_parquet.
  py_unfold. rewrite Hf. simpl. rewrite Ht. simpl. unfold batch_path in Hw. simpl in Hw.
  by rewrite Hw.
Qed.

(** [_process_batch] fails without touching the files or the count of
    processed rows when [write_parquet] raises, but the file number it
    took is not given back. *)
Lemma process_batch_write_fails s batch df a :
  to_frame batch = inr df -> total_amount df = inr a ->
  write_fails (batch_path s (file_counter s + 1)) = true ->
  process_batch batch s =
  (set_file_counter s (file_counter s + 1),
   Raise (PyExc "OSError" (batch_path s (file_counter s + 1)))).
Proof.
  intros Hf Ht Hw. unfold BatchJson.process_batch, py_call, write_parquet.
  py_unfold. rewrite Hf. simpl. rewrite Ht. simpl. unfold batch_path in Hw. simpl in Hw.
  by rewrite Hw.
Qed.
(** The state after the loop has written every full batch. *)
Definition loop_result s : state Row :=
  let n := Z.to_nat (batch_size s) in
  let '(bs, r) := chunks n (batch_buffer s) in
  set_processed_count
    (set_files (set_file_counter (set_buffer s r) (file_counter s + Z.of_nat (length bs)))
       (write_batches (consumer_dir s) (file_counter s) bs (files s)))
    (processed_count s + Z.of_nat (n * length bs)).

(** What [_process_batch] leaves alone, on every path: it returns or
    raises, and keeps [batch_size], the buffer and the directory. *)
Lemma process_batch_frame batch s :
  (process_batch batch s).2 <> NoFuel /\
  batch_size (process_batch batch s).1 = batch_size s /\
  batch_buffer (process_batch batch s).1 = batch_buffer s /\
  consumer_dir (process_batch batch s).1 = consumer_dir s.
Proof.
  unfold BatchJson.process_batch, py_call, write_parquet. py_unfold.
  destruct (to_frame batch); simpl; [done|]. destruct (total_amount _); simpl; [done|].
  by destruct (write_fails _).
Qed.

(** The loop preserves any property of the state that [_process_batch]
    and the buffer update preserve, whatever the library calls do. *)
Lemma consume_loop_preserves (P : state Row -> Prop) f s :
  (forall s b, P s -> P (process_batch b s).1) ->
  (forall s buf, P s -> P (set_buffer s buf)) ->
  P s -> P (consume_loop f s).1.
Proof.
  intros Hp Hb. revert s. induction f as [|f IH]; intros s Hs; [done|].
  rewrite consume_loop_S. case_bool_decide; [|done]. unfold py_bind.
  specialize (Hp (set_buffer s (py_drop (batch_size s) (batch_buffer s)))
                 (py_take (batch_size s) (batch_buffer s)) (Hb _ _ Hs)).
  destruct (process_batch _ _) as [s1 [| |]]; simpl in *; auto.
Qed.

(** The state once [consume] has been handed [xs]: every full batch of
    the buffer followed by [xs] written out, the rest kept. *)
Definition rebatch s (xs : list Row) : state Row := loop_result (set_buffer s (batch_buffer s ++ xs)).

Lemma write_batches_app dir fc bs1 bs2 fs :
  write_batches dir fc (bs1 ++ bs2) fs =
  write_batches dir (fc + Z.of_nat (length bs1)) bs2 (write_batches dir fc bs1 fs).
Proof.
  revert fc fs. induction bs1 as [|b bs1 IH]; intros fc fs; simpl; [by rewrite Z.add_0_r|].
  rewrite IH. f_equal. lia.
Qed.

Lemma rebatch_eq s xs :
  let n := Z.to_nat (batch_size s) in
  let c := chunks n (batch_buffer s ++ xs) in
  rebatch s xs =
  mk_state (name s) (batch_size s) (processed_count s + Z.of_nat (n * length c.1)) c.2
    (file_counter s + Z.of_nat (length c.1)) (output_dir s) (consumer_dir s)
    (write_batches (consumer_dir s) (file_counter s) c.1 (files s)).
Proof.
  unfold rebatch, loop_result, set_processed_count, set_files, set_file_counter, set_buffer.
  cbn [name batch_size processed_count batch_buffer file_counter output_dir consumer_dir files].
  by destruct (chunks _ _).
Qed.

Lemma rebatch_batch_size s xs : batch_size (rebatch s xs) = batch_size s.
Proof. by rewrite rebatch_eq. Qed.

(** Handing over [xs] and then [ys] is handing over [xs ++ ys]. *)
Lemma rebatch_app s xs ys :
  (0 < batch_size s)%Z -> rebatch (rebatch s xs) ys = rebatch s (xs ++ ys).
Proof.
  intros Hbs. rewrite !rebatch_eq.
  cbn [name batch_size processed_count batch_buffer file_counter output_dir consumer_dir files].
  set (n := Z.to_nat (batch_size s)).
  rewrite (app_assoc (batch_buffer s) xs ys), (chunks_app n (batch_buffer s ++ xs) ys) by lia.
  destruct (chunks n (batch_buffer s ++ xs)) as [bs1 r1]. cbn [fst snd].
  rewrite write_batches_app, length_app. f_equal; lia.
Qed.

(** A fresh consumer, its buffer empty, is [rebatch] of nothing. *)
Lemma rebatch_nil s : (0 < batch_size s)%Z -> batch_buffer s = [] -> rebatch s [] = s.
Proof.
  intros Hbs Hb. rewrite rebatch_eq, Hb. cbn zeta. rewrite chunks_stop by (simpl; lia).
  destruct s; simpl in *. subst. f_equal; lia.
Qed.

Section success.
(** The library calls all succeed. *)
Hypothesis frame_ok : forall b, exists df, to_frame b = inr df.
Hypothesis total_ok : forall df, exists a, total_amount df = inr a.
Hypothesis write_ok : forall p, write_fails p = false.

Lemma process_batch_succeeds s batch : process_batch batch s = (after_batch s batch, Ok tt).
Proof.
  destruct (frame_ok batch) as [df Hf]. destruct (total_ok df) as [a Ha].
  by apply (process_batch_ok s batch df a).
Qed.

Lemma consume_loop_ok f s :
  (0 < batch_size s)%Z -> (length (batch_buffer s) < f)%nat ->
  consume_loop f s = (loop_result s, Ok tt).
Proof.
  revert s. induction f as [|f IH]; intros s Hbs Hf; [lia|].
  rewrite consume_loop_S. set (n := Z.to_nat (batch_size s)).
  case_bool_decide as Hc; unfold py_len in Hc.
  - rewrite py_take_nonneg, py_drop_nonneg by lia. fold n.
    rewrite (py_bind_ok _ _ _ _ tt (process_batch_succeeds _ _)).
    rewrite IH; [| done | simpl; rewrite length_drop; lia].
    unfold loop_result. simpl. fold n.
    rewrite (chunks_step n (batch_buffer s)) by lia.
    destruct (chunks n (drop n (batch_buffer s))) as [bs r]. simpl.
    unfold set_processed_count, set_files, set_file_counter, set_buffer, batch_path. simpl.
    assert (py_len (take n (batch_buffer s)) = Z.of_nat n) as Ht
      by (unfold py_len; rewrite length_take; lia).
    rewrite Ht.
    replace (file_counter s + Z.of_nat (S (length bs)))%Z
      with (file_counter s + 1 + Z.of_nat (length bs))%Z by lia.
    by replace (processed_count s + Z.of_nat (n * S (length bs)))%Z
      with (processed_count s + Z.of_nat n + Z.of_nat (n * length bs))%Z by lia.
  - unfold loop_result. fold n. rewrite chunks_stop by lia. simpl.
    unfold set_processed_count, set_files, set_file_counter, set_buffer; simpl.
    rewrite Nat.mul_0_r, !Z.add_0_r. by destruct s.
Qed.

(** C18 (functional behaviour of [consume]; equivalence with the
    reference [chunks]). With a positive [batch_size] and library calls
    that succeed, [consume(elements)] returns, and it has written one
    parquet file per full batch of [batch_size] rows cut off the front
    of [batch_buffer + elements], numbered on from [file_counter]; the
    batches and the new buffer put together are exactly the old buffer
    followed by the elements, and fewer than [batch_size] rows remain. *)
Theorem consume_rebatches s elements :
  (0 < batch_size s)%Z ->
  let n := Z.to_nat (batch_size s) in
  let bs := (chunks n (batch_buffer s ++ elements)).1 in
  exists s', consume to_frame total_amount write_fails elements s = (s', Ok tt) /\
    (concat bs ++ batch_buffer s' = batch_buffer s ++ elements)%list /\
    Forall (fun b => length b = n) bs /\ (length (batch_buffer s') < n)%nat /\
    files s' = write_batches (consumer_dir s) (file_counter s) bs (files s) /\
    file_counter s' = (file_counter s + Z.of_nat (length bs))%Z /\
    processed_count s' = (processed_count s + Z.of_nat (n * length bs))%Z.
Proof.
  intros Hbs n bs. unfold BatchJson.consume, BatchJson.consume_fuel. py_unfold.
  rewrite consume_loop_ok by (simpl; lia || (rewrite length_app; lia)).
  eexists. split; [reflexivity|].
  destruct (chunks_spec n (batch_buffer s ++ elements)) as (Hc & Hf & Hr); [lia|].
  unfold loop_result, bs in *. simpl. fold n.
  destruct (chunks n (batch_buffer s ++ elements)) as [bs' r]. simpl in *. done.
Qed.

Lemma consume_rebatch s xs :
  (0 < batch_size s)%Z -> consume to_frame total_amount write_fails xs s = (rebatch s xs, Ok tt).
Proof.
  intros Hbs. unfold BatchJson.consume, BatchJson.consume_fuel. py_unfold.
  rewrite consume_loop_ok by (simpl; lia || (rewrite length_app; lia)). reflexivity.
Qed.

(** Handed the batches [bs] one [consume] call each, a consumer ends as
    if handed them all at once. *)
Lemma feed_rebatch s xs bs :
  (0 < batch_size s)%Z ->
  @feed _ _ (consumer_inst to_frame total_amount write_fails) (rebatch s xs) bs =
  rebatch s (xs ++ concat bs).
Proof.
  unfold feed. revert xs. induction bs as [|b bs IH]; intros xs Hbs; simpl; [by rewrite app_nil_r|].
  rewrite consume_rebatch by (by rewrite rebatch_batch_size). simpl.
  rewrite rebatch_app, IH, app_assoc by done. done.
Qed.

End success.


Lemma consume_loop_returns f s :
  (0 < batch_size s)%Z -> (length (batch_buffer s) < f)%nat -> (consume_loop f s).2 <> NoFuel.
Proof.
  revert s. induction f as [|f IH]; intros s Hbs Hf; [lia|].
  rewrite consume_loop_S. case_bool_decide as Hc; [|done]. unfold py_len in Hc.
  unfold py_bind.
  destruct (process_batch_frame (py_take (batch_size s) (batch_buffer s))
              (set_buffer s (py_drop (batch_size s) (batch_buffer s)))) as (Hn & Hs & Hb & _).
  destruct (process_batch _ _) as [s1 [[]| |]]; simpl in *; try done.
  apply IH; [by rewrite Hs|]. rewrite Hb, py_drop_nonneg, length_drop by lia. lia.
Qed.

(** With [batch_size <= 0] the [while] test always holds: the loop ends
    only by an exception or by running out of fuel. *)
Lemma consume_loop_never_ok f s :
  (batch_size s <= 0)%Z -> (consume_loop f s).2 <> Ok tt.
Proof.
  revert s. induction f as [|f IH]; intros s Hbs; [done|].
  rewrite consume_loop_S, bool_decide_true by (unfold py_len; lia). unfold py_bind.
  destruct (process_batch_frame (py_take (batch_size s) (batch_buffer s))
              (set_buffer s (py_drop (batch_size s) (batch_buffer s)))) as (_ & Hs & _).
  destruct (process_batch _ _) as [s1 [[]| |]]; simpl in *; try done.
  apply IH. by rewrite Hs.
Qed.

(** C20 (a [batch_size] that is not positive: [consume] never returns).
    When [batch_size <= 0] the [while] condition [len(buffer) >=
    batch_size] always holds, whatever the library calls do: for every
    amount of fuel, [consume] either raises (when the library rejects a
    slice [buffer[:batch_size]], e.g. Polars on the empty batch) or is
    still looping; it never returns normally. *)
Theorem consume_never_returns s elements fuel :
  (batch_size s <= 0)%Z ->
  (consume_fuel fuel elements s).2 <> Ok tt.
Proof.
  intros Hbs. unfold BatchJson.consume_fuel. py_unfold. by apply consume_loop_never_ok.
Qed.

(** C19 (termination of [consume]). With a positive [batch_size] the
    [while] loop ends within the fuel [consume] gives it, whatever the
    library calls do: [consume] returns or raises, it never hangs. *)
Theorem consume_terminates s elements :
  (0 < batch_size s)%Z -> (consume to_frame total_amount write_fails elements s).2 <> NoFuel.
Proof.
  intros Hbs. unfold BatchJson.consume, BatchJson.consume_fuel. py_unfold.
  apply consume_loop_returns; simpl; [done | rewrite length_app; lia].
Qed.

(** C21 (a failed write loses the batch). When [write_parquet] raises on
    the first full batch, [consume] raises [OSError]; the batch has already
    been cut off the buffer and is in no file, and the file number it took
    is not given back, so the rows of the batch are lost. *)
Theorem consume_write_failure_loses_batch s elements df a :
  let n := Z.to_nat (batch_size s) in
  let batch := take n (batch_buffer s ++ elements) in
  (0 < batch_size s)%Z -> (n <= length (batch_buffer s ++ elements))%nat ->
  to_frame batch = inr df -> total_amount df = inr a ->
  write_fails (batch_path s (file_counter s + 1)) = true ->
  exists s', consume to_frame total_amount write_fails elements s =
               (s', Raise (PyExc "OSError" (batch_path s (file_counter s + 1)))) /\
    batch_buffer s' = drop n (batch_buffer s ++ elements) /\
    files s' = files s /\ file_counter s' = (file_counter s + 1)%Z /\
    processed_count s' = processed_count s.
Proof.
  intros n batch Hbs Hn Hf Ht Hw. unfold BatchJson.consume, BatchJson.consume_fuel. py_unfold.
  simpl. rewrite consume_loop_S, bool_decide_true by (unfold py_len; simpl; lia).
  simpl. rewrite py_take_nonneg, py_drop_nonneg by lia. fold n. fold batch.
  unfold py_bind. erewrite process_batch_write_fails; [| exact Hf | exact Ht | exact Hw].
  by eexists.
Qed.

(** The state after [close()] when the buffer held rows and the last
    batch was written. *)
Lemma close_nonempty s df a :
  batch_buffer s <> [] ->
  to_frame (batch_buffer s) = inr df -> total_amount df = inr a ->
  write_fails (batch_path s (file_counter s + 1)) = false ->
  close to_frame total_amount write_fails s =
  (set_buffer (after_batch s (batch_buffer s)) [], Ok tt).
Proof.
  intros Hne Hf Ht Hw. unfold BatchJson.close. py_unfold. rewrite decide_False by done.
  by rewrite (process_batch_ok _ _ df a Hf Ht Hw).
Qed.

(** C22 (functional behaviour of [close]). [close()] with an empty buffer
    does nothing; with a non-empty one it writes the rows left over as the
    next numbered file, counts them, and empties the buffer. *)
Theorem close_flushes s df a :
  (batch_buffer s = [] -> close to_frame total_amount write_fails s = (s, Ok tt)) /\
  (batch_buffer s <> [] ->
   to_frame (batch_buffer s) = inr df -> total_amount df = inr a ->
   write_fails (batch_path s (file_counter s + 1)) = false ->
   exists s', close to_frame total_amount write_fails s = (s', Ok tt) /\
     batch_buffer s' = [] /\
     files s' = <[batch_path s (file_counter s + 1) := batch_buffer s]> (files s) /\
     file_counter s' = (file_counter s + 1)%Z /\
     processed_count s' = (processed_count s + py_len (batch_buffer s))%Z).
Proof.
  split.
  - intros He. unfold BatchJson.close. py_unfold. by rewrite decide_True.
  - intros Hne Hf Ht Hw. rewrite (close_nonempty s df a) by done. by eexists.
Qed.

(** ** The parquet files are never overwritten *)

(** The file counter is not negative and every file of the consumer's
    directory is [batch_k.parquet] for a [k] in [1 .. file_counter]. *)
Definition files_inv s : Prop :=
  (0 <= file_counter s)%Z /\
  map_Forall (fun p _ => exists k, (1 <= k <= file_counter s)%Z /\ p = batch_path s k) (files s).

(** [s1] extends [s]: the invariant holds of [s1], and every file of [s]
    is still there with its contents. *)
Definition grows s s1 : Prop :=
  files_inv s1 /\ files s ⊆ files s1 /\ consumer_dir s1 = consumer_dir s /\
  (file_counter s <= file_counter s1)%Z.

Lemma batch_path_inj s n m : batch_path s n = batch_path s m -> n = m.
Proof.
  unfold batch_path. intros H. do 2 apply string_app_inj_l in H.
  by apply batch_filename_inj.
Qed.

Lemma grows_trans s s1 s2 : grows s s1 -> grows s1 s2 -> grows s s2.
Proof.
  intros (_ & H1 & D1 & C1) (I2 & H2 & D2 & C2). split_and!; [done | by trans (files s1) | congruence | lia].
Qed.

Lemma files_inv_fresh s : files_inv s -> files s !! batch_path s (file_counter s + 1) = None.
Proof.
  intros [_ Hi]. destruct (files s !! _) as [b|] eqn:E; [|done].
  destruct (Hi _ _ E) as (k & Hk & Hp). apply batch_path_inj in Hp. lia.
Qed.

Lemma process_batch_grows batch s : files_inv s -> grows s (process_batch batch s).1.
Proof.
  intros Hi. unfold BatchJson.process_batch, py_call, write_parquet. py_unfold.
  assert (grows s s) as Hr by (split_and!; done || lia).
  destruct (to_frame batch); simpl; [done|]. destruct (total_amount _); simpl; [done|].
  pose proof (files_inv_fresh s Hi) as Hfr. destruct Hi as [Hc Hi].
  destruct (write_fails _); simpl.
  - unfold grows, files_inv; split_and!; simpl; try done; [lia| |lia]. eapply map_Forall_impl; [exact Hi|].
    intros p _ (k & Hk & ->). exists k. simpl. split; [lia | done].
  - unfold grows, files_inv; split_and!; simpl; try done; [lia| | |lia].
    + apply map_Forall_insert_2; [exists (file_counter s + 1)%Z; simpl; split; [lia | done]|].
      eapply map_Forall_impl; [exact Hi|]. intros p _ (k & Hk & ->). exists k. simpl. split; [lia | done].
    + by apply insert_subseteq.
Qed.

Lemma consume_grows elements s :
  files_inv s -> grows s (consume to_frame total_amount write_fails elements s).1.
Proof.
  intros Hi. unfold BatchJson.consume, BatchJson.consume_fuel. py_unfold.
  apply (consume_loop_preserves (grows s)).
  - intros s1 b Hs1. eapply grows_trans; [done|]. apply process_batch_grows, Hs1.
  - by intros s1 buf (? & ? & ? & ?); split_and!.
  - split_and!; done || simpl; lia.
Qed.

(** C23 (invariant: no parquet file is overwritten). Whatever the library
    calls do, raising or not, [consume] and [close] preserve the invariant
    that the files are [batch_k.parquet] for [k <= file_counter], and they
    only add files: every file written before is still there unchanged.
    (Across two consumers with colliding directories this no longer holds;
    see [consumer_dir_collision].) *)
Theorem no_overwrite s elements :
  files_inv s ->
  grows s (consume to_frame total_amount write_fails elements s).1 /\
  grows s (close to_frame total_amount write_fails s).1.
Proof.
  intros Hi. split; [by apply consume_grows|].
  unfold BatchJson.close. py_unfold. case_decide; [split_and!; done || lia|].
  unfold py_bind. pose proof (process_batch_grows (batch_buffer s) s Hi) as Hg.
  destruct (process_batch _ _) as [s1 [| |]]; simpl in *; [|done..].
  destruct Hg as (? & ? & ? & ?). by split_and!.
Qed.
End steps.

(** ** A concrete consumer

    [BatchJsonConsumer("Consumer 1", batch_size=2, output_dir="data")] over
    integer rows, with a data frame that is the batch itself, the statistic
    its sum, and a file system where every write succeeds ([demo_ok]) or
    where the first batch file cannot be written ([demo_fail]). *)
Section demo.
Definition demo_frame (b : list Z) : exn + list Z := inr b.
Definition demo_total (df : list Z) : exn + Z := inr (foldr Z.add 0%Z df).
Definition demo_ok (p : string) : bool := false.
(** [pl.from_dicts([]).unnest("user")] raises: an empty frame has no
    [user] column. *)
Definition polars_frame (b : list Z) : exn + list Z :=
  if b is [] then inl (PyExc "ColumnNotFoundError" "user") else inr b.
Definition demo_fail (p : string) : bool :=
  bool_decide (p = "data/consumer_1/batch_0001.parquet").
Definition demo_s : state Z := init "Consumer 1" 2 "data".
Definition demo_zero : state Z := init "Consumer 1" 0 "data".

Lemma consume_rebatches_witness :
  (0 < batch_size demo_s)%Z /\
  let n := Z.to_nat (batch_size demo_s) in
  let bs := (chunks n (batch_buffer demo_s ++ [1; 2; 3]%Z)).1 in
  exists s', consume demo_frame demo_total demo_ok [1; 2; 3]%Z demo_s = (s', Ok tt) /\
    (concat bs ++ batch_buffer s' = batch_buffer demo_s ++ [1; 2; 3]%Z)%list /\
    Forall (fun b => length b = n) bs /\ (length (batch_buffer s') < n)%nat /\
    files s' = write_batches (consumer_dir demo_s) (file_counter demo_s) bs (files demo_s) /\
    file_counter s' = (file_counter demo_s + Z.of_nat (length bs))%Z /\
    processed_count s' = (processed_count demo_s + Z.of_nat (n * length bs))%Z.
Proof.
  split; [reflexivity|]. apply consume_rebatches; [| | | reflexivity].
  - intros b. eexists. reflexivity.
  - intros df. eexists. reflexivity.
  - intros p. reflexivity.
Defined.

Lemma consume_terminates_witness :
  (0 < batch_size demo_s)%Z /\
  (consume demo_frame demo_total demo_fail [1; 2; 3]%Z demo_s).2 <> NoFuel.
Proof. split; [reflexivity|]. apply consume_terminates. reflexivity. Defined.

(** With [batch_size = 0] and Polars rejecting the empty batch,
    [consume] raises on its first iteration. *)
Lemma consume_never_returns_witness :
  (batch_size demo_zero <= 0)%Z /\
  (consume_fuel polars_frame demo_total demo_ok 5 [1; 2; 3]%Z demo_zero).2 <> Ok tt /\
  (consume_fuel polars_frame demo_total demo_ok 5 [1; 2; 3]%Z demo_zero).2 =
    Raise (PyExc "ColumnNotFoundError" "user").
Proof.
  split; [discriminate|]. split; [apply consume_never_returns; discriminate|].
  vm_compute. reflexivity.
Defined.

Lemma consume_write_failure_loses_batch_witness :
  exists s', consume demo_frame demo_total demo_fail [1; 2; 3]%Z demo_s =
               (s', Raise (PyExc "OSError" (batch_path demo_s (file_counter demo_s + 1)))) /\
    batch_buffer s' = drop 2 (batch_buffer demo_s ++ [1; 2; 3]%Z) /\
    files s' = files demo_s /\ file_counter s' = (file_counter demo_s + 1)%Z /\
    processed_count s' = processed_count demo_s.
Proof.
  eapply (consume_write_failure_loses_batch demo_frame demo_total demo_fail demo_s
            [1; 2; 3]%Z [1; 2]%Z 3%Z); first [vm_compute; reflexivity | vm_compute; lia].
Defined.

Lemma close_flushes_witness :
  let s := set_buffer demo_s [7]%Z in
  exists s', close demo_frame demo_total demo_ok s = (s', Ok tt) /\
    batch_buffer s' = [] /\
    files s' = <[batch_path s (file_counter s + 1) := batch_buffer s]> (files s) /\
    file_counter s' = (file_counter s + 1)%Z /\
    processed_count s' = (processed_count s + py_len (batch_buffer s))%Z.
Proof.
  intros s. apply (close_flushes demo_frame demo_total demo_ok s [7]%Z 7%Z);
    [discriminate | reflexivity..].
Defined.

Lemma no_overwrite_witness :
  files_inv demo_s /\
  grows demo_s (consume demo_frame demo_total demo_fail [1; 2; 3; 4; 5]%Z demo_s).1 /\
  grows demo_s (close demo_frame demo_total demo_fail demo_s).1.
Proof.
  assert (files_inv demo_s) as Hi by (split; [vm_compute; discriminate | apply map_Forall_empty]).
  split; [exact Hi | apply no_overwrite, Hi].
Defined.
End demo.
End BatchJson.
