(* ===== verification/FaultTolerant.v ===== *)
(** * [FaultTolerantBatchConsumer] of src/fault_tolerant_example.py

    The re-batching consumer of [BatchJson] made fault tolerant: each batch
    is processed by [_process_batch_with_retry], which retries a failing
    [_process_batch] up to [max_retries] times and then counts an error and
    sends the batch to a dead-letter queue (a JSON file under [dlq/]);
    [_process_batch] fails at random (5% of the calls), rolls the file
    counter back when the parquet write fails, and saves a checkpoint
    ([checkpoint.json]: the last batch number and the processed count) after
    every batch written; the constructor resumes from that checkpoint.

    The state is [self] together with what the consumer touches outside
    itself: the files under its directory (a [gmap] from path to [file]), a
    counter of the draws made from [random]'s generator, and the lines
    logged at WARNING and ERROR level.  The library calls and the random
    source are variables of the section: [to_frame] ([pl.from_dicts] and the
    [unnest] calls; may raise), [total_amount] (the [amount] sum; its failure
    is caught), [write_fails] (the paths where writing raises, for parquet,
    JSON and checkpoint files alike), [sim_fail k] (whether the [k]-th draw
    [random.random() < 0.05] holds), and [clock k] and [randint k] (the
    [int(time.time())] and [random.randint(1000, 9999)] of the [k]-th DLQ
    file name).  [time.sleep(delay)] between two attempts is modelled by
    what it can do to the program: it raises [ValueError] for a negative
    delay and [OverflowError] for one too long for CPython's 64-bit
    nanosecond count, and otherwise only lets time pass ([py_sleep]).
    [max_depth] is how many nested calls of [_process_batch_with_retry]
    the interpreter's recursion limit leaves room for: the call with
    [retry_count = rc] raises [RecursionError] when [rc >= max_depth]
    (a recursion error inside the library calls of [_process_batch] is
    one of the exceptions those calls may raise).  The INFO lines, the
    traceback line of [consume] and the time stamps written into JSON
    files change nothing that is observed here and are left out; so are
    the directories created by [mkdir], which hold no data of their own. *)

From S2P Require Import Prelude Consumer PyFormat.
From Stdlib Require Import Ascii QArith Qround Lqa.

Local Open Scope string_scope.

Module FaultTolerant.

(** The files the consumer writes. *)
Inductive file (Row : Type) : Type :=
  | Parquet (rows : list Row)
  | CheckpointJson (last_batch_number processed_count : option Z)
    (** a JSON object with these keys, when present *)
  | DlqJson (error : string) (batch_size : Z) (data : list Row)
  | Unreadable.                       (** not a JSON object *)
Arguments Parquet {Row} rows.
Arguments CheckpointJson {Row} last_batch_number processed_count.
Arguments DlqJson {Row} error batch_size data.
Arguments Unreadable {Row}.

#[export] Instance file_eq_dec {Row} `{!EqDecision Row} : EqDecision (file Row).
Proof. solve_decision. Defined.

Section fault_tolerant.
Context {Row Frame Amount : Type}.
Variable to_frame : list Row -> exn + Frame.
Variable total_amount : Frame -> exn + Amount.
Variable write_fails : string -> bool.
Variable sim_fail : nat -> bool.
Variable clock randint : nat -> Z.
Variable max_depth : Z.

Record state : Type := mk_state {
  name : string;
  batch_size : Z;
  processed_count : Z;
  error_count : Z;
  retry_count : Z;
  batch_buffer : list Row;
  file_counter : Z;
  max_retries : Z;
  retry_delay : Q;
  enable_dlq : bool;
  consumer_dir : string;
  fs : gmap string (file Row);    (** the files, by path *)
  rng : nat;                      (** draws made so far *)
  log : list string               (** WARNING and ERROR lines *)
  }.

Definition set_processed_count (s : state) (v : Z) : state :=
  {| name := name s; batch_size := batch_size s; processed_count := v;
     error_count := error_count s; retry_count := retry_count s; batch_buffer := batch_buffer s;
     file_counter := file_counter s; max_retries := max_retries s; retry_delay := retry_delay s; enable_dlq := enable_dlq s;
     consumer_dir := consumer_dir s; fs := fs s; rng := rng s;
     log := log s |}.

Definition set_error_count (s : state) (v : Z) : state :=
  {| name := name s; batch_size := batch_size s; processed_count := processed_count s;
     error_count := v; retry_count := retry_count s; batch_buffer := batch_buffer s;
     file_counter := file_counter s; max_retries := max_retries s; retry_delay := retry_delay s; enable_dlq := enable_dlq s;
     consumer_dir := consumer_dir s; fs := fs s; rng := rng s;
     log := log s |}.

Definition set_retry_count (s : state) (v : Z) : state :=
  {| name := name s; batch_size := batch_size s; processed_count := processed_count s;
     error_count := error_count s; retry_count := v; batch_buffer := batch_buffer s;
     file_counter := file_counter s; max_retries := max_retries s; retry_delay := retry_delay s; enable_dlq := enable_dlq s;
     consumer_dir := consumer_dir s; fs := fs s; rng := rng s;
     log := log s |}.

Definition set_buffer (s : state) (v : list Row) : state :=
  {| name := name s; batch_size := batch_size s; processed_count := processed_count s;
     error_count := error_count s; retry_count := retry_count s; batch_buffer := v;
     file_counter := file_counter s; max_retries := max_retries s; retry_delay := retry_delay s; enable_dlq := enable_dlq s;
     consumer_dir := consumer_dir s; fs := fs s; rng := rng s;
     log := log s |}.

Definition set_file_counter (s : state) (v : Z) : state :=
  {| name := name s; batch_size := batch_size s; processed_count := processed_count s;
     error_count := error_count s; retry_count := retry_count s; batch_buffer := batch_buffer s;
     file_counter := v; max_retries := max_retries s; retry_delay := retry_delay s; enable_dlq := enable_dlq s;
     consumer_dir := consumer_dir s; fs := fs s; rng := rng s;
     log := log s |}.

Definition set_fs (s : state) (v : gmap string (file Row)) : state :=
  {| name := name s; batch_size := batch_size s; processed_count := processed_count s;
     error_count := error_count s; retry_count := retry_count s; batch_buffer := batch_buffer s;
     file_counter := file_counter s; max_retries := max_retries s; retry_delay := retry_delay s; enable_dlq := enable_dlq s;
     consumer_dir := consumer_dir s; fs := v; rng := rng s;
     log := log s |}.

Definition set_rng (s : state) (v : nat) : state :=
  {| name := name s; batch_size := batch_size s; processed_count := processed_count s;
     error_count := error_count s; retry_count := retry_count s; batch_buffer := batch_buffer s;
     file_counter := file_counter s; max_retries := max_retries s; retry_delay := retry_delay s; enable_dlq := enable_dlq s;
     consumer_dir := consumer_dir s; fs := fs s; rng := v;
     log := log s |}.

Definition set_log (s : state) (v : list string) : state :=
  {| name := name s; batch_size := batch_size s; processed_count := processed_count s;
     error_count := error_count s; retry_count := retry_count s; batch_buffer := batch_buffer s;
     file_counter := file_counter s; max_retries := max_retries s; retry_delay := retry_delay s; enable_dlq := enable_dlq s;
     consumer_dir := consumer_dir s; fs := fs s; rng := rng s;
     log := v |}.

(** [self.checkpoint_file], [self.dlq_dir] and a parquet file's path. *)
Definition checkpoint_file (s : state) : string := consumer_dir s ++ "/" ++ "checkpoint.json".
Definition dlq_dir (s : state) : string := consumer_dir s ++ "/" ++ "dlq".
Definition batch_path (s : state) (n : Z) : string := consumer_dir s ++ "/" ++ batch_filename n.

(** [logger.error(f"{self.name}: {msg}")] and [logger.warning] alike. *)
Definition py_log (msg : string) : PyM state unit :=
  py_modify (fun s => set_log s (log s ++ [name s ++ ": " ++ msg])).

Definition py_call {A} (r : exn + A) : PyM state A :=
  fun s => (s, match r with inl e => Raise e | inr a => Ok a end).

(** [time.sleep(secs)] converts the float [secs] (here exact) to whole
    nanoseconds, rounding away from zero ([_PyTime_ROUND_TIMEOUT]). *)
Definition sleep_ns (secs : Q) : Z :=
  let x := (secs * inject_Z (10 ^ 9))%Q in
  if Qlt_le_dec x 0 then Qfloor x else Qceiling x.

(** [time.sleep(secs)]: [OverflowError] when the nanoseconds do not fit a
    signed 64-bit integer, [ValueError] when they are negative; otherwise
    the thread sleeps, which changes nothing observed here. *)
Definition py_sleep (secs : Q) : PyM state unit :=
  let ns := sleep_ns secs in
  if decide (- 2 ^ 63 <= ns < 2 ^ 63)%Z then
    if decide (ns < 0)%Z then py_raise (PyExc "ValueError" "sleep length must be non-negative")
    else py_ret tt
  else py_raise (PyExc "OverflowError" "timestamp too large to convert to C _PyTime_t").

(** [_load_checkpoint()] *)
Definition load_checkpoint (s : state) : state :=
  match fs s !! checkpoint_file s with
  | None => s
  | Some (CheckpointJson lbn pc) =>
      set_processed_count (set_file_counter s (default 0%Z lbn)) (default 0%Z pc)
  | Some _ =>
      set_log s (log s ++ [name s ++ ": Failed to load checkpoint: Expecting value"])
  end.

(** [FaultTolerantBatchConsumer(name, batch_size, output_dir, max_retries,
    retry_delay, enable_dlq)], constructed over the files [fs0] with the
    generator at draw [rng0]. *)
Definition init (name : string) (batch_size : Z) (output_dir : string) (max_retries : Z)
    (retry_delay : Q) (enable_dlq : bool) (fs0 : gmap string (file Row)) (rng0 : nat) : state :=
  load_checkpoint
    {| name := name; batch_size := batch_size; processed_count := 0; error_count := 0;
       retry_count := 0; batch_buffer := []; file_counter := 0; max_retries := max_retries;
       retry_delay := retry_delay; enable_dlq := enable_dlq; consumer_dir := output_dir ++ "/" ++ consumer_dir_name name;
       fs := fs0; rng := rng0; log := [] |}.

(** [_save_checkpoint()]: an error is logged, never raised. *)
Definition save_checkpoint : PyM state unit :=
  fun s =>
    let p := checkpoint_file s in
    if write_fails p
    then py_log ("Failed to save checkpoint: " ++ exn_msg (PyExc "OSError" p)) s
    else (set_fs s (<[p := CheckpointJson (Some (file_counter s)) (Some (processed_count s))]> (fs s)),
          Ok tt).

(** [random.random() < 0.05], one draw. *)
Definition random_fail : PyM state bool :=
  fun s => (set_rng s (S (rng s)), Ok (sim_fail (rng s))).

(** [df.write_parquet(filepath, compression='snappy')] *)
Definition write_parquet (filepath : string) (batch : list Row) : PyM state unit :=
  fun s => if write_fails filepath
           then (s, Raise (PyExc "OSError" filepath))
           else (set_fs s (<[filepath := Parquet batch]> (fs s)), Ok tt).

(** [_process_batch(batch)] (lines 186-231). *)
Definition process_batch (batch : list Row) : PyM state unit :=
  (let* fail := random_fail in
   if fail then py_raise (PyExc "Exception" "Simulated processing error") else
   let* df := (try* py_call (to_frame batch) except e =>
                 let* _ := py_log ("Error creating DataFrame: " ++ exn_msg e) in py_raise e) in
   let* _ := match total_amount df with
             | inl e => py_log ("Error calculating statistics: " ++ exn_msg e)
             | inr _ => py_ret tt
             end in
   let* _ := py_modify (fun s => set_file_counter s (file_counter s + 1)) in
   let* s := py_get in
   let filepath := batch_path s (file_counter s) in
   let* _ := (try* write_parquet filepath batch except e =>
                let* _ := py_log ("Error writing Parquet file: " ++ exn_msg e) in
                let* _ := py_modify (fun s => set_file_counter s (file_counter s - 1)) in
                py_raise e) in
   let* _ := py_modify (fun s => set_processed_count s (processed_count s + py_len batch)) in
   save_checkpoint)%py.

(** The name of a DLQ file, [f"dlq_batch_{int(time.time())}_{random.randint(1000, 9999)}.json"]. *)
Definition dlq_filename (t r : Z) : string :=
  "dlq_batch_" ++ py_str_int t ++ "_" ++ py_str_int r ++ ".json".

(** [_send_to_dlq(batch, error_message)] (lines 233-252): an error is
    logged, never raised. *)
Definition send_to_dlq (batch : list Row) (error_message : string) : PyM state unit :=
  (let* s := py_get in
   let fname := dlq_filename (clock (rng s)) (randint (rng s)) in
   let path := dlq_dir s ++ "/" ++ fname in
   let* _ := py_put (set_rng s (S (rng s))) in
   if write_fails path
   then py_log ("Failed to write to DLQ: " ++ exn_msg (PyExc "OSError" path))
   else let* _ := py_modify (fun s =>
                    set_fs s (<[path := DlqJson error_message (py_len batch) batch]> (fs s))) in
        py_log ("Batch sent to DLQ: " ++ fname))%py.

(** [_process_batch_with_retry(batch, retry_count)] (lines 164-184): the
    call raises [RecursionError] past [max_depth] nested calls; the delay
    [self.retry_delay * (2 ** retry_count)] is slept before the retry; the
    recursion is bounded by the fuel. *)
Fixpoint retry (fuel : nat) (batch : list Row) (rc : Z) : PyM state unit :=
  match fuel with
  | O => fun s => (s, NoFuel)
  | S f =>
      if decide (max_depth <= rc)%Z
      then py_raise (PyExc "RecursionError" "maximum recursion depth exceeded") else
      (try* process_batch batch except e =>
         let* s := py_get in
         let* _ := py_log ("Error processing batch (attempt " ++ py_str_int (rc + 1) ++ "/" ++
                             py_str_int (max_retries s) ++ "): " ++ exn_msg e) in
         if decide (rc < max_retries s)%Z then
           let* _ := py_sleep (retry_delay s * inject_Z (2 ^ rc))%Q in
           let* _ := py_modify (fun s => set_retry_count s (retry_count s + 1)) in
           retry f batch (rc + 1)
         else
           let* _ := py_log "Max retries exceeded. Sending batch to DLQ." in
           let* _ := py_modify (fun s => set_error_count s (error_count s + 1)) in
           if enable_dlq s then send_to_dlq batch (exn_msg e) else py_ret tt)%py
  end.

(** The call [_process_batch_with_retry(batch)], with [retry_count = 0]:
    at most [max_retries + 1] attempts, so that much fuel. *)
Definition process_batch_with_retry (batch : list Row) : PyM state unit :=
  fun s => retry (S (Z.to_nat (max_retries s))) batch 0 s.

(** The [while] loop of [consume] (lines 154-157). *)
Definition consume_loop (fuel : nat) : PyM state unit :=
  py_while fuel (fun s => bool_decide (batch_size s <= py_len (batch_buffer s))%Z)
    (let* s := py_get in
     let* _ := py_put (set_buffer s (py_drop (batch_size s) (batch_buffer s))) in
     process_batch_with_retry (py_take (batch_size s) (batch_buffer s)))%py.

Definition consume_fuel (fuel : nat) (elements : list Row) : PyM state unit :=
  (try* (let* _ := py_modify (fun s => set_buffer s (batch_buffer s ++ elements)) in
         consume_loop fuel)
   except e =>
     let* _ := py_log ("Critical error in consume: " ++ exn_msg e) in
     py_modify (fun s => set_error_count s (error_count s + 1)))%py.

(** [consume(elements)] (lines 148-162), with one more unit of fuel than
    there are rows. *)
Definition consume (elements : list Row) : PyM state unit :=
  fun s => consume_fuel (S (length (batch_buffer s ++ elements))) elements s.

(** [s] without the prefix [pre], if it starts with it. *)
Fixpoint strip_prefix (pre s : string) : option string :=
  match pre, s with
  | EmptyString, _ => Some s
  | String c pre', String d s' => if decide (c = d) then strip_prefix pre' s' else None
  | String _ _, EmptyString => None
  end.

(** A path [self.dlq_dir.glob("*.json")] lists: a file directly in the DLQ
    directory whose name does not start with a dot and ends in [.json]. *)
Definition dlq_glob_json (s : state) (p : string) : bool :=
  match strip_prefix (dlq_dir s ++ "/") p with
  | Some (String c f) =>
      bool_decide (c <> "."%char) && bool_decide (String.index 0 "/" (String c f) = None) &&
      bool_decide (5 <= String.length (String c f))%nat &&
      bool_decide (String.substring (String.length (String c f) - 5) 5 (String c f) = ".json")
  | _ => false
  end.

(** The DLQ report of [close]: [logger.warning] when the glob is not empty. *)
Definition dlq_report : PyM state unit :=
  (let* s := py_get in
   if enable_dlq s then
     let n := length (filter (dlq_glob_json s) (map_to_list (fs s)).*1) in
     if decide (n = 0%nat) then py_ret tt
     else py_log ("DLQ contains " ++ py_str_int (Z.of_nat n) ++ " failed batches")
   else py_ret tt)%py.

(** [close()] (lines 254-272). *)
Definition close : PyM state unit :=
  (try* (let* s := py_get in
         let* _ := (if decide (batch_buffer s = []) then py_ret tt
                    else let* _ := process_batch_with_retry (batch_buffer s) in
                         py_modify (fun s => set_buffer s [])) in
         dlq_report)
   except e => py_log ("Error during cleanup: " ++ exn_msg e))%py.

Definition consumer_inst : Consumer Row state :=
  {| Consumer.consume := consume; Consumer.close := close |}.
End fault_tolerant.
Arguments state : clear implicits.
Arguments py_sleep : simpl never.

(** [custom_error_handler(consumer, input_data, error)] (lines 275-279),
    with [repr] of a list of rows as a parameter. *)
Definition custom_error_handler {Row : Type} (repr : list Row -> string)
    : handler Row (state Row) :=
  fun c input_data error =>
    ["Disruptor error handler called for " ++ name c;
     "Error: " ++ exn_msg error;
     "Input data: " ++ repr (py_take 100 input_data) ++ "..."].

(** ** One attempt, one batch *)

Section attempts.
Context {Row Frame Amount : Type}.
Variable to_frame : list Row -> exn + Frame.
Variable total_amount : Frame -> exn + Amount.
Variable write_fails : string -> bool.
Variable sim_fail : nat -> bool.
Variable clock randint : nat -> Z.
Variable max_depth : Z.
Local Abbreviation process_batch := (process_batch to_frame total_amount write_fails sim_fail).
Local Abbreviation send_to_dlq := (send_to_dlq write_fails clock randint).
Local Abbreviation retry := (retry to_frame total_amount write_fails sim_fail clock randint max_depth).
Implicit Types (s : state Row) (batch : list Row).

(** The fields no operation of the consumer changes but the buffer. *)
Definition statics s : string * Z * Z * Q * bool * string :=
  (name s, batch_size s, max_retries s, retry_delay s, enable_dlq s, consumer_dir s).

(** [time.sleep(secs)] returns: the nanoseconds are a non-negative 64-bit
    integer. *)
Definition sleep_ok (secs : Q) : bool := bool_decide (0 <= sleep_ns secs < 2 ^ 63)%Z.

(** The retries of a consumer cannot fail by themselves: the recursion
    limit leaves room for all [max_retries + 1] attempts, and every delay
    [retry_delay * 2 ** k] slept before retry [k + 1] is a valid length. *)
Definition retry_safe s : bool :=
  bool_decide (Z.max 0 (max_retries s) < max_depth)%Z &&
  forallb (fun k => sleep_ok (retry_delay s * inject_Z (2 ^ k))%Q) (seqZ 0 (max_retries s)).

(** The same from the call with [retry_count = rc] on. *)
Definition safe_from s (rc : Z) : Prop :=
  (Z.max rc (max_retries s) < max_depth)%Z /\
  forall k, (rc <= k < max_retries s)%Z -> sleep_ok (retry_delay s * inject_Z (2 ^ k))%Q = true.

(** The files after [batch] was written as the next parquet file and the
    checkpoint saved (when the checkpoint file can be written). *)
Definition written_fs s batch : gmap string (file Row) :=
  let fc := (file_counter s + 1)%Z in
  let fs1 := <[batch_path s fc := Parquet batch]> (fs s) in
  if write_fails (checkpoint_file s) then fs1
  else <[checkpoint_file s := CheckpointJson (Some fc) (Some (processed_count s + py_len batch)%Z)]> fs1.

(** The files after [batch] was sent to the DLQ, with the draw [k] naming
    the file, or dropped when the DLQ is disabled. *)
Definition sent_to_dlq s batch (fs' : gmap string (file Row)) : Prop :=
  if enable_dlq s then
    exists k msg, let p := dlq_dir s ++ "/" ++ dlq_filename (clock k) (randint k) in
      (write_fails p = false /\ fs' = <[p := DlqJson msg (py_len batch) batch]> (fs s)) \/
      (write_fails p = true /\ fs' = fs s)
  else fs' = fs s.

(** Exactly one of two things happened to [batch] between [s] and [s']:
    it was written to the next parquet file and counted as processed, or
    it was counted as an error and sent to the DLQ (or dropped). *)
Definition handled batch s s' : Prop :=
  statics s' = statics s /\ batch_buffer s' = batch_buffer s /\
  ((file_counter s' = file_counter s + 1 /\ processed_count s' = processed_count s + py_len batch /\
    error_count s' = error_count s /\ fs s' = written_fs s batch)%Z \/
   (file_counter s' = file_counter s /\ processed_count s' = processed_count s /\
    error_count s' = error_count s + 1 /\ sent_to_dlq s batch (fs s'))%Z).

Lemma process_batch_cases batch s :
  let '(s1, r) := process_batch batch s in
  statics s1 = statics s /\ batch_buffer s1 = batch_buffer s /\
  error_count s1 = error_count s /\ retry_count s1 = retry_count s /\ log s `prefix_of` log s1 /\
  ((r = Ok tt /\ (exists df, to_frame batch = inr df) /\ file_counter s1 = (file_counter s + 1)%Z /\
    processed_count s1 = (processed_count s + py_len batch)%Z /\ fs s1 = written_fs s batch) \/
   (exists e, r = Raise e /\ file_counter s1 = file_counter s /\
    processed_count s1 = processed_count s /\ fs s1 = fs s)).
Proof.
  unfold FaultTolerant.process_batch, random_fail, py_call, write_parquet, save_checkpoint,
    py_log, written_fs, statics, set_rng, set_log, set_fs, set_file_counter, set_processed_count.
  py_unfold.
  destruct (sim_fail _); cbn.
  { split_and!; try done. right. by eexists. }
  destruct (to_frame batch) as [e|df]; cbn.
  { split_and!; try done; [by eexists|]. right. by eexists. }
  destruct (total_amount df); cbn; destruct (write_fails _) eqn:Ew; cbn;
    unfold checkpoint_file in *; cbn in *;
    try (destruct (write_fails (consumer_dir s +:+ "/" +:+ "checkpoint.json")) eqn:Ec; cbn).
  all: unfold batch_path in *; cbn in *; split_and!; try done; try (by repeat apply prefix_app_r).
  all: first [ left; split_and!; [done | by eexists | done | done | done]
             | right; eexists; split_and!; [done | lia | done | done] ].
Qed.

Lemma send_to_dlq_spec batch msg s :
  let p := dlq_dir s ++ "/" ++ dlq_filename (clock (rng s)) (randint (rng s)) in
  let '(s1, r) := send_to_dlq batch msg s in
  r = Ok tt /\ statics s1 = statics s /\ batch_buffer s1 = batch_buffer s /\
  error_count s1 = error_count s /\ retry_count s1 = retry_count s /\
  file_counter s1 = file_counter s /\ processed_count s1 = processed_count s /\
  log s `prefix_of` log s1 /\ rng s1 = S (rng s) /\
  ((write_fails p = false /\ fs s1 = <[p := DlqJson msg (py_len batch) batch]> (fs s)) \/
   (write_fails p = true /\ fs s1 = fs s)).
Proof.
  unfold FaultTolerant.send_to_dlq, py_log, statics. py_unfold. cbn.
  destruct (write_fails _); cbn; split_and!; try done; try (by repeat apply prefix_app_r); auto.
Qed.

Lemma handled_transfer batch s s2 s' :
  statics s2 = statics s -> batch_buffer s2 = batch_buffer s ->
  file_counter s2 = file_counter s -> processed_count s2 = processed_count s ->
  error_count s2 = error_count s -> fs s2 = fs s ->
  handled batch s2 s' -> handled batch s s'.
Proof.
  destruct s, s2. unfold handled, written_fs, sent_to_dlq, batch_path, checkpoint_file, dlq_dir,
    statics. cbn. intros. by simplify_eq.
Qed.

Lemma py_sleep_ok secs s : sleep_ok secs = true -> py_sleep secs s = (s, Ok tt).
Proof.
  unfold sleep_ok, py_sleep. intros H%bool_decide_eq_true_1.
  rewrite decide_True, decide_False by lia. done.
Qed.

Lemma py_sleep_state secs s : (py_sleep secs s).1 = s /\ (py_sleep secs s).2 <> NoFuel.
Proof. unfold py_sleep. repeat case_decide; done. Qed.

Lemma retry_safe_from s : retry_safe s = true -> safe_from s 0.
Proof.
  unfold retry_safe, safe_from. intros [H1%bool_decide_eq_true_1 H2]%andb_prop.
  split; [lia|]. intros k Hk. rewrite forallb_forall in H2. apply H2.
  apply list_elem_of_In, elem_of_seqZ. lia.
Qed.

Lemma safe_from_step s s' rc :
  statics s' = statics s -> safe_from s rc -> (rc < max_retries s)%Z -> safe_from s' (rc + 1).
Proof.
  unfold statics, safe_from. intros Hst [Hd Hk] Hlt. injection Hst as _ _ Hm Hr _ _.
  rewrite Hm, Hr. split; [lia|]. intros k ?. apply Hk. lia.
Qed.

(** Whatever happens, [_process_batch_with_retry(batch, rc)] keeps the
    fixed fields and the buffer, only appends to the log, and either
    returns with the batch handled, or leaves the files and the counters
    of batches as they were (an attempt that failed writes nothing; the
    error of a sleep or of the recursion limit escapes). *)
Lemma retry_cases batch f rc s :
  let '(s', r) := retry f batch rc s in
  statics s' = statics s /\ batch_buffer s' = batch_buffer s /\ log s `prefix_of` log s' /\
  (retry_count s <= retry_count s' <= retry_count s + Z.max 0 (max_retries s - rc))%Z /\
  ((r = Ok tt /\ handled batch s s') \/
   (r <> Ok tt /\ file_counter s' = file_counter s /\ processed_count s' = processed_count s /\
    error_count s' = error_count s /\ fs s' = fs s)).
Proof.
  revert rc s. induction f as [|f IH]; intros rc s; cbn [FaultTolerant.retry].
  { split_and!; try done; try lia. right. split_and!; done. }
  case_decide.
  { cbn. split_and!; try done; try lia. right. split_and!; done. }
  unfold py_try.
  pose proof (process_batch_cases batch s) as Hc. destruct (process_batch batch s) as [s1 r].
  destruct Hc as (Hst & Hbuf & Hec & Hrc & Hlog &
                    [(-> & _ & Hfc & Hpc & Hfs) | (e & -> & Hfc & Hpc & Hfs)]).
  { split_and!; try done; try lia. left. split; [done|]. split_and!; [done | done | left; done]. }
  pose proof Hst as Hst'. unfold statics in Hst'. simplify_eq.
  unfold py_log. py_unfold. cbn. case_decide as Hlt.
  - match goal with |- context [py_sleep ?d ?st] =>
      pose proof (py_sleep_state d st) as [Hs1 Hs2]; destruct (py_sleep d st) as [s2 r2] eqn:Esl
    end.
    cbn in Hs1. subst s2. destruct r2 as [[]|e2|]; cbn.
    2, 3: split_and!; try (unfold statics in *; cbn; congruence); try (cbn; lia);
      try (cbn; etrans; [exact Hlog|]; by apply prefix_app_r);
      right; split_and!; [done | cbn; congruence..].
    match goal with |- context [FaultTolerant.retry _ _ _ _ _ _ _ f batch (rc + 1) ?st] =>
      pose proof (IH (rc + 1)%Z st) as Hr; destruct (FaultTolerant.retry _ _ _ _ _ _ _ f batch (rc + 1) st)
        as [s' r']
    end.
    destruct Hr as (Hst2 & Hb2 & Hl2 & Hrc2 & Hcase). cbn in Hst2, Hb2, Hl2, Hrc2, Hcase.
    split_and!; [unfold statics in *; cbn in *; congruence | congruence | | lia | lia | ].
    { etrans; [exact Hlog|]. etrans; [|exact Hl2]. by apply prefix_app_r. }
    destruct Hcase as [[-> Hh] | (Hne & ? & ? & ? & ?)].
    + left. split; [done|]. eapply handled_transfer; [..| exact Hh]; unfold statics; cbn; congruence.
    + right. split_and!; [done | congruence..].
  - match goal with |- context [(if _ then _ else _) ?st] => remember st as s2 eqn:E2 end.
    assert (statics s2 = statics s /\ batch_buffer s2 = batch_buffer s /\
            file_counter s2 = file_counter s /\ processed_count s2 = processed_count s /\
            fs s2 = fs s /\ error_count s2 = (error_count s + 1)%Z /\
            retry_count s2 = retry_count s /\ log s `prefix_of` log s2)
      as (Hst2 & Hb2 & Hfc2 & Hpc2 & Hfs2 & Hec2 & Hrc2 & Hl2).
    { subst s2. unfold statics. cbn. split_and!; try congruence.
      etrans; [exact Hlog|]. by repeat apply prefix_app_r. }
    assert (dlq_dir s2 = dlq_dir s) as Hd by (unfold dlq_dir; subst s2; cbn; congruence).
    clear E2. destruct (enable_dlq s1) eqn:Ed.
    + pose proof (send_to_dlq_spec batch (exn_msg e) s2) as Hs.
      destruct (send_to_dlq batch (exn_msg e) s2) as [s3 r].
      destruct Hs as (-> & Hst3 & Hb3 & Hec3 & Hrc3 & Hfc3 & Hpc3 & Hl3 & _ & Hfs3).
      split_and!; [congruence | congruence | by etrans | lia | lia |].
      left. split; [done|].
      split_and!; [congruence | congruence | right; split_and!; [congruence..|]].
      unfold sent_to_dlq. replace (enable_dlq s) with true by congruence.
      exists (rng s2), (exn_msg e). rewrite <-Hd, <-Hfs2. done.
    + split_and!; [done | done | done | lia | lia |]. left. split; [done|].
      split_and!; [done | done | right; split_and!; [done..|]].
      unfold sent_to_dlq. by replace (enable_dlq s) with false by congruence.
Qed.

(** With fuel for its attempts, [_process_batch_with_retry(batch, rc)]
    raises or returns, it never hangs; and it returns when its retries
    are safe: room for the recursion and valid delays. *)
Lemma retry_result batch f rc s :
  (Z.to_nat (max_retries s - rc) < f)%nat ->
  (retry f batch rc s).2 <> NoFuel /\ (safe_from s rc -> (retry f batch rc s).2 = Ok tt).
Proof.
  revert rc s. induction f as [|f IH]; intros rc s Hf; [lia|]. cbn [FaultTolerant.retry].
  case_decide as Hdep.
  { split; [done|]. intros [? _]. lia. }
  unfold py_try.
  pose proof (process_batch_cases batch s) as Hc. destruct (process_batch batch s) as [s1 r].
  destruct Hc as (Hst & _ & _ & _ & _ & [(-> & _) | (e & -> & _)]); [done|].
  pose proof Hst as Hst'. unfold statics in Hst'. simplify_eq.
  unfold py_log. py_unfold. cbn. case_decide as Hlt.
  - match goal with |- context [py_sleep ?d ?st] =>
      pose proof (py_sleep_state d st) as [Hs1 Hs2];
      assert (safe_from s rc -> py_sleep d st = (st, Ok tt)) as Hsafe
        by (intros [_ Hk]; apply py_sleep_ok; rewrite H2; apply Hk; lia);
      destruct (py_sleep d st) as [s2 r2] eqn:Esl
    end.
    cbn in Hs1. subst s2. destruct r2 as [[]|e2|]; cbn.
    + match goal with |- context [FaultTolerant.retry _ _ _ _ _ _ _ f batch (rc + 1) ?st] =>
        destruct (IH (rc + 1)%Z st) as [Hn Hok]; [cbn; lia|] end.
      split; [done|]. intros Hs. apply Hok. eapply safe_from_step; [| exact Hs | lia].
      unfold statics. cbn. congruence.
    + split; [done|]. intros Hs. specialize (Hsafe Hs). congruence.
    + done.
  - destruct (enable_dlq s1).
    + match goal with |- context [send_to_dlq ?b ?m ?st] =>
        pose proof (send_to_dlq_spec b m st) as Hs; destruct (send_to_dlq b m st) as [s3 r] end.
      destruct Hs as [-> _]. done.
    + done.
Qed.

Local Abbreviation process_batch_with_retry :=
  (process_batch_with_retry to_frame total_amount write_fails sim_fail clock randint max_depth).
Local Abbreviation consume_loop :=
  (consume_loop to_frame total_amount write_fails sim_fail clock randint max_depth).

Lemma process_batch_with_retry_cases batch s :
  let '(s', r) := process_batch_with_retry batch s in
  statics s' = statics s /\ batch_buffer s' = batch_buffer s /\ log s `prefix_of` log s' /\
  (retry_count s <= retry_count s' <= retry_count s + Z.max 0 (max_retries s))%Z /\
  r <> NoFuel /\
  ((r = Ok tt /\ handled batch s s') \/
   (r <> Ok tt /\ file_counter s' = file_counter s /\ processed_count s' = processed_count s /\
    error_count s' = error_count s /\ fs s' = fs s)).
Proof.
  unfold FaultTolerant.process_batch_with_retry.
  pose proof (retry_cases batch (S (Z.to_nat (max_retries s))) 0 s) as Hc.
  destruct (retry_result batch (S (Z.to_nat (max_retries s))) 0 s) as [Hn _]; [lia|].
  destruct (FaultTolerant.retry _ _ _ _ _ _ _ _ _ _ _) as [s' r].
  rewrite Z.sub_0_r in Hc. cbn in Hn. destruct Hc as (? & ? & ? & ? & ?). split_and!; done || lia.
Qed.

Lemma process_batch_with_retry_handled batch s :
  retry_safe s = true ->
  exists s', process_batch_with_retry batch s = (s', Ok tt) /\ handled batch s s' /\
    (retry_count s <= retry_count s' <= retry_count s + Z.max 0 (max_retries s))%Z /\
    log s `prefix_of` log s'.
Proof.
  intros Hs. pose proof (process_batch_with_retry_cases batch s) as Hc.
  destruct (retry_result batch (S (Z.to_nat (max_retries s))) 0 s) as [_ Hok]; [lia|].
  specialize (Hok (retry_safe_from s Hs)). unfold FaultTolerant.process_batch_with_retry in *.
  destruct (FaultTolerant.retry _ _ _ _ _ _ _ _ _ _ _) as [s' r]. cbn in Hok. subst r.
  destruct Hc as (_ & _ & Hl & Hb & _ & [[_ Hh] | [? _]]); [|done].
  exists s'. done.
Qed.

Lemma retry_safe_statics s s' : statics s' = statics s -> retry_safe s' = retry_safe s.
Proof. unfold statics, retry_safe. intros H. injection H as _ _ -> -> _ _. done. Qed.

Lemma ft_consume_loop_S f s :
  consume_loop (S f) s =
  if bool_decide (batch_size s <= py_len (batch_buffer s))%Z then
    py_bind (process_batch_with_retry (py_take (batch_size s) (batch_buffer s)))
      (fun _ => consume_loop f) (set_buffer s (py_drop (batch_size s) (batch_buffer s)))
  else (s, Ok tt).
Proof. reflexivity. Qed.

Lemma py_len_take_le {A} (n : nat) (l : list A) : (n <= length l)%nat -> py_len (take n l) = Z.of_nat n.
Proof. intros. unfold py_len. rewrite length_take. lia. Qed.

(** The loop handles every full batch of the buffer, whatever happens to
    each: the batches written and the batches counted as errors add up to
    the number of full batches. *)
Lemma consume_loop_accounts f s :
  retry_safe s = true -> (0 < batch_size s)%Z -> (length (batch_buffer s) < f)%nat ->
  let n := Z.to_nat (batch_size s) in
  exists s', consume_loop f s = (s', Ok tt) /\ statics s' = statics s /\
    batch_buffer s' = (chunks n (batch_buffer s)).2 /\
    (file_counter s' - file_counter s + (error_count s' - error_count s) =
       Z.of_nat (length (chunks n (batch_buffer s)).1))%Z /\
    (processed_count s' - processed_count s = Z.of_nat n * (file_counter s' - file_counter s))%Z /\
    (file_counter s <= file_counter s')%Z /\ (error_count s <= error_count s')%Z.
Proof.
  revert s. induction f as [|f IH]; intros s Hsafe Hbs Hf n; [lia|].
  rewrite ft_consume_loop_S. case_bool_decide as Hc; unfold py_len in Hc.
  - rewrite py_take_nonneg, py_drop_nonneg by lia. fold n.
    destruct (process_batch_with_retry_handled (take n (batch_buffer s))
                (set_buffer s (drop n (batch_buffer s)))) as (s1 & Hr & Hh & _);
      [by rewrite (retry_safe_statics s) |].
    rewrite (py_bind_ok _ _ _ _ tt Hr). destruct Hh as (Hst & Hb & Hcase). cbn in Hb.
    assert (batch_size s1 = batch_size s) as Hbs1 by (unfold statics in Hst; cbn in Hst; congruence).
    destruct (IH s1) as (s' & Hr' & Hst2 & Hb2 & Hacc & Hpc & Hfc & Hec);
      [rewrite (retry_safe_statics (set_buffer s (drop n (batch_buffer s)))); [|done];
       by rewrite (retry_safe_statics s) | lia | rewrite Hb, length_drop; lia|].
    exists s'. split; [done|]. split; [by rewrite Hst2, Hst|].
    rewrite (chunks_step n (batch_buffer s)) by lia.
    rewrite Hbs1, Hb in *. fold n in Hb2, Hacc, Hpc.
    destruct (chunks n (drop n (batch_buffer s))) as [bs r]. cbn in *.
    rewrite py_len_take_le in Hcase by lia.
    split; [done|]. destruct Hcase as [(? & ? & ? & _) | (? & ? & ? & _)]; lia.
  - exists s. fold n. rewrite chunks_stop by (unfold n; lia). cbn. split_and!; try done; lia.
Qed.

Lemma batch_path_ne_checkpoint s n : batch_path s n <> checkpoint_file s.
Proof. unfold batch_path, checkpoint_file. intros H. do 2 apply string_app_inj_l in H. done. Qed.

Lemma dlq_path_ne_checkpoint s fname : dlq_dir s ++ "/" ++ fname <> checkpoint_file s.
Proof.
  unfold dlq_dir, checkpoint_file. rewrite !string_app_assoc. intros H.
  do 2 apply string_app_inj_l in H. done.
Qed.

(** C24 (fault tolerance of one batch). When its retries are safe (the
    recursion limit leaves room for the [max_retries + 1] attempts and
    every delay [retry_delay * 2 ** k] is a valid [time.sleep] length),
    [_process_batch_with_retry(batch)] returns normally, whatever the
    random failures and the library calls do, after at most
    [max_retries] retries; and exactly one of two things has happened: the
    batch is in the next parquet file [batch_{file_counter+1:04d}.parquet]
    and counted as processed, or it is counted as one error and written to
    the DLQ (when the DLQ is enabled and its file can be written;
    otherwise it is dropped). *)
Theorem retry_outcome batch s :
  retry_safe s = true ->
  exists s', process_batch_with_retry batch s = (s', Ok tt) /\
    (retry_count s <= retry_count s' <= retry_count s + Z.max 0 (max_retries s))%Z /\
    ((file_counter s' = file_counter s + 1 /\
      fs s' !! batch_path s (file_counter s + 1) = Some (Parquet batch) /\
      processed_count s' = processed_count s + py_len batch /\ error_count s' = error_count s)%Z \/
     (file_counter s' = file_counter s /\ processed_count s' = processed_count s /\
      error_count s' = error_count s + 1 /\ sent_to_dlq s batch (fs s'))%Z).
Proof.
  intros Hs. destruct (process_batch_with_retry_handled batch s Hs) as (s' & Hr & (_ & _ & Hcase) & Hb & _).
  exists s'. split_and!; [done | lia | lia |].
  destruct Hcase as [(? & ? & ? & Hfs) | ?]; [left | by right]. split_and!; try done.
  rewrite Hfs. unfold written_fs. destruct (write_fails _); [by rewrite lookup_insert_eq|].
  rewrite lookup_insert_ne by apply not_eq_sym, batch_path_ne_checkpoint.
  by rewrite lookup_insert_eq.
Qed.

(** The [retry_count]-th attempt's error line. *)
Definition attempt_line s (rc : Z) (msg : string) : string :=
  name s ++ ": " ++ "Error processing batch (attempt " ++ py_str_int (rc + 1) ++ "/" ++
  py_str_int (max_retries s) ++ "): " ++ msg.

(** A batch that cannot be turned into a data frame fails every attempt. *)
Lemma retry_fails batch e f rc s :
  to_frame batch = inl e -> (0 <= rc <= max_retries s)%Z ->
  (Z.to_nat (max_retries s - rc) < f)%nat -> safe_from s rc ->
  exists s', retry f batch rc s = (s', Ok tt) /\
    retry_count s' = (retry_count s + (max_retries s - rc))%Z /\
    error_count s' = (error_count s + 1)%Z /\
    exists msg, attempt_line s (max_retries s) msg ∈ log s'.
Proof.
  intros He. revert rc s. induction f as [|f IH]; intros rc s Hrc Hf Hsafe; [lia|].
  cbn [FaultTolerant.retry]. rewrite decide_False by (destruct Hsafe; lia). unfold py_try.
  pose proof (process_batch_cases batch s) as Hc. destruct (process_batch batch s) as [s1 r].
  destruct Hc as (Hst & _ & Hec & Hrc1 & Hlog & [(_ & [df Hdf] & _) | (e1 & -> & _)]); [congruence|].
  pose proof Hst as Hst1. unfold statics in Hst1. simplify_eq.
  unfold py_log. py_unfold. cbn. case_decide as Hlt.
  - match goal with |- context [py_sleep ?d ?st] => rewrite (py_sleep_ok d st) end;
      [|destruct Hsafe as [_ Hk]; replace (retry_delay s1) with (retry_delay s) by congruence;
        apply Hk; lia].
    cbn.
    match goal with |- context [FaultTolerant.retry _ _ _ _ _ _ _ f batch (rc + 1) ?st] =>
      destruct (IH (rc + 1)%Z st) as (s' & Hr & Hrc' & Hec' & msg & Hin);
        [cbn; lia | cbn; lia | eapply safe_from_step; [| exact Hsafe | lia]; unfold statics; cbn; congruence|]
    end.
    exists s'. cbn in *. split_and!; [done | lia | lia |]. exists msg.
    unfold attempt_line in *. cbn in Hin. congruence.
  - assert (rc = max_retries s) as -> by lia.
    match goal with |- exists s', (if _ then _ else _) ?st = _ /\ _ => remember st as s2 eqn:E2 end.
    assert (retry_count s2 = retry_count s /\ error_count s2 = (error_count s + 1)%Z /\
            attempt_line s (max_retries s) (exn_msg e1) ∈ log s2) as (Hr2 & He2 & Hin2).
    { subst s2. cbn. split_and!; [congruence | congruence |]. unfold attempt_line.
      replace (name s1) with (name s) by congruence.
      replace (max_retries s1) with (max_retries s) by congruence. set_solver. }
    clear E2. destruct (enable_dlq s1).
    + pose proof (send_to_dlq_spec batch (exn_msg e1) s2) as Hs.
      destruct (send_to_dlq batch (exn_msg e1) s2) as [s3 r].
      destruct Hs as (-> & _ & _ & Hec3 & Hrc3 & _ & _ & Hl3 & _).
      exists s3. split_and!; [done | lia | lia |]. exists (exn_msg e1).
      destruct Hl3 as [l' ->]. set_solver.
    + exists s2. split_and!; [done | lia | lia |]. by eexists.
Qed.

(** C27 (the attempt numbers in the log). When every attempt fails (here:
    the batch cannot be turned into a data frame), [_process_batch_with_retry]
    makes [max_retries + 1] attempts ([max_retries] retries), counts one
    error, and its last error line reads
    ["attempt {max_retries + 1}/{max_retries}"], e.g. ["attempt 4/3"]:
    the denominator is the number of retries, not of attempts. *)
Theorem attempt_numbering batch e s :
  to_frame batch = inl e -> (0 <= max_retries s)%Z -> retry_safe s = true ->
  exists s', process_batch_with_retry batch s = (s', Ok tt) /\
    retry_count s' = (retry_count s + max_retries s)%Z /\
    error_count s' = (error_count s + 1)%Z /\
    exists msg, name s ++ ": Error processing batch (attempt " ++ py_str_int (max_retries s + 1) ++
                "/" ++ py_str_int (max_retries s) ++ "): " ++ msg ∈ log s'.
Proof.
  intros He Hm Hs. pose proof (retry_fails batch e (S (Z.to_nat (max_retries s))) 0 s He) as H.
  rewrite Z.sub_0_r in H. apply H; [lia | lia | by apply retry_safe_from].
Qed.

Local Abbreviation consume :=
  (consume to_frame total_amount write_fails sim_fail clock randint max_depth).
Local Abbreviation consume_fuel :=
  (consume_fuel to_frame total_amount write_fails sim_fail clock randint max_depth).
Local Abbreviation close := (close to_frame total_amount write_fails sim_fail clock randint max_depth).

(** C25 (functional behaviour of [consume]; every batch accounted for).
    With a positive [batch_size] and safe retries, [consume(elements)]
    returns normally whatever fails inside it; it cuts
    [batch_buffer + elements] into full batches of [batch_size] rows
    exactly as [chunks] does, keeps the rest as the new buffer, and
    accounts for every full batch exactly once: the files written and the
    errors counted add up to the number of full batches, and
    [batch_size] rows are counted as processed per file. *)
Theorem consume_accounts s elements :
  retry_safe s = true -> (0 < batch_size s)%Z ->
  let n := Z.to_nat (batch_size s) in
  let bs := (chunks n (batch_buffer s ++ elements)).1 in
  exists s', consume elements s = (s', Ok tt) /\
    batch_buffer s' = (chunks n (batch_buffer s ++ elements)).2 /\
    (file_counter s' - file_counter s + (error_count s' - error_count s) = Z.of_nat (length bs))%Z /\
    (processed_count s' - processed_count s = Z.of_nat n * (file_counter s' - file_counter s))%Z /\
    (file_counter s <= file_counter s')%Z /\ (error_count s <= error_count s')%Z.
Proof.
  intros Hs Hbs n bs. unfold FaultTolerant.consume, FaultTolerant.consume_fuel.
  destruct (consume_loop_accounts (S (length (batch_buffer s ++ elements)))
              (set_buffer s (batch_buffer s ++ elements))) as (s' & Hr & _ & Hrest);
    [by rewrite (retry_safe_statics s) | done | cbn; lia|].
  exists s'. split; [|exact Hrest]. apply py_try_ok. by py_unfold.
Qed.

Lemma ft_consume_loop_diverges f s :
  retry_safe s = true -> (batch_size s <= 0)%Z -> (consume_loop f s).2 = NoFuel.
Proof.
  revert s. induction f as [|f IH]; intros s Hsafe Hbs; [done|].
  rewrite ft_consume_loop_S, bool_decide_true by (unfold py_len; lia).
  destruct (process_batch_with_retry_handled (py_take (batch_size s) (batch_buffer s))
              (set_buffer s (py_drop (batch_size s) (batch_buffer s)))) as (s1 & Hr & (Hst & _) & _);
    [by rewrite (retry_safe_statics s)|].
  rewrite (py_bind_nofuel _ _ _ _ _ Hr). apply IH.
  - rewrite (retry_safe_statics (set_buffer s (py_drop (batch_size s) (batch_buffer s)))); [|done].
    by rewrite (retry_safe_statics s).
  - unfold statics in Hst. cbn in Hst. simplify_eq. lia.
Qed.

(** C26 (a [batch_size] that is not positive hangs [consume]). When
    [batch_size <= 0] and the retries are safe, [consume] runs out of
    every amount of fuel, for every behaviour of the random failures and
    the library calls: the [while] condition always holds and
    [_process_batch_with_retry] always returns, so the [try]/[except]
    around the loop never ends it. *)
Theorem ft_consume_diverges s elements fuel :
  retry_safe s = true -> (batch_size s <= 0)%Z -> (consume_fuel fuel elements s).2 = NoFuel.
Proof.
  intros Hs Hbs. unfold FaultTolerant.consume_fuel. apply py_try_nofuel.
  apply ft_consume_loop_diverges; [|done]. by rewrite (retry_safe_statics s).
Qed.

Lemma qfloor_neg (x : Q) : (- 1000000000 <= x < 0)%Q -> (- 1000000000 <= Qfloor x < 0)%Z.
Proof.
  intros [Hlo Hhi]. pose proof (Qfloor_le x) as H1. pose proof (Qlt_floor x) as H2.
  rewrite inject_Z_plus in H2. change (inject_Z 1) with 1%Q in H2. split.
  - apply Z.lt_pred_le. rewrite Zlt_Qlt.
    change (inject_Z (Z.pred (-1000000000))) with (-1000000001)%Q. lra.
  - rewrite Zlt_Qlt. change (inject_Z 0) with 0%Q. lra.
Qed.

(** [time.sleep(d)] with [-1 <= d < 0] raises [ValueError]. *)
Lemma py_sleep_negative secs s :
  (-1 <= secs < 0)%Q ->
  py_sleep secs s = (s, Raise (PyExc "ValueError" "sleep length must be non-negative")).
Proof.
  intros Hd. unfold py_sleep, sleep_ns.
  assert (- 1000000000 <= secs * inject_Z (10 ^ 9) < 0)%Q as Hx.
  { change (inject_Z (10 ^ 9)) with 1000000000%Q. lra. }
  destruct (Qlt_le_dec _ 0) as [_|Hge]; [|lra].
  pose proof (qfloor_neg _ Hx). rewrite decide_True, decide_True by lia. done.
Qed.

Lemma process_batch_sim_fail batch s :
  sim_fail (rng s) = true ->
  process_batch batch s = (set_rng s (S (rng s)), Raise (PyExc "Exception" "Simulated processing error")).
Proof. intros H. unfold FaultTolerant.process_batch, random_fail. py_unfold. by rewrite H. Qed.

(** A first attempt that fails and a negative delay: the retry raises the
    [ValueError] of [time.sleep]. *)
Lemma retry_negative_delay batch f s :
  (0 < max_retries s)%Z -> (0 < max_depth)%Z -> (-1 <= retry_delay s < 0)%Q ->
  sim_fail (rng s) = true ->
  (retry (S f) batch 0 s).2 = Raise (PyExc "ValueError" "sleep length must be non-negative").
Proof.
  intros Hmr Hdep Hd Hsim. cbn [FaultTolerant.retry]. rewrite decide_False by lia.
  unfold py_try. rewrite (process_batch_sim_fail batch s Hsim).
  unfold py_log. py_unfold. cbn -[py_sleep]. rewrite decide_True by lia.
  rewrite py_sleep_negative; [done|]. change (inject_Z (2 ^ 0)) with 1%Q. lra.
Qed.

(** C32 (a negative [retry_delay] loses a batch). The constructor accepts
    any [retry_delay]; with [-1 <= retry_delay < 0], a positive
    [max_retries] and a first attempt that fails (here the simulated
    5% failure), [time.sleep(delay)] raises [ValueError] inside the
    [except] block of [_process_batch_with_retry]; the exception escapes
    the retries and ends the loop of [consume], whose [except] logs it and
    counts one error.  The batch, already cut from the buffer, is in no
    parquet file and not in the DLQ, and no later batch of the call is
    processed. *)
Theorem negative_delay_loses_batch s elements :
  (0 < batch_size s)%Z -> (0 < max_retries s)%Z -> (0 < max_depth)%Z ->
  (-1 <= retry_delay s < 0)%Q ->
  (batch_size s <= py_len (batch_buffer s ++ elements))%Z -> sim_fail (rng s) = true ->
  exists s', consume elements s = (s', Ok tt) /\
    batch_buffer s' = drop (Z.to_nat (batch_size s)) (batch_buffer s ++ elements) /\
    fs s' = fs s /\ file_counter s' = file_counter s /\
    processed_count s' = processed_count s /\ error_count s' = (error_count s + 1)%Z /\
    exists l, log s' = app l [name s ++ ": " ++ "Critical error in consume: " ++
                              "sleep length must be non-negative"].
Proof.
  intros Hbs Hmr Hdep Hd Hlen Hsim.
  unfold FaultTolerant.consume, FaultTolerant.consume_fuel.
  set (s0 := set_buffer s (batch_buffer s ++ elements)).
  set (s1 := set_buffer s0 (py_drop (batch_size s0) (batch_buffer s0))).
  set (batch := py_take (batch_size s0) (batch_buffer s0)).
  pose proof (retry_cases batch (S (Z.to_nat (max_retries s1))) 0 s1) as Hc.
  pose proof (retry_negative_delay batch (Z.to_nat (max_retries s1)) s1 Hmr Hdep Hd Hsim) as Hr.
  destruct (FaultTolerant.retry _ _ _ _ _ _ _ _ _ _ _) as [s2 r] eqn:E. cbn in Hr. subst r.
  destruct Hc as (Hst & Hb & _ & _ & [[? _] | (_ & Hfc & Hpc & Hec & Hfs)]); [done|].
  assert (consume_loop (S (length (batch_buffer s ++ elements))) s0 =
          (s2, Raise (PyExc "ValueError" "sleep length must be non-negative"))) as Hl.
  { rewrite ft_consume_loop_S, bool_decide_true by (cbn; lia).
    apply py_bind_raise. unfold FaultTolerant.process_batch_with_retry. exact E. }
  rewrite (py_try_raise _ _ _ s2 (PyExc "ValueError" "sleep length must be non-negative"));
    [|unfold py_bind, py_modify; exact Hl].
  unfold py_log, py_bind, py_modify. cbn. eexists. split; [reflexivity|].
  unfold statics in Hst. cbn in *. simplify_eq.
  rewrite Hb, py_drop_nonneg by lia. split_and!; try congruence.
  replace (name s2) with (name s) by congruence. by eexists.
Qed.

(** ** Checkpoints *)

(** The checkpoint file records the current [file_counter] and
    [processed_count], or there is none yet and both are 0. *)
Definition ckpt_inv s : Prop :=
  fs s !! checkpoint_file s = Some (CheckpointJson (Some (file_counter s)) (Some (processed_count s))) \/
  (fs s !! checkpoint_file s = None /\ file_counter s = 0%Z /\ processed_count s = 0%Z).

Lemma statics_checkpoint_file s s' : statics s' = statics s -> checkpoint_file s' = checkpoint_file s.
Proof. unfold statics, checkpoint_file. intros H. injection H. congruence. Qed.

Lemma statics_dlq_dir s s' : statics s' = statics s -> dlq_dir s' = dlq_dir s.
Proof. unfold statics, dlq_dir. intros H. injection H. congruence. Qed.

Lemma ckpt_inv_transfer s s' :
  statics s' = statics s -> fs s' = fs s -> file_counter s' = file_counter s ->
  processed_count s' = processed_count s -> ckpt_inv s -> ckpt_inv s'.
Proof.
  intros Hst Hfs Hfc Hpc. unfold ckpt_inv. by rewrite (statics_checkpoint_file s s' Hst), Hfs, Hfc, Hpc.
Qed.

Lemma process_batch_with_retry_ckpt batch s :
  write_fails (checkpoint_file s) = false -> ckpt_inv s ->
  statics (process_batch_with_retry batch s).1 = statics s /\
  ckpt_inv (process_batch_with_retry batch s).1.
Proof.
  intros Hw Hi. pose proof (process_batch_with_retry_cases batch s) as Hc.
  destruct (process_batch_with_retry batch s) as [s' r]. cbn.
  destruct Hc as (Hst & _ & _ & _ & _ & [[_ (_ & _ & Hcase)] | (_ & Hfc & Hpc & _ & Hfs)]);
    [| split; [done | by apply (ckpt_inv_transfer s)]].
  split; [done|]. unfold ckpt_inv. rewrite (statics_checkpoint_file s s' Hst).
  destruct Hcase as [(Hfc & Hpc & _ & ->) | (Hfc & Hpc & _ & Hd)].
  - left. unfold written_fs. rewrite Hw, lookup_insert_eq, Hfc, Hpc. done.
  - rewrite Hfc, Hpc. unfold sent_to_dlq in Hd. destruct (enable_dlq s); [|rewrite Hd; exact Hi].
    destruct Hd as (k & msg & [[_ ->] | [_ ->]]); [|exact Hi].
    rewrite lookup_insert_ne by apply dlq_path_ne_checkpoint. exact Hi.
Qed.

Lemma consume_loop_ckpt f s :
  write_fails (checkpoint_file s) = false -> ckpt_inv s ->
  statics (consume_loop f s).1 = statics s /\ ckpt_inv (consume_loop f s).1.
Proof.
  revert s. induction f as [|f IH]; intros s Hw Hi; [done|].
  rewrite ft_consume_loop_S. case_bool_decide; [|done].
  set (s0 := set_buffer s (py_drop (batch_size s) (batch_buffer s))).
  destruct (process_batch_with_retry_ckpt (py_take (batch_size s) (batch_buffer s)) s0)
    as [Hst Hi1]; [done | done |].
  unfold py_bind. destruct (process_batch_with_retry _ s0) as [s1 [[]| |]]; cbn in *; [|done..].
  destruct (IH s1) as [Hst' ?]; [by rewrite (statics_checkpoint_file s s1 Hst) | done |].
  split; [by rewrite Hst', Hst | done].
Qed.

Lemma consume_ckpt elements s :
  write_fails (checkpoint_file s) = false -> ckpt_inv s ->
  statics (consume elements s).1 = statics s /\ ckpt_inv (consume elements s).1.
Proof.
  intros Hw Hi. unfold FaultTolerant.consume, FaultTolerant.consume_fuel, py_try.
  set (f := S (length (batch_buffer s ++ elements))).
  destruct (consume_loop_ckpt f (set_buffer s (batch_buffer s ++ elements))) as (Hst & Hi');
    [done | done |].
  unfold py_bind, py_modify. destruct (consume_loop f _) as [s' []]; cbn in *; try done.
  all: unfold py_log, py_modify; cbn; split; [done|]; by apply (ckpt_inv_transfer s').
Qed.

(** The DLQ report of [close] only logs. *)
Lemma dlq_report_log s : exists l, dlq_report s = (set_log s l, Ok tt).
Proof.
  unfold dlq_report, py_log, py_bind, py_get, py_modify, py_ret. cbn.
  destruct (enable_dlq s); [case_decide|].
  - exists (log s). by destruct s.
  - by eexists.
  - exists (log s). by destruct s.
Qed.

Lemma set_log_statics s l :
  statics (set_log s l) = statics s /\ fs (set_log s l) = fs s /\
  file_counter (set_log s l) = file_counter s /\ processed_count (set_log s l) = processed_count s /\
  batch_buffer (set_log s l) = batch_buffer s /\ error_count (set_log s l) = error_count s.
Proof. done. Qed.

Lemma close_ckpt s :
  write_fails (checkpoint_file s) = false -> ckpt_inv s ->
  statics (close s).1 = statics s /\ ckpt_inv (close s).1.
Proof.
  intros Hw Hi. unfold FaultTolerant.close, py_try, py_bind, py_get, py_ret, py_modify.
  cbn -[FaultTolerant.process_batch_with_retry dlq_report]. case_decide.
  - destruct (dlq_report_log s) as [l ->]. cbn. split; [done|].
    by apply (ckpt_inv_transfer s).
  - destruct (process_batch_with_retry_ckpt (batch_buffer s) s Hw Hi) as [Hst Hi'].
    destruct (process_batch_with_retry (batch_buffer s) s) as [s' [[]| |]]; cbn -[dlq_report] in *;
      [| unfold py_log, py_modify; cbn; split; [done | by apply (ckpt_inv_transfer s')] | done].
    destruct (dlq_report_log (set_buffer s' [])) as [l ->]. cbn.
    split; [done|]. by apply (ckpt_inv_transfer s').
Qed.

(** A consumer constructed over the files of [s], in the same directory,
    resumes from [s]'s counters. *)
Lemma init_resumes s output_dir name' bs' mr' rd' dlq' r :
  consumer_dir s = output_dir ++ "/" ++ consumer_dir_name name' -> ckpt_inv s ->
  file_counter (init name' bs' output_dir mr' rd' dlq' (fs s) r) = file_counter s /\
  processed_count (init name' bs' output_dir mr' rd' dlq' (fs s) r) = processed_count s.
Proof.
  intros Hd Hi. unfold init, load_checkpoint. cbn.
  match goal with |- context [checkpoint_file ?st] =>
    replace (checkpoint_file st) with (checkpoint_file s) by (unfold checkpoint_file; cbn; by rewrite Hd) end.
  by destruct Hi as [-> | (-> & -> & ->)].
Qed.

(** C28 (round trip through the checkpoint). While the checkpoint file
    can be written, after any [consume] or [close] the checkpoint records
    the consumer's [file_counter] and [processed_count]: a consumer
    constructed afterwards over the same files, with a name that maps to
    the same directory, resumes exactly where this one stopped, so it
    neither renumbers nor overwrites the parquet files. *)
Theorem checkpoint_resume s elements output_dir name' bs' mr' rd' dlq' r :
  consumer_dir s = output_dir ++ "/" ++ consumer_dir_name name' ->
  write_fails (checkpoint_file s) = false -> ckpt_inv s ->
  let s1 := (consume elements s).1 in
  let s2 := (close s).1 in
  file_counter (init name' bs' output_dir mr' rd' dlq' (fs s1) r) = file_counter s1 /\
  processed_count (init name' bs' output_dir mr' rd' dlq' (fs s1) r) = processed_count s1 /\
  file_counter (init name' bs' output_dir mr' rd' dlq' (fs s2) r) = file_counter s2 /\
  processed_count (init name' bs' output_dir mr' rd' dlq' (fs s2) r) = processed_count s2.
Proof.
  intros Hd Hw Hi s1 s2.
  destruct (consume_ckpt elements s Hw Hi) as [Hst1 Hi1].
  destruct (close_ckpt s Hw Hi) as [Hst2 Hi2].
  assert (forall s', statics s' = statics s -> consumer_dir s' = consumer_dir s) as Hc
    by (unfold statics; intros s' H; by injection H).
  destruct (init_resumes s1 output_dir name' bs' mr' rd' dlq' r) as [-> ->]; [by rewrite Hc | done |].
  destruct (init_resumes s2 output_dir name' bs' mr' rd' dlq' r) as [-> ->]; [by rewrite Hc | done |].
  done.
Qed.

(** C29 (two DLQ files can collide). The DLQ file name is made of the
    second of [time.time()] and a draw of [randint(1000, 9999)]: when two
    batches go to the DLQ in the same second with the same draw, the second
    file replaces the first, and the first batch's rows are lost. *)
Theorem dlq_collision batch1 batch2 m1 m2 s :
  clock (S (rng s)) = clock (rng s) -> randint (S (rng s)) = randint (rng s) ->
  let p := dlq_dir s ++ "/" ++ dlq_filename (clock (rng s)) (randint (rng s)) in
  write_fails p = false ->
  fs (send_to_dlq batch2 m2 (send_to_dlq batch1 m1 s).1).1 =
  <[p := DlqJson m2 (py_len batch2) batch2]> (fs s).
Proof.
  intros Hc Hr p Hw. pose proof (send_to_dlq_spec batch1 m1 s) as H1.
  destruct (send_to_dlq batch1 m1 s) as [s1 r1]. cbn -[FaultTolerant.send_to_dlq].
  destruct H1 as (_ & Hst1 & _ & _ & _ & _ & _ & _ & Hrng1 & [[_ Hfs1] | [Hw' _]]);
    [|fold p in Hw'; congruence].
  pose proof (send_to_dlq_spec batch2 m2 s1) as H2.
  destruct (send_to_dlq batch2 m2 s1) as [s2 r2]. cbn.
  rewrite (statics_dlq_dir s s1 Hst1), Hrng1, Hc, Hr in H2. fold p in H2.
  destruct H2 as (_ & _ & _ & _ & _ & _ & _ & _ & _ & [[_ ->] | [Hw' _]]); [|congruence].
  by rewrite Hfs1, insert_insert_eq.
Qed.

(** With a positive [batch_size] and enough fuel the loop raises or ends;
    it never runs out of fuel, whatever fails. *)
Lemma consume_loop_ends f s :
  (0 < batch_size s)%Z -> (length (batch_buffer s) < f)%nat -> (consume_loop f s).2 <> NoFuel.
Proof.
  revert s. induction f as [|f IH]; intros s Hbs Hf; [lia|].
  rewrite ft_consume_loop_S. case_bool_decide as Hc; [|done]. unfold py_len in Hc.
  pose proof (process_batch_with_retry_cases (py_take (batch_size s) (batch_buffer s))
                (set_buffer s (py_drop (batch_size s) (batch_buffer s)))) as Hpc.
  unfold py_bind. destruct (process_batch_with_retry _ _) as [s1 [[]| |]]; cbn in *; [|done|].
  - destruct Hpc as (Hst & Hb & _). apply IH.
    + unfold statics in Hst. cbn in Hst. simplify_eq. lia.
    + rewrite Hb, py_drop_nonneg, length_drop by lia. lia.
  - destruct Hpc as (_ & _ & _ & _ & Hn & _). done.
Qed.

(** With a positive [batch_size], [consume] returns normally, whatever
    fails inside it: its [except] catches every exception. *)
Lemma consume_returns elements s :
  (0 < batch_size s)%Z -> exists s', consume elements s = (s', Ok tt).
Proof.
  intros Hbs. unfold FaultTolerant.consume, FaultTolerant.consume_fuel, py_try, py_bind, py_modify.
  pose proof (consume_loop_ends (S (length (batch_buffer s ++ elements)))
                (set_buffer s (batch_buffer s ++ elements))) as Hn.
  destruct (consume_loop _ _) as [s' [[]| |]]; cbn in *.
  - by eexists.
  - unfold py_log, py_modify. cbn. by eexists.
  - exfalso. apply Hn; [done | lia | done].
Qed.

(** One [consume] call in full: it returns, keeps the fixed fields, and
    accounts for every full batch of the buffer followed by the elements. *)
Lemma consume_spec elements s :
  retry_safe s = true -> (0 < batch_size s)%Z ->
  let n := Z.to_nat (batch_size s) in
  exists s', consume elements s = (s', Ok tt) /\ statics s' = statics s /\
    batch_buffer s' = (chunks n (batch_buffer s ++ elements)).2 /\
    (file_counter s' - file_counter s + (error_count s' - error_count s) =
       Z.of_nat (length (chunks n (batch_buffer s ++ elements)).1))%Z /\
    (processed_count s' - processed_count s = Z.of_nat n * (file_counter s' - file_counter s))%Z /\
    (file_counter s <= file_counter s')%Z /\ (error_count s <= error_count s')%Z.
Proof.
  intros Hs Hbs n. unfold FaultTolerant.consume, FaultTolerant.consume_fuel.
  destruct (consume_loop_accounts (S (length (batch_buffer s ++ elements)))
              (set_buffer s (batch_buffer s ++ elements))) as (s' & Hr & Hrest);
    [by rewrite (retry_safe_statics s) | done | cbn; lia|].
  exists s'. split; [apply py_try_ok; by py_unfold | exact Hrest].
Qed.

(** What the [consume] calls since [s0] did, [xs] being all the elements
    handed over: every full batch of [s0]'s buffer followed by [xs] was
    written or counted as an error, the rest is buffered, and each batch
    written counted [batch_size] rows. *)
Definition accounted s0 (xs : list Row) s : Prop :=
  let n := Z.to_nat (batch_size s0) in
  statics s = statics s0 /\
  batch_buffer s = (chunks n (batch_buffer s0 ++ xs)).2 /\
  (file_counter s - file_counter s0 + (error_count s - error_count s0) =
     Z.of_nat (length (chunks n (batch_buffer s0 ++ xs)).1))%Z /\
  (processed_count s - processed_count s0 = Z.of_nat n * (file_counter s - file_counter s0))%Z /\
  (file_counter s0 <= file_counter s)%Z /\ (error_count s0 <= error_count s)%Z.

Lemma accounted_start s0 :
  (length (batch_buffer s0) < Z.to_nat (batch_size s0))%nat -> accounted s0 [] s0.
Proof.
  intros Hb. unfold accounted. rewrite app_nil_r, chunks_stop by lia. cbn. split_and!; done || lia.
Qed.

Lemma consume_accounted s0 xs s ys :
  retry_safe s0 = true -> (0 < batch_size s0)%Z -> accounted s0 xs s ->
  accounted s0 (xs ++ ys) (consume ys s).1.
Proof.
  intros Hsafe Hbs (Hst & Hb & Hcnt & Hpc & Hfc & Hec).
  assert (batch_size s = batch_size s0) as Hbs' by (unfold statics in Hst; congruence).
  destruct (consume_spec ys s) as (s' & -> & Hst' & Hb' & Hcnt' & Hpc' & Hfc' & Hec');
    [by rewrite (retry_safe_statics s0) | lia|]. cbn [fst]. rewrite Hbs' in Hb', Hcnt', Hpc'.
  unfold accounted. set (n := Z.to_nat (batch_size s0)) in *.
  rewrite app_assoc, (chunks_app n (batch_buffer s0 ++ xs) ys) by lia. rewrite <-Hb. cbn [fst snd].
  rewrite length_app. split_and!; [congruence | done | lia | lia | lia | lia].
Qed.

(** Handed the batches [bs] one [consume] call each, the consumer has
    accounted for their concatenation. *)
Lemma feed_accounted s0 xs s bs :
  retry_safe s0 = true -> (0 < batch_size s0)%Z -> accounted s0 xs s ->
  accounted s0 (xs ++ concat bs)
    (@feed _ _ (consumer_inst to_frame total_amount write_fails sim_fail clock randint max_depth) s bs).
Proof.
  intros Hsafe Hbs. unfold feed. revert xs s. induction bs as [|b bs IH]; intros xs s Ha; cbn.
  - by rewrite app_nil_r.
  - rewrite app_assoc. apply IH. by apply consume_accounted.
Qed.

Lemma consume_loop_statics f s : statics (consume_loop f s).1 = statics s.
Proof.
  revert s. induction f as [|f IH]; intros s; [done|].
  rewrite ft_consume_loop_S. case_bool_decide; [|done].
  pose proof (process_batch_with_retry_cases (py_take (batch_size s) (batch_buffer s))
                (set_buffer s (py_drop (batch_size s) (batch_buffer s)))) as Hc.
  unfold py_bind. destruct (process_batch_with_retry _ _) as [s1 [[]| |]];
    destruct Hc as [Hst _]; cbn in *; [by rewrite IH | done | done].
Qed.

(** [consume] keeps the fields fixed at construction, whatever fails. *)
Lemma consume_statics elements s : statics (consume elements s).1 = statics s.
Proof.
  unfold FaultTolerant.consume, FaultTolerant.consume_fuel, py_try, py_bind, py_modify.
  pose proof (consume_loop_statics (S (length (batch_buffer s ++ elements)))
                (set_buffer s (batch_buffer s ++ elements))) as Hst.
  destruct (consume_loop _ _) as [s' []]; cbn in *; [done | | done].
  unfold py_log, py_modify. cbn. done.
Qed.

Lemma feed_statics s bs :
  statics (@feed _ _ (consumer_inst to_frame total_amount write_fails sim_fail clock randint max_depth)
             s bs) = statics s.
Proof.
  unfold feed. revert s. induction bs as [|b bs IH]; intros s; cbn; [done|].
  rewrite IH. apply consume_statics.
Qed.

Lemma close_statics s : statics (close s).1 = statics s.
Proof.
  unfold FaultTolerant.close, py_try, py_bind, py_get, py_ret, py_modify.
  cbn -[FaultTolerant.process_batch_with_retry dlq_report]. case_decide.
  - by destruct (dlq_report_log s) as [l ->].
  - pose proof (process_batch_with_retry_cases (batch_buffer s) s) as Hc.
    destruct (process_batch_with_retry (batch_buffer s) s) as [s' [[]| |]]; cbn -[dlq_report] in *;
      destruct Hc as [Hst _]; [| done | done].
    by destruct (dlq_report_log (set_buffer s' [])) as [l ->].
Qed.

(** [close()] with an empty buffer changes nothing but the log (the DLQ
    report). *)
Lemma close_empty s : batch_buffer s = [] -> exists l, close s = (set_log s l, Ok tt).
Proof.
  intros Hb. unfold FaultTolerant.close, py_try, py_bind, py_get, py_ret, py_modify.
  cbn -[dlq_report]. rewrite decide_True by done.
  destruct (dlq_report_log s) as [l ->]. by eexists.
Qed.

(** C30 (the Disruptor's error handler is never called for this
    consumer). With a positive [batch_size], [consume] catches every
    exception itself, so a delivery to a [FaultTolerantBatchConsumer]
    always returns normally: the bus records no error and runs no
    [consumer_error_handler], and [custom_error_handler] is dead code. *)
Theorem error_handler_unreachable (h : option (handler Row (state Row))) i c batch :
  (0 < batch_size c)%Z ->
  @deliver _ _ (consumer_inst to_frame total_amount write_fails sim_fail clock randint max_depth)
    h i c batch =
  Some ((consume batch c).1, [EvDeliver i batch None], []).
Proof.
  intros Hbs. destruct (consume_returns batch c Hbs) as [c' Hc].
  unfold deliver. cbn -[FaultTolerant.consume]. by rewrite Hc.
Qed.

(** C31 (a failed checkpoint save makes a restarted consumer overwrite a
    file). [_save_checkpoint] only logs its errors.  When a consumer whose
    checkpoint is up to date writes its next batch but cannot save the
    checkpoint, the batch is in [batch_{n+1:04d}.parquet] while the
    checkpoint still says [n]; a consumer constructed after a restart over
    the same files resumes at [n], and the next batch it writes replaces
    that file: the rows written before the restart are lost. *)
Theorem restart_overwrites s batch s1 output_dir rd' dlq' r batch' s2 :
  consumer_dir s = output_dir ++ "/" ++ consumer_dir_name (name s) ->
  fs s !! checkpoint_file s =
    Some (CheckpointJson (Some (file_counter s)) (Some (processed_count s))) ->
  write_fails (checkpoint_file s) = true ->
  process_batch batch s = (s1, Ok tt) ->
  process_batch batch'
    (init (name s) (batch_size s) output_dir (max_retries s) rd' dlq' (fs s1) r) = (s2, Ok tt) ->
  fs s1 !! batch_path s (file_counter s + 1) = Some (Parquet batch) /\
  file_counter (init (name s) (batch_size s) output_dir (max_retries s) rd' dlq' (fs s1) r) =
    file_counter s /\
  fs s2 !! batch_path s (file_counter s + 1) = Some (Parquet batch').
Proof.
  intros Hd Hck Hw Hp1. set (s' := init _ _ _ _ _ _ _ _). intros Hp2.
  pose proof (process_batch_cases batch s) as Hc1. rewrite Hp1 in Hc1.
  destruct Hc1 as (_ & _ & _ & _ & _ & [(_ & _ & _ & _ & Hfs1) | (e & ? & _)]); [|done].
  assert (checkpoint_file s' = checkpoint_file s /\ batch_path s' = batch_path s) as [Hcf Hbp]
    by (unfold checkpoint_file, batch_path, s', init, load_checkpoint; cbn;
        destruct (fs s1 !! _) as [[]|]; cbn; by rewrite Hd).
  assert (fs s1 !! checkpoint_file s =
            Some (CheckpointJson (Some (file_counter s)) (Some (processed_count s)))) as Hck1.
  { rewrite Hfs1. unfold written_fs. rewrite Hw. rewrite lookup_insert_ne; [done|].
    apply batch_path_ne_checkpoint. }
  assert (file_counter s' = file_counter s) as Hfc'.
  { unfold s', init, load_checkpoint. cbn.
    match goal with |- context [checkpoint_file ?st] =>
      replace (checkpoint_file st) with (checkpoint_file s) by (unfold checkpoint_file; cbn; by rewrite Hd) end.
    by rewrite Hck1. }
  pose proof (process_batch_cases batch' s') as Hc2. rewrite Hp2 in Hc2.
  destruct Hc2 as (_ & _ & _ & _ & _ & [(_ & _ & _ & _ & Hfs2) | (e & ? & _)]); [|done].
  split_and!; [| done |].
  - rewrite Hfs1. unfold written_fs. rewrite Hw. by rewrite lookup_insert_eq.
  - rewrite Hfs2. unfold written_fs. rewrite Hcf, Hw, Hfc', Hbp. by rewrite lookup_insert_eq.
Qed.
End attempts.

(** ** Concrete consumers

    [FaultTolerantBatchConsumer("FT-Consumer-1", batch_size=2,
    max_retries=3, retry_delay=1.0, enable_dlq=True)] over integer rows,
    on an empty directory, with no simulated failures unless said
    otherwise, a clock stuck in one second, a [randint] that always draws
    4242, and room for 990 nested calls under the recursion limit (CPython's
    default limit is 1000). *)
Section demo.
Definition demo_frame (b : list Z) : exn + list Z := inr b.
Definition demo_bad_frame (b : list Z) : exn + list Z := inl (PyExc "ComputeError" "bad rows").
Definition demo_total (df : list Z) : exn + Z := inr (foldr Z.add 0%Z df).
Definition demo_ok (p : string) : bool := false.
Definition demo_ckpt_fails (p : string) : bool := bool_decide (p = "data/ft-consumer-1/checkpoint.json").
Definition demo_no_fail (k : nat) : bool := false.
Definition demo_fail_first (k : nat) : bool := Nat.eqb k 0.
Definition demo_clock (k : nat) : Z := 1700000000%Z.
Definition demo_randint (k : nat) : Z := 4242%Z.
Definition demo_depth : Z := 990.
Definition demo_s : state Z := init "FT-Consumer-1" 2 "data" 3 1 true ∅ 0.
Definition demo_zero : state Z := init "FT-Consumer-1" 0 "data" 3 1 true ∅ 0.
(** [retry_delay=-0.5]: accepted by the constructor. *)
Definition demo_neg : state Z := init "FT-Consumer-1" 2 "data" 3 (-1 # 2) true ∅ 0.
(** The consumer after its first batch [[1, 2]], checkpoint saved. *)
Definition demo_ckpt : state Z :=
  (consume demo_frame demo_total demo_ok demo_no_fail demo_clock demo_randint demo_depth
     [1; 2]%Z demo_s).1.

Lemma consume_accounts_witness :
  retry_safe demo_depth demo_s = true /\ (0 < batch_size demo_s)%Z /\
  let n := Z.to_nat (batch_size demo_s) in
  let bs := (chunks n (batch_buffer demo_s ++ [1; 2; 3; 4; 5]%Z)).1 in
  exists s', consume demo_frame demo_total demo_ok demo_no_fail demo_clock demo_randint demo_depth
               [1; 2; 3; 4; 5]%Z demo_s = (s', Ok tt) /\
    batch_buffer s' = (chunks n (batch_buffer demo_s ++ [1; 2; 3; 4; 5]%Z)).2 /\
    (file_counter s' - file_counter demo_s + (error_count s' - error_count demo_s) =
       Z.of_nat (length bs))%Z /\
    (processed_count s' - processed_count demo_s =
       Z.of_nat n * (file_counter s' - file_counter demo_s))%Z /\
    (file_counter demo_s <= file_counter s')%Z /\ (error_count demo_s <= error_count s')%Z.
Proof.
  split; [vm_compute; reflexivity|]. split; [reflexivity|].
  apply consume_accounts; [vm_compute; reflexivity | reflexivity].
Defined.

Lemma retry_outcome_witness :
  retry_safe demo_depth demo_s = true /\
  exists s', process_batch_with_retry demo_frame demo_total demo_ok demo_no_fail demo_clock
               demo_randint demo_depth [1; 2]%Z demo_s = (s', Ok tt) /\
    (retry_count demo_s <= retry_count s' <= retry_count demo_s + Z.max 0 (max_retries demo_s))%Z /\
    ((file_counter s' = file_counter demo_s + 1 /\
      fs s' !! batch_path demo_s (file_counter demo_s + 1) = Some (Parquet [1; 2]) /\
      processed_count s' = processed_count demo_s + py_len [1; 2] /\
      error_count s' = error_count demo_s)%Z \/
     (file_counter s' = file_counter demo_s /\ processed_count s' = processed_count demo_s /\
      error_count s' = error_count demo_s + 1 /\ sent_to_dlq demo_ok demo_clock demo_randint demo_s [1; 2]%Z (fs s'))%Z).
Proof.
  split; [vm_compute; reflexivity|].
  apply retry_outcome. vm_compute. reflexivity.
Defined.

Lemma ft_consume_diverges_witness :
  retry_safe demo_depth demo_zero = true /\ (batch_size demo_zero <= 0)%Z /\
  (consume_fuel demo_frame demo_total demo_ok demo_no_fail demo_clock demo_randint demo_depth
     7 [1]%Z demo_zero).2 = NoFuel.
Proof.
  split; [vm_compute; reflexivity|]. split; [discriminate|].
  apply ft_consume_diverges; [vm_compute; reflexivity | discriminate].
Defined.

Lemma negative_delay_loses_batch_witness :
  (0 < batch_size demo_neg)%Z /\ (0 < max_retries demo_neg)%Z /\ (0 < demo_depth)%Z /\
  (-1 <= retry_delay demo_neg < 0)%Q /\
  (batch_size demo_neg <= py_len (batch_buffer demo_neg ++ [1; 2; 3]%Z))%Z /\
  demo_fail_first (rng demo_neg) = true /\
  exists s', consume demo_frame demo_total demo_ok demo_fail_first demo_clock demo_randint demo_depth
               [1; 2; 3]%Z demo_neg = (s', Ok tt) /\
    batch_buffer s' = drop (Z.to_nat (batch_size demo_neg)) (batch_buffer demo_neg ++ [1; 2; 3]%Z) /\
    fs s' = fs demo_neg /\ file_counter s' = file_counter demo_neg /\
    processed_count s' = processed_count demo_neg /\ error_count s' = (error_count demo_neg + 1)%Z /\
    exists l, log s' = app l [name demo_neg ++ ": " ++ "Critical error in consume: " ++
                              "sleep length must be non-negative"].
Proof.
  assert (-1 <= retry_delay demo_neg < 0)%Q as Hd.
  { split; vm_compute; [intros H; discriminate | reflexivity]. }
  do 3 (split; [reflexivity|]). split; [exact Hd|].
  split; [vm_compute; intros H; discriminate|]. split; [reflexivity|].
  apply negative_delay_loses_batch; try reflexivity; [exact Hd | vm_compute; intros H; discriminate].
Defined.

Lemma attempt_numbering_witness :
  demo_bad_frame [1; 2]%Z = inl (PyExc "ComputeError" "bad rows") /\
  (0 <= max_retries demo_s)%Z /\ retry_safe demo_depth demo_s = true /\
  exists s', process_batch_with_retry demo_bad_frame demo_total demo_ok demo_no_fail demo_clock
               demo_randint demo_depth [1; 2]%Z demo_s = (s', Ok tt) /\
    retry_count s' = (retry_count demo_s + max_retries demo_s)%Z /\
    error_count s' = (error_count demo_s + 1)%Z /\
    exists msg, name demo_s ++ ": Error processing batch (attempt " ++
                py_str_int (max_retries demo_s + 1) ++ "/" ++ py_str_int (max_retries demo_s) ++
                "): " ++ msg ∈ log s'.
Proof.
  split; [reflexivity|]. split; [discriminate|]. split; [vm_compute; reflexivity|].
  apply (attempt_numbering _ _ _ _ _ _ _ _ (PyExc "ComputeError" "bad rows"));
    [reflexivity | discriminate | vm_compute; reflexivity].
Defined.

Lemma checkpoint_resume_witness :
  consumer_dir demo_s = "data" ++ "/" ++ consumer_dir_name "FT-CONSUMER-1" /\
  demo_ok (checkpoint_file demo_s) = false /\ ckpt_inv demo_s /\
  let s1 := (consume demo_frame demo_total demo_ok demo_no_fail demo_clock demo_randint demo_depth
               [1; 2; 3]%Z demo_s).1 in
  let s2 := (close demo_frame demo_total demo_ok demo_no_fail demo_clock demo_randint demo_depth
               demo_s).1 in
  file_counter (init "FT-CONSUMER-1" 5 "data" 1 1 false (fs s1) 9) = file_counter s1 /\
  processed_count (init "FT-CONSUMER-1" 5 "data" 1 1 false (fs s1) 9) = processed_count s1 /\
  file_counter (init "FT-CONSUMER-1" 5 "data" 1 1 false (fs s2) 9) = file_counter s2 /\
  processed_count (init "FT-CONSUMER-1" 5 "data" 1 1 false (fs s2) 9) = processed_count s2.
Proof.
  assert (ckpt_inv demo_s) as Hi by (right; split_and!; reflexivity).
  split; [reflexivity|]. split; [reflexivity|]. split; [exact Hi|].
  apply checkpoint_resume; [reflexivity | reflexivity | exact Hi].
Defined.

Lemma dlq_collision_witness :
  demo_clock (S (rng demo_s)) = demo_clock (rng demo_s) /\
  demo_randint (S (rng demo_s)) = demo_randint (rng demo_s) /\
  let p := dlq_dir demo_s ++ "/" ++ dlq_filename (demo_clock (rng demo_s)) (demo_randint (rng demo_s)) in
  demo_ok p = false /\
  fs (send_to_dlq demo_ok demo_clock demo_randint [3; 4]%Z "boom"
        (send_to_dlq demo_ok demo_clock demo_randint [1; 2]%Z "bang" demo_s).1).1 =
  <[p := DlqJson "boom" (py_len [3; 4]%Z) [3; 4]%Z]> (fs demo_s).
Proof.
  split; [reflexivity|]. split; [reflexivity|]. intros p. split; [reflexivity|].
  apply dlq_collision; reflexivity.
Defined.

Lemma error_handler_unreachable_witness :
  (0 < batch_size demo_s)%Z /\
  @deliver _ _ (consumer_inst demo_frame demo_total demo_ok demo_no_fail demo_clock demo_randint
                  demo_depth)
    (Some (custom_error_handler py_repr_int_list)) 0 demo_s [1; 2; 3]%Z =
  Some ((consume demo_frame demo_total demo_ok demo_no_fail demo_clock demo_randint demo_depth
           [1; 2; 3]%Z demo_s).1, [EvDeliver 0 [1; 2; 3]%Z None], []).
Proof. split; [reflexivity|]. apply error_handler_unreachable. reflexivity. Defined.

(** The batch [[3, 4]] is written as [batch_0002.parquet] but the
    checkpoint cannot be saved; after a restart, [[5, 6]] replaces it. *)
Lemma restart_overwrites_witness :
  let pb := process_batch demo_frame demo_total demo_ckpt_fails demo_no_fail in
  let s1 := (pb [3; 4]%Z demo_ckpt).1 in
  let s' := init (name demo_ckpt) (batch_size demo_ckpt) "data" (max_retries demo_ckpt) 1 true
              (fs s1) 0 in
  let s2 := (pb [5; 6]%Z s').1 in
  consumer_dir demo_ckpt = "data" ++ "/" ++ consumer_dir_name (name demo_ckpt) /\
  fs demo_ckpt !! checkpoint_file demo_ckpt =
    Some (CheckpointJson (Some (file_counter demo_ckpt)) (Some (processed_count demo_ckpt))) /\
  demo_ckpt_fails (checkpoint_file demo_ckpt) = true /\
  pb [3; 4]%Z demo_ckpt = (s1, Ok tt) /\ pb [5; 6]%Z s' = (s2, Ok tt) /\
  fs s1 !! batch_path demo_ckpt (file_counter demo_ckpt + 1) = Some (Parquet [3; 4]%Z) /\
  file_counter s' = file_counter demo_ckpt /\
  fs s2 !! batch_path demo_ckpt (file_counter demo_ckpt + 1) = Some (Parquet [5; 6]%Z).
Proof.
  intros pb s1 s' s2.
  assert (pb [3; 4]%Z demo_ckpt = (s1, Ok tt)) as H1 by (vm_compute; reflexivity).
  assert (pb [5; 6]%Z s' = (s2, Ok tt)) as H2 by (vm_compute; reflexivity).
  split; [vm_compute; reflexivity|]. split; [vm_compute; reflexivity|].
  split; [vm_compute; reflexivity|]. split; [exact H1|]. split; [exact H2|].
  exact (restart_overwrites demo_frame demo_total demo_ckpt_fails demo_no_fail demo_ckpt
           [3; 4]%Z s1 "data" 1 true 0 [5; 6]%Z s2
           ltac:(vm_compute; reflexivity) ltac:(vm_compute; reflexivity)
           ltac:(vm_compute; reflexivity) H1 H2).
Defined.
End demo.

End FaultTolerant.
