(* ===== verification/Drivers.v ===== *)
(** * The programs of src/: the [main] functions over the dispatcher

    Each [main] of src/ builds consumers, constructs a [Disruptor], and on
    its own thread runs [try: <register, produce...> finally:
    disruptor.close()], while the dispatcher runs one worker thread per
    consumer.  A [program] is that shape: the constructor's arguments, the
    actions of the [try] block and those of the [finally] block; [pstep]
    interleaves the main thread, which takes its next action when the
    dispatcher accepts it (a [produce] that must wait simply does not step
    yet), with worker iterations of any consumer at any time.  A refused
    action raises out of the [try] block into the [finally] block, and out
    of the program from the [finally] block.  [disruptor.close()] is the
    two actions [Close] (stop accepting) and [Finish] (wait for the drain,
    close the consumers).  [time.sleep] and the main thread's [print] and
    [logger] lines are not modelled.

    A straight-line main ([straight_program]) registers its consumers,
    publishes one item at a time and closes; every [main] of src/ has
    that shape.  Its invariant [straight_at] gives, in every state, the
    items published, the consumers registered and what each has become,
    from which follow the absence of misuse, termination under a fair
    schedule, and what each consumer was handed.  [main_py] is [main] of
    src/main.py with its two [MyConsumer]s; the theorems about it are the
    dispatcher's guarantees (from [Dispatcher.v] and [DispatcherFacts.v])
    in every state of that program, the absence of misuse, termination,
    and what the consumers print.  [BatchMain.v] and [FTMain.v] apply
    the same invariant to the other two mains. *)

From S2P Require Import Prelude RingBuffer Consumer Broadcast Dispatcher DispatcherFacts.
From S2P Require Import PyFormat MyConsumer.
Import Dispatcher.

Module Driver.
Section program.
Context {A C : Type} `{!Consumer A C}.

(** [Disruptor(name, size, consumer_error_handler)], then
    [try: body finally: cleanup] on the main thread. *)
Record program : Type := mk_program {
  p_name : string;
  p_size : Z;
  p_handler : option (handler A C);
  p_body : list (action A C);
  p_cleanup : list (action A C)
  }.

Record pstate : Type := mk_pstate {
  ps_body : list (action A C);      (** what is left of the [try] block *)
  ps_cleanup : list (action A C);   (** what is left of the [finally] block *)
  ps_bus : disruptor A C
  }.

Inductive pstep : pstate -> pstate -> Prop :=
  | pstep_body a body cl d d' :
    exec d a = Done d' -> pstep (mk_pstate (a :: body) cl d) (mk_pstate body cl d')
  | pstep_body_raise a body cl d m :
    exec d a = Misuse m -> pstep (mk_pstate (a :: body) cl d) (mk_pstate [] cl d)
  | pstep_cleanup a cl d d' :
    exec d a = Done d' -> pstep (mk_pstate [] (a :: cl) d) (mk_pstate [] cl d')
  | pstep_cleanup_raise a cl d m :
    exec d a = Misuse m -> pstep (mk_pstate [] (a :: cl) d) (mk_pstate [] [] d)
  | pstep_worker body cl d i d' :
    work d i = Done d' -> pstep (mk_pstate body cl d) (mk_pstate body cl d').

(** The program after the constructor; [None] when it raises. *)
Definition start (p : program) : option pstate :=
  match create (p_name p) (p_size p) (p_handler p) with
  | Done d => Some (mk_pstate (p_body p) (p_cleanup p) d)
  | _ => None
  end.

Definition prog_reachable (p : program) (s : pstate) : Prop :=
  exists s0, start p = Some s0 /\ rtc pstep s0 s.

(** ** Program runs are dispatcher runs *)

Lemma pstep_bus s s' : pstep s s' -> ps_bus s' = ps_bus s \/ step (ps_bus s) (ps_bus s').
Proof.
  destruct 1; simpl; eauto using step_exec.
  right. apply (step_exec _ (Work i)). done.
Qed.

Lemma prog_bus_reachable p s : prog_reachable p s -> reachable (ps_bus s).
Proof.
  intros (s0 & Hs & Hrtc). unfold start in Hs.
  destruct (create _ _ _) as [d0| |] eqn:Ec; simplify_eq.
  exists (p_name p), (p_size p), (p_handler p), d0. split; [done|].
  change d0 with (ps_bus (mk_pstate (p_body p) (p_cleanup p) d0)).
  induction Hrtc as [s|s1 s2 s3 H12 _ IH]; [apply rtc_refl|].
  destruct (pstep_bus _ _ H12) as [<- | Hst]; [done|]. by eapply rtc_l.
Qed.

Lemma prog_reachable_step p s s' : prog_reachable p s -> pstep s s' -> prog_reachable p s'.
Proof. intros (s0 & Hs & Hrtc) H. exists s0. split; [done|]. by eapply rtc_r. Qed.

(** Worker iterations, in any order, are steps of the program. *)
Lemma run_workers body cl d (l : list nat) :
  rtc pstep (mk_pstate body cl d) (mk_pstate body cl (run d (Work <$> l))).
Proof.
  revert d. induction l as [|i l IH]; intros d; simpl; [apply rtc_refl|].
  destruct (work d i) as [d'| |] eqn:Ew; try apply IH.
  eapply rtc_l; [by apply pstep_worker with (i := i) | apply IH].
Qed.

Lemma drain_steps body cl d : rtc pstep (mk_pstate body cl d) (mk_pstate body cl (drain d)).
Proof. apply run_workers. Qed.

Lemma exec_ring_size d a d' :
  exec d a = Done d' -> RingBuffer.size (d_ring d') = RingBuffer.size (d_ring d).
Proof.
  destruct a as [c|items|i| |]; simpl.
  - unfold register. destruct (d_phase d); intros; simplify_eq/=; done.
  - unfold produce. destruct (d_phase d); try discriminate; case_decide; try discriminate;
      (destruct (Barrier.can_claim _ _ _); [|discriminate]); intros; simplify_eq/=;
      apply RingBuffer.write_from_size.
  - intros Hw. destruct (work_shape d i d' Hw) as (_ & _ & ->). done.
  - unfold close_begin. destruct (d_phase d); intros; simplify_eq/=; done.
  - unfold finish. destruct (d_phase d); try discriminate. destruct (caught_up d); [|discriminate].
    destruct (close_all 0 _). intros; simplify_eq/=. done.
Qed.

Implicit Types (d : disruptor A C).

(** An executable scheduler: who moves next, the main thread or the
    worker of consumer [i]; a move that must wait does nothing. *)
Inductive choice : Type := Main | Worker (i : nat).

Definition main_move (s : pstate) : pstate :=
  match ps_body s, ps_cleanup s with
  | a :: body, cl =>
      match exec (ps_bus s) a with
      | Done d' => mk_pstate body cl d'
      | Misuse _ => mk_pstate [] cl (ps_bus s)
      | Wait => s
      end
  | [], a :: cl =>
      match exec (ps_bus s) a with
      | Done d' => mk_pstate [] cl d'
      | Misuse _ => mk_pstate [] [] (ps_bus s)
      | Wait => s
      end
  | [], [] => s
  end.

Definition move (s : pstate) (c : choice) : pstate :=
  match c with
  | Main => main_move s
  | Worker i => match work (ps_bus s) i with Done d' => mk_pstate (ps_body s) (ps_cleanup s) d' | _ => s end
  end.

Definition prog_run (s : pstate) (cs : list choice) : pstate := foldl move s cs.

Lemma move_steps s c : rtc pstep s (move s c).
Proof.
  destruct s as [body cl d], c as [|i]; simpl.
  - unfold main_move; simpl. destruct body as [|a body]; [destruct cl as [|a cl]|].
    + apply rtc_refl.
    + destruct (exec d a) eqn:E; [apply rtc_once; by econstructor | apply rtc_refl |
        apply rtc_once; by eapply pstep_cleanup_raise].
    + destruct (exec d a) eqn:E; [apply rtc_once; by econstructor | apply rtc_refl |
        apply rtc_once; by eapply pstep_body_raise].
  - destruct (work d i) eqn:E; [apply rtc_once; by econstructor | apply rtc_refl..].
Qed.

Lemma prog_run_reachable p s cs : prog_reachable p s -> prog_reachable p (prog_run s cs).
Proof.
  unfold prog_run. revert s. induction cs as [|c cs IH]; intros s (s0 & Hs & Hr); simpl; [by exists s0|].
  apply IH. exists s0. split; [done|]. etrans; [exact Hr | apply move_steps].
Qed.

Lemma register_done d c d' :
  register d c = Done d' ->
  d_phase d = NEW /\ d_phase d' = NEW /\ d_consumers d' = d_consumers d ++ [(c, (-1)%Z)] /\
  d_trace d' = d_trace d.
Proof. unfold register. destruct (d_phase d); intros; simplify_eq/=; done. Qed.

Lemma produce_done d items d' :
  produce d items = Done d' ->
  (d_phase d = NEW \/ d_phase d = RUNNING) /\ d_phase d' = RUNNING /\
  d_consumers d' = d_consumers d /\
  d_trace d' = d_trace d ++ [EvPublish (d_cursor d + 1) items].
Proof.
  unfold produce. destruct (d_phase d); try discriminate; case_decide; try discriminate;
    (destruct (Barrier.can_claim _ _ _); [|discriminate]); intros; simplify_eq/=; auto.
Qed.

Lemma produce_no_misuse d items m :
  d_phase d = NEW \/ d_phase d = RUNNING -> items <> [] -> produce d items <> Misuse m.
Proof.
  unfold produce. intros [-> | ->] Hne; rewrite decide_False by done;
    by destruct (Barrier.can_claim _ _ _).
Qed.

Lemma close_begin_done d d' :
  close_begin d = Done d' ->
  d_consumers d' = d_consumers d /\ d_trace d' = d_trace d /\
  d_phase d' = match d_phase d with NEW | RUNNING => DRAINING | ph => ph end.
Proof. unfold close_begin. destruct (d_phase d) eqn:E; intros; simplify_eq/=; rewrite ?E; done. Qed.

Lemma work_trace d i d' :
  work d i = Done d' -> d_phase d' = d_phase d /\ published (d_trace d') = published (d_trace d).
Proof.
  unfold work. destruct (d_consumers d !! i) as [[c ci]|]; [|done]. case_decide; [|done].
  destruct (RingBuffer.read_range _ _ _) as [batch|]; [|done].
  destruct (deliver _ _ _ _) as [[[c' evs] lines]|] eqn:Ed; intros; simplify_eq/=.
  destruct (Broadcast.deliver_trace _ _ _ _ _ _ _ 0 Ed) as (Hp & _).
  by rewrite published_app, Hp, app_nil_r.
Qed.

Lemma finish_done d d' :
  finish d = Done d' ->
  d_phase d = DRAINING /\ d_phase d' = CLOSED /\ published (d_trace d') = published (d_trace d).
Proof.
  unfold finish. destruct (d_phase d); try discriminate. destruct (caught_up d); [|discriminate].
  pose proof (Broadcast.close_all_trace (A:=A) (d_consumers d).*1 0 0) as [Hp _].
  destruct (close_all 0 _) as [cs' evs]. intros; simplify_eq/=.
  by rewrite published_app, Hp, app_nil_r.
Qed.

Lemma finish_no_misuse d m : finish d <> Misuse m.
Proof. unfold finish. destruct (d_phase d); try done. destruct (caught_up d); [|done]. by destruct (close_all _ _). Qed.

(** The capacity is the constructor's [size] in every state. *)
Lemma prog_ring_size p s : prog_reachable p s -> RingBuffer.size (d_ring (ps_bus s)) = p_size p.
Proof.
  intros (s0 & Hs & Hrtc). unfold start in Hs.
  destruct (create _ _ _) as [d0| |] eqn:Ec; simplify_eq.
  assert (RingBuffer.size (d_ring d0) = p_size p) as H0.
  { unfold create in Ec. case_decide; simplify_eq/=. done. }
  change d0 with (ps_bus (mk_pstate (p_body p) (p_cleanup p) d0)) in H0.
  revert H0. induction Hrtc as [s|s1 s2 s3 H12 _ IH]; intros H0; [done|]. apply IH.
  destruct (pstep_bus _ _ H12) as [E | Hst]; [by rewrite E|].
  destruct Hst as [d a d' Hex]. by rewrite (exec_ring_size _ _ _ Hex).
Qed.
End program.
Arguments program : clear implicits.
Arguments pstate : clear implicits.

Lemma drop_cons_inv {X} (l : list X) k a rest :
  drop k l = a :: rest -> l !! k = Some a /\ drop (S k) l = rest.
Proof.
  intros H. split.
  - rewrite <-(Nat.add_0_r k), <-lookup_drop, H. done.
  - rewrite <-Nat.add_1_r, <-drop_drop, H. done.
Qed.

(** ** Straight-line mains

    [main] of src/main.py and of src/batch_json_example.py have one shape:
    register the consumers [cs0], [produce([x])] for each [x] of [xs] in
    order, then [disruptor.close()] in the [finally] block.  The
    invariant [straight_at pc] describes the state after the main thread
    has taken [pc] actions, whatever the workers did meanwhile. *)

Section straight.
Context {A C : Type} `{!Consumer A C}.
Variables (name : string) (size : Z) (h : option (handler A C)) (cs0 : list C) (xs : list A).
Implicit Types (s : pstate A C) (d : disruptor A C).

Definition straight_program : program A C :=
  {| p_name := name; p_size := size; p_handler := h;
     p_body := (Register <$> cs0) ++ ((fun x => Produce [x]) <$> xs);
     p_cleanup := [Close; Finish] |}.

(** The phase after the main thread has taken [pc] actions. *)
Definition straight_phase (pc : nat) : phase :=
  if decide (pc <= length cs0)%nat then NEW
  else if decide (pc <= length cs0 + length xs)%nat then RUNNING
  else if decide (pc = S (length cs0 + length xs)) then DRAINING
  else CLOSED.

(** What is left of the two blocks, the items published so far, the
    consumers registered so far and what each has become, the phase. *)
Definition straight_at (pc : nat) s : Prop :=
  (pc <= length cs0 + length xs + 2)%nat /\
  ps_body s = drop pc (p_body straight_program) /\
  ps_cleanup s = drop (pc - (length cs0 + length xs)) [Close; Finish] /\
  published (d_trace (ps_bus s)) = take (pc - length cs0) xs /\
  replay_inv (take pc cs0) (ps_bus s) /\
  d_phase (ps_bus s) = straight_phase pc.

Definition straight_inv s : Prop := exists pc, straight_at pc s.

Lemma straight_body_length : length (p_body straight_program) = (length cs0 + length xs)%nat.
Proof. simpl. by rewrite length_app, !length_fmap. Qed.

Lemma straight_body_lookup pc a :
  p_body straight_program !! pc = Some a ->
  (exists c, (pc < length cs0)%nat /\ cs0 !! pc = Some c /\ a = Register c) \/
  (exists x, (length cs0 <= pc)%nat /\ xs !! (pc - length cs0) = Some x /\ a = Produce [x]).
Proof.
  simpl. intros [Ha | (Hle & Ha)]%lookup_app_Some; rewrite list_lookup_fmap in Ha.
  - left. destruct (cs0 !! pc) as [c|] eqn:E; simplify_eq/=.
    exists c. split_and!; [by eapply lookup_lt_Some | done..].
  - right. rewrite length_fmap in Ha, Hle. destruct (xs !! _) as [x|] eqn:E; simplify_eq/=.
    by exists x.
Qed.

Lemma straight_at_start s : start straight_program = Some s -> straight_at 0 s.
Proof.
  unfold start. destruct (create _ _ _) as [d0| |] eqn:Ec; intros; simplify_eq/=.
  pose proof (replay_inv_create _ _ _ _ Ec) as Hr.
  unfold create in Ec. case_decide; simplify_eq/=.
  unfold straight_at, straight_phase; simpl.
  split_and!; try done; try lia; repeat case_decide; first [done | lia].
Qed.

(** A worker iteration keeps the invariant. *)
Lemma straight_at_worker pc s i d' :
  reachable (ps_bus s) -> straight_at pc s -> work (ps_bus s) i = Done d' ->
  straight_at pc (mk_pstate (ps_body s) (ps_cleanup s) d').
Proof.
  intros Hr (Hpc & Hb & Hc & Hpub & Hrep & Hph) Hw.
  destruct (work_trace _ _ _ Hw) as [Hph' Hpub'].
  split_and!; simpl; try done; [by rewrite Hpub' | by apply (replay_work _ (ps_bus s) i) | by rewrite Hph'].
Qed.

(** The main thread's next action of the [try] block keeps it. *)
Lemma straight_at_body pc s a body d' :
  reachable (ps_bus s) -> straight_at pc s -> ps_body s = a :: body ->
  exec (ps_bus s) a = Done d' -> straight_at (S pc) (mk_pstate body (ps_cleanup s) d').
Proof.
  intros Hr (Hpc & Hb & Hc & Hpub & Hrep & Hph) Hbody Hex.
  rewrite Hbody in Hb. symmetry in Hb. apply drop_cons_inv in Hb as [Ha Hrest].
  pose proof (lookup_lt_Some _ _ _ Ha) as Hlt. rewrite straight_body_length in Hlt.
  pose proof (exec_replay _ _ _ _ Hr Hex Hrep) as Hrep'.
  unfold straight_at; cbn [ps_body ps_cleanup ps_bus].
  replace (S pc - (length cs0 + length xs))%nat with (pc - (length cs0 + length xs))%nat by lia.
  destruct (straight_body_lookup pc a Ha) as [(c & Hk & Hc0 & ->) | (x & Hk & Hx & ->)];
    simpl in Hex, Hrep'.
  - destruct (register_done _ _ _ Hex) as (_ & Hph' & _ & Htr').
    split_and!; try done; try lia.
    + rewrite Htr', Hpub. by replace (S pc - length cs0)%nat with (pc - length cs0)%nat by lia.
    + by rewrite (take_S_r _ _ c Hc0).
    + rewrite Hph'. unfold straight_phase. by rewrite decide_True by lia.
  - destruct (produce_done _ _ _ Hex) as (_ & Hph' & _ & Htr').
    split_and!; try done; try lia.
    + rewrite Htr', published_app, Hpub. simpl. rewrite ?app_nil_r.
      replace (S pc - length cs0)%nat with (S (pc - length cs0)) by lia.
      by rewrite (take_S_r _ _ x Hx).
    + rewrite take_ge in Hrep' |- * by lia. done.
    + rewrite Hph'. unfold straight_phase. by rewrite decide_False, decide_True by lia.
Qed.

Lemma straight_at_body_done pc s :
  straight_at pc s -> ps_body s = [] -> (length cs0 + length xs <= pc)%nat.
Proof.
  intros (_ & Hb & _) He. rewrite He in Hb. apply (f_equal length) in Hb.
  rewrite length_drop, straight_body_length in Hb. simpl in Hb. lia.
Qed.

(** The main thread's next action of the [finally] block keeps it. *)
Lemma straight_at_cleanup pc s a cl d' :
  reachable (ps_bus s) -> straight_at pc s -> ps_body s = [] -> ps_cleanup s = a :: cl ->
  exec (ps_bus s) a = Done d' -> straight_at (S pc) (mk_pstate [] cl d').
Proof.
  intros Hr Hat He Hcl Hex. pose proof (straight_at_body_done pc s Hat He) as Hge.
  destruct Hat as (Hpc & Hb & Hc & Hpub & Hrep & Hph).
  rewrite take_ge in Hpub by lia. rewrite take_ge in Hrep by lia.
  pose proof (exec_replay _ _ _ _ Hr Hex Hrep) as Hrep'.
  rewrite Hcl in Hc. unfold straight_at; cbn [ps_body ps_cleanup ps_bus].
  assert (drop (S pc) (p_body straight_program) = []) as ->
    by (apply drop_ge; rewrite straight_body_length; lia).
  rewrite !take_ge by lia.
  destruct (pc - (length cs0 + length xs))%nat as [|[|j]] eqn:Ej; simpl in Hc; simplify_eq/=.
  - destruct (close_begin_done _ _ Hex) as (_ & Htr' & Hph').
    split_and!; try done; try lia.
    + by replace (S pc - (length cs0 + length xs))%nat with 1%nat by lia.
    + by rewrite Htr'.
    + rewrite Hph', Hph. unfold straight_phase. repeat case_decide; first [done | exfalso; lia].
  - destruct (finish_done _ _ Hex) as (_ & Hph' & Hpub').
    split_and!; try done; try lia.
    + by replace (S pc - (length cs0 + length xs))%nat with 2%nat by lia.
    + by rewrite Hpub'.
    + rewrite Hph'. unfold straight_phase. repeat case_decide; first [done | exfalso; lia].
  - by rewrite drop_nil in Hc.
Qed.

(** The main thread's next action is never refused. *)
Lemma straight_at_no_misuse pc s :
  straight_at pc s ->
  (forall a body m, ps_body s = a :: body -> exec (ps_bus s) a <> Misuse m) /\
  (forall a cl m, ps_body s = [] -> ps_cleanup s = a :: cl -> exec (ps_bus s) a <> Misuse m).
Proof.
  intros Hat. split.
  - intros a body m Hbody. destruct Hat as (_ & Hb & _ & _ & _ & Hph).
    rewrite Hbody in Hb. symmetry in Hb. apply drop_cons_inv in Hb as [Ha _].
    destruct (straight_body_lookup pc a Ha) as [(c & Hk & _ & ->) | (x & Hk & Hx & ->)]; simpl.
    + unfold register. rewrite Hph. unfold straight_phase. by rewrite decide_True by lia.
    + pose proof (lookup_lt_Some _ _ _ Hx). apply produce_no_misuse; [|done].
      rewrite Hph. unfold straight_phase. repeat case_decide; first [by auto | exfalso; lia].
  - intros a cl m He Hcl. destruct Hat as (_ & _ & Hc & _). rewrite Hcl in Hc.
    destruct (pc - (length cs0 + length xs))%nat as [|[|k]]; simpl in Hc; simplify_eq/=.
    + unfold close_begin. by destruct (d_phase (ps_bus s)).
    + apply finish_no_misuse.
    + by rewrite drop_nil in Hc.
Qed.

(** The invariant holds in every state of the program. *)
Lemma straight_reachable_inv s : prog_reachable straight_program s -> straight_inv s.
Proof.
  intros (s0 & Hs0 & Hrtc).
  assert (forall s', rtc pstep s0 s' -> prog_reachable straight_program s') as Hreach
    by (intros s' H; by exists s0).
  refine (rtc_ind_r straight_inv s0 _ _ s Hrtc); [exists 0%nat; by apply straight_at_start|].
  clear s Hrtc. intros s1 s2 Hrtc Hst [pc Hat].
  pose proof (prog_bus_reachable _ _ (Hreach s1 Hrtc)) as Hr.
  destruct (straight_at_no_misuse pc s1 Hat) as [Hnb Hnc].
  destruct Hst as [a body cl d d' Hex|a body cl d m Hex|a cl d d' Hex|a cl d m Hex|body cl d i d' Hw].
  - exists (S pc). by apply (straight_at_body pc (mk_pstate (a :: body) cl d) a body).
  - exfalso. by apply (Hnb a body m).
  - exists (S pc). by apply (straight_at_cleanup pc (mk_pstate [] (a :: cl) d) a cl).
  - exfalso. by apply (Hnc a cl m).
  - exists pc. by apply (straight_at_worker pc (mk_pstate body cl d) i).
Qed.

(** Every consumer of a state of the program is one of [cs0], in
    registration order, as its [consume] and [close()] calls left it. *)
Lemma straight_consumers s i c ci :
  prog_reachable straight_program s -> d_consumers (ps_bus s) !! i = Some (c, ci) ->
  exists c0, cs0 !! i = Some c0 /\
    c = consumer_view (d_phase (ps_bus s)) c0 (batches i (d_trace (ps_bus s))).
Proof.
  intros Hs Hi. destruct (straight_reachable_inv s Hs) as [pc (_ & _ & _ & _ & (_ & _ & Hrep) & _)].
  destruct (Hrep i c ci Hi) as (c0 & H0 & ->). exists c0. split; [|done].
  by apply lookup_take_Some in H0 as [? _].
Qed.

(** What has been published is a prefix of [xs], all of it once the
    dispatcher is CLOSED. *)
Lemma straight_published s :
  prog_reachable straight_program s ->
  (exists m, published (d_trace (ps_bus s)) = take m xs) /\
  (d_phase (ps_bus s) = CLOSED -> published (d_trace (ps_bus s)) = xs).
Proof.
  intros Hs. destruct (straight_reachable_inv s Hs) as [pc (Hpc & _ & _ & Hpub & _ & Hph)].
  split; [by eexists|]. intros Hcl. rewrite Hpub. apply take_ge.
  rewrite Hph in Hcl. unfold straight_phase in Hcl. repeat case_decide; first [discriminate | lia].
Qed.

(** Consumer [i] has been handed the first [ci + 1] items of [xs], all
    of them once the dispatcher is CLOSED. *)
Lemma straight_delivered s i c ci :
  prog_reachable straight_program s -> d_consumers (ps_bus s) !! i = Some (c, ci) ->
  (0 <= ci + 1 <= Z.of_nat (length xs))%Z /\
  delivered i (d_trace (ps_bus s)) = take (Z.to_nat (ci + 1)) xs /\
  (d_phase (ps_bus s) = CLOSED -> delivered i (d_trace (ps_bus s)) = xs).
Proof.
  intros Hs Hi. pose proof (prog_bus_reachable _ _ Hs) as Hr.
  destruct (straight_published s Hs) as [[m Hpub] Hall].
  destruct (cursor_bounds _ i _ ci Hr Hi) as (Hci & _ & Hcur).
  rewrite Hpub, length_take in Hcur. split; [lia | split].
  - rewrite (broadcast_complete _ i _ ci Hr Hi), Hpub, take_take. f_equal. lia.
  - intros Hph. destruct (graceful_close _ i _ ci Hr Hph Hi) as (_ & -> & _). by apply Hall.
Qed.

(** The main thread never performs an action the dispatcher refuses. *)
Lemma straight_no_misuse s :
  prog_reachable straight_program s ->
  (forall a body m, ps_body s = a :: body -> exec (ps_bus s) a <> Misuse m) /\
  (forall a cl m, ps_body s = [] -> ps_cleanup s = a :: cl -> exec (ps_bus s) a <> Misuse m).
Proof.
  intros Hs. destruct (straight_reachable_inv s Hs) as [pc Hat]. exact (straight_at_no_misuse pc s Hat).
Qed.

Section live.
(** Every [consume] returns or raises, and the ring holds an item. *)
Hypothesis consume_returns : forall (batch : list A) (c : C), (consume batch c).2 <> NoFuel.
Hypothesis size_pos : (1 <= size)%Z.

Lemma straight_at_run_workers pc body cl d (l : list nat) :
  prog_reachable straight_program (mk_pstate body cl d) -> straight_at pc (mk_pstate body cl d) ->
  prog_reachable straight_program (mk_pstate body cl (run d (Work <$> l))) /\
  straight_at pc (mk_pstate body cl (run d (Work <$> l))).
Proof.
  revert d. induction l as [|i l IH]; intros d Hs Hat; simpl; [done|].
  destruct (work d i) as [d'| |] eqn:Ew; apply IH; try done.
  - apply (prog_reachable_step _ (mk_pstate body cl d)); [exact Hs|].
    by apply (pstep_worker body cl d i d').
  - apply (straight_at_worker pc (mk_pstate body cl d) i); [|done..].
    apply (prog_bus_reachable _ _ Hs).
Qed.

(** From any state of the program, once the workers have caught up,
    the main thread takes its next action. *)
Lemma straight_progress pc s :
  prog_reachable straight_program s -> straight_at pc s ->
  (pc < length cs0 + length xs + 2)%nat ->
  exists s', rtc pstep s s' /\ prog_reachable straight_program s' /\ straight_at (S pc) s'.
Proof.
  destruct s as [body cl d]. intros Hs Hat Hpc. pose proof (prog_bus_reachable _ _ Hs) as Hr.
  destruct (straight_at_run_workers pc body cl d (seq 0 (length (d_consumers d))) Hs Hat)
    as [Hs1 Hat1]. fold (drain d) in Hs1, Hat1.
  pose proof (prog_bus_reachable _ _ Hs1) as Hr1.
  assert (forall s', pstep (mk_pstate body cl (drain d)) s' -> straight_at (S pc) s' ->
            exists s'', rtc pstep (mk_pstate body cl d) s'' /\
                        prog_reachable straight_program s'' /\ straight_at (S pc) s'') as Hgo.
  { intros s' Hst Hat'. exists s'. split_and!; [|by eapply prog_reachable_step|done].
    etrans; [apply drain_steps | by apply rtc_once]. }
  destruct (drain_caught_up consume_returns d Hr) as (_ & _ & Hdph & _).
  pose proof Hat1 as (_ & Hb & Hc & _ & _ & Hph). cbn [ps_body ps_cleanup ps_bus] in Hb, Hc, Hph.
  destruct (decide (pc < length cs0 + length xs)%nat) as [Hlt|Hge].
  - destruct body as [|a rest].
    { symmetry in Hb. apply (f_equal length) in Hb.
      rewrite length_drop, straight_body_length in Hb. simpl in Hb. lia. }
    symmetry in Hb. pose proof Hb as Hb'. apply drop_cons_inv in Hb' as [Ha _].
    assert (exists d2, exec (drain d) a = Done d2) as [d2 Hex].
    { destruct (straight_body_lookup pc a Ha) as [(c & Hk & _ & ->) | (x & Hk & Hx & ->)]; simpl.
      - unfold register. rewrite Hph. unfold straight_phase. rewrite decide_True by lia. by eexists.
      - pose proof (lookup_lt_Some _ _ _ Hx).
        apply (produce_liveness consume_returns d); [done | | done |].
        + rewrite <-Hdph, Hph. unfold straight_phase. repeat case_decide; first [by auto | exfalso; lia].
        + pose proof (prog_ring_size _ _ Hs) as Hsz. simpl in Hsz |- *. rewrite Hsz. simpl. lia. }
    apply (Hgo (mk_pstate rest cl d2)); [by apply pstep_body|].
    by apply (straight_at_body pc (mk_pstate (a :: rest) cl (drain d)) a rest d2).
  - assert (body = []) as -> by (rewrite Hb; apply drop_ge; rewrite straight_body_length; lia).
    destruct cl as [|a rest]; [destruct (pc - (length cs0 + length xs))%nat as [|[|k]] eqn:Ek;
      simpl in Hc; first [discriminate | lia]|].
    assert (exists d2, exec (drain d) a = Done d2) as [d2 Hex].
    { destruct (pc - (length cs0 + length xs))%nat as [|[|k]] eqn:Ek; simpl in Hc; simplify_eq/=.
      - unfold close_begin. destruct (d_phase (drain d)); by eexists.
      - assert (d_phase d = DRAINING) as Hdr.
        { rewrite <-Hdph, Hph. unfold straight_phase. repeat case_decide; first [done | exfalso; lia]. }
        destruct (close_liveness consume_returns d Hr) as (d2 & Hf & _); [by rewrite Hdr|].
        exists d2. simpl in Hf. unfold close_begin in Hf. rewrite Hdr in Hf. exact Hf.
      - by rewrite drop_nil in Hc. }
    apply (Hgo (mk_pstate [] rest d2)); [by apply pstep_cleanup|].
    by apply (straight_at_cleanup pc (mk_pstate [] (a :: rest) (drain d)) a rest d2).
Qed.

Lemma straight_finishes pc s :
  prog_reachable straight_program s -> straight_at pc s ->
  exists s', rtc pstep s s' /\ straight_at (length cs0 + length xs + 2) s'.
Proof.
  remember (length cs0 + length xs + 2 - pc)%nat as k eqn:Ek. revert pc s Ek.
  induction k as [|k IH]; intros pc s Ek Hs Hat.
  - exists s. split; [apply rtc_refl|]. pose proof (proj1 Hat) as Hpc.
    replace (length cs0 + length xs + 2)%nat with pc by lia. done.
  - destruct (straight_progress pc s Hs Hat) as (s1 & H1 & Hs1 & Hat1); [lia|].
    destruct (IH (S pc) s1) as (s' & H2 & Hat'); [lia | done | done |].
    exists s'. split; [by etrans | done].
Qed.

(** From every state of the program there is a continuation in which
    the workers keep up and the main thread completes. *)
Lemma straight_terminates s :
  prog_reachable straight_program s ->
  exists s', rtc pstep s s' /\ ps_body s' = [] /\ ps_cleanup s' = [] /\
             d_phase (ps_bus s') = CLOSED.
Proof.
  intros Hs. destruct (straight_reachable_inv s Hs) as [pc Hat].
  destruct (straight_finishes pc s Hs Hat) as (s' & Hst & (_ & Hb & Hc & _ & _ & Hph)).
  exists s'. split_and!; [done | | | ].
  - rewrite Hb. apply drop_ge. rewrite straight_body_length. lia.
  - rewrite Hc. by replace (length cs0 + length xs + 2 - (length cs0 + length xs))%nat with 2%nat by lia.
  - rewrite Hph. unfold straight_phase. repeat case_decide; first [done | exfalso; lia].
Qed.
End live.
End straight.

(** ** [main()] of src/main.py *)

Section main_py.
Local Open Scope string_scope.
Implicit Types (s : pstate Z my_consumer).

(** [MyConsumer(name="Consumer One")] and [MyConsumer(name="Consumer Two")]. *)
Definition main_consumers : list my_consumer :=
  [my_consumer_init "Consumer One"; my_consumer_init "Consumer Two"].

(** [main()] with [range(n)] in place of [range(10_000)]: register both
    consumers, [produce([i])] for each [i], then [disruptor.close()]. *)
Definition main_program (n : Z) : program Z my_consumer :=
  straight_program "Example" (1024 * 8) None main_consumers (seqZ 0 n).

Definition main_py : program Z my_consumer := main_program 10000.

(** C1 (the dispatcher implements the broadcast queue, in main.py). Every
    state of main.py's run, under any interleaving of the main thread and
    the two workers, is related by [refines] to a state of the abstract
    broadcast queue: same consumers, trace and log, cursors equal to the
    abstract positions minus one, and ring slots holding every item a
    consumer may still read. *)
Theorem main_refinement s :
  prog_reachable main_py s -> exists b, Broadcast.reachable b /\ refines (ps_bus s) b.
Proof. intros Hs. apply refinement, (prog_bus_reachable main_py), Hs. Qed.

(** C2 (P1, broadcast completeness, in main.py). In every state of the
    run, the batches handed to a consumer, concatenated, are exactly the
    first [ci + 1] published items in publication order, [ci] being its
    cursor. *)
Theorem main_broadcast_complete s i c ci :
  prog_reachable main_py s -> d_consumers (ps_bus s) !! i = Some (c, ci) ->
  delivered i (d_trace (ps_bus s)) = take (Z.to_nat (ci + 1)) (published (d_trace (ps_bus s))).
Proof. intros Hs. apply broadcast_complete, (prog_bus_reachable main_py), Hs. Qed.

(** C3 (P2, no slot is read after it was overwritten, in main.py). When a
    worker reads its backlog, the ring returns exactly the items
    published at those sequences. *)
Theorem main_reads_published s i c ci :
  prog_reachable main_py s -> d_consumers (ps_bus s) !! i = Some (c, ci) ->
  (ci < d_cursor (ps_bus s))%Z ->
  RingBuffer.read_range (d_ring (ps_bus s)) (ci + 1) (d_cursor (ps_bus s)) =
  Some (drop (Z.to_nat (ci + 1)) (published (d_trace (ps_bus s)))).
Proof. intros Hs. apply worker_reads_published, (prog_bus_reachable main_py), Hs. Qed.

(** C4 (invariants 1 and 2, P4 backpressure, in main.py). Every consumer
    cursor lies between [-1] and the producer cursor, the producer is
    never more than the capacity [1024 * 8] ahead of a consumer, and the
    producer cursor is the last published sequence. *)
Theorem main_cursor_bounds s i c ci :
  prog_reachable main_py s -> d_consumers (ps_bus s) !! i = Some (c, ci) ->
  (-1 <= ci <= d_cursor (ps_bus s))%Z /\ (d_cursor (ps_bus s) - ci <= 1024 * 8)%Z /\
  d_cursor (ps_bus s) = (Z.of_nat (length (published (d_trace (ps_bus s)))) - 1)%Z.
Proof.
  intros Hs Hi.
  replace (1024 * 8)%Z with (RingBuffer.size (d_ring (ps_bus s)))
    by (rewrite (prog_ring_size main_py s Hs); reflexivity).
  apply (cursor_bounds _ i c), Hi. apply (prog_bus_reachable main_py), Hs.
Qed.

(** C5 (P3, monotonic cursors, in main.py). No step of the program, by
    the main thread or by a worker, moves the producer cursor or a
    consumer cursor backwards or drops a consumer. *)
Theorem main_cursors_monotone s s' :
  prog_reachable main_py s -> pstep s s' ->
  (d_cursor (ps_bus s) <= d_cursor (ps_bus s'))%Z /\
  (forall i c ci, d_consumers (ps_bus s) !! i = Some (c, ci) ->
     exists c' ci', d_consumers (ps_bus s') !! i = Some (c', ci') /\ (ci <= ci')%Z).
Proof.
  intros _ Hst. destruct (pstep_bus _ _ Hst) as [-> | Hd]; [|by apply cursors_monotone].
  split; [lia|]. intros i c ci Hi. exists c, ci. split; [done | lia].
Qed.

(** C6 (P5, graceful close, in main.py). Once main.py's [close()] has
    brought the dispatcher to CLOSED, each consumer's cursor is the
    producer cursor, the batches it was handed are the whole publication
    history, and its [close()] ran exactly once. *)
Theorem main_graceful_close s i c ci :
  prog_reachable main_py s -> d_phase (ps_bus s) = CLOSED ->
  d_consumers (ps_bus s) !! i = Some (c, ci) ->
  ci = d_cursor (ps_bus s) /\ delivered i (d_trace (ps_bus s)) = published (d_trace (ps_bus s)) /\
  closes i (d_trace (ps_bus s)) = 1%nat.
Proof. intros Hs. apply graceful_close, (prog_bus_reachable main_py), Hs. Qed.

(** C7 (scenario S6, in main.py). A consumer's [close()] only runs once
    the dispatcher is CLOSED, and after it no [consume] is called. *)
Theorem main_close_after_last_consume s t1 t2 i e :
  prog_reachable main_py s -> d_trace (ps_bus s) = (t1 ++ EvClose i e :: t2)%list ->
  d_phase (ps_bus s) = CLOSED /\ forall j, batches j t2 = [].
Proof. intros Hs. apply close_after_last_consume, (prog_bus_reachable main_py), Hs. Qed.

(** C8 (P6, isolation of the workers, in main.py). A worker iteration of
    consumer [i] in main.py's run is a step of the program; it changes no
    other consumer's cursor or batches and moves [i]'s cursor to the
    producer cursor. *)
Theorem main_work_isolation s i d' :
  prog_reachable main_py s -> work (ps_bus s) i = Done d' ->
  prog_reachable main_py (mk_pstate (ps_body s) (ps_cleanup s) d') /\
  d_cursor d' = d_cursor (ps_bus s) /\
  (exists c', d_consumers d' !! i = Some (c', d_cursor (ps_bus s))) /\
  (forall j, j <> i -> d_consumers d' !! j = d_consumers (ps_bus s) !! j /\
                       batches j (d_trace d') = batches j (d_trace (ps_bus s))).
Proof.
  intros Hs Hw. split; [|by apply work_isolation].
  eapply prog_reachable_step; [exact Hs|]. destruct s. by apply pstep_worker with (i := i).
Qed.

(** C9 (the lifecycle of 4.5, in main.py). Every step of the program
    moves the dispatcher's phase along the lifecycle diagram. *)
Theorem main_lifecycle s s' :
  prog_reachable main_py s -> pstep s s' -> lifecycle (d_phase (ps_bus s)) (d_phase (ps_bus s')).
Proof.
  intros _ Hst. destruct (pstep_bus _ _ Hst) as [-> | Hd]; [apply lifecycle_refl|].
  by apply lifecycle_step.
Qed.
End main_py.

(** ** The run of main.py *)

Section main_run.
Local Open Scope string_scope.
Implicit Types (s : pstate Z my_consumer).

Definition main_names : list string := ["Consumer One"; "Consumer Two"].

(** A [MyConsumer] handed the batches [bs] has printed one line per
    batch; its [close()] is the base class's no-op. *)
Lemma main_view ph c0 bs :
  consumer_view ph c0 bs =
  {| mc_name := mc_name c0; mc_stdout := mc_stdout c0 ++ (consumed_line (mc_name c0) <$> bs) |}.
Proof. destruct ph; exact (my_feed c0 bs). Qed.

Lemma take_seqZ (m k : Z) : (0 <= m <= k)%Z -> take (Z.to_nat m) (seqZ 0 k) = seqZ 0 m.
Proof.
  intros Hm. replace k with (m + (k - m))%Z at 1 by lia.
  rewrite seqZ_app by lia. apply take_app_length'. rewrite length_seqZ. done.
Qed.

(** C10 (main.py never misuses the dispatcher). In every state of the
    run, the main thread's next action, of the [try] block or of the
    [finally] block, is never refused: registration happens before the
    first publication, every publication is non-empty and before
    [close()], and [close()] is always accepted. *)
Theorem main_no_misuse s :
  prog_reachable main_py s ->
  (forall a body m, ps_body s = a :: body -> exec (ps_bus s) a <> Misuse m) /\
  (forall a cl m, ps_body s = [] -> ps_cleanup s = a :: cl -> exec (ps_bus s) a <> Misuse m).
Proof. apply straight_no_misuse. Qed.

(** C12 (what main.py prints). In every state of the run, consumer [i]
    is "Consumer One" or "Consumer Two" in registration order, and the
    lines it has printed are [f"{name} consumed {batch}"], one per batch
    it was handed, where the batches put together are [0, 1, ..., ci]
    ([ci] its cursor): each number once, in order, none skipped.  Once
    the dispatcher is CLOSED the batches put together are exactly
    [range(10_000)]. *)
Theorem main_output s i c ci :
  prog_reachable main_py s -> d_consumers (ps_bus s) !! i = Some (c, ci) ->
  main_names !! i = Some (mc_name c) /\
  exists bs, mc_stdout c = consumed_line (mc_name c) <$> bs /\
    concat bs = seqZ 0 (ci + 1) /\
    (d_phase (ps_bus s) = CLOSED -> concat bs = seqZ 0 10000).
Proof.
  intros Hs Hi. pose proof (prog_bus_reachable _ _ Hs) as Hr.
  destruct (straight_consumers _ _ _ _ _ s i c ci Hs Hi) as (c0 & H0 & Hc).
  rewrite main_view in Hc. subst c. cbn [mc_name mc_stdout].
  assert (main_names !! i = Some (mc_name c0) /\ mc_stdout c0 = []) as [Hn ->]
    by (destruct i as [|[|i]]; simplify_eq/=; done).
  split; [done|]. exists (batches i (d_trace (ps_bus s))). split; [done|].
    rewrite <-delivered_concat.
    destruct (straight_delivered _ _ _ _ _ s i _ ci Hs Hi) as (Hci & -> & Hall).
    rewrite length_seqZ in Hci. split; [apply take_seqZ; lia | done].
Qed.

Lemma my_consume_returns (batch : list Z) (c : my_consumer) : (consume batch c).2 <> NoFuel.
Proof. simpl. discriminate. Qed.

(** C11 (main.py terminates). From every state of the run, whatever the
    interleaving so far, there is a continuation in which the workers
    keep up and the main thread completes: every [produce] is accepted,
    [close()] returns, and the dispatcher is CLOSED with nothing left to
    run. *)
Theorem main_terminates s :
  prog_reachable main_py s ->
  exists s', rtc pstep s s' /\ ps_body s' = [] /\ ps_cleanup s' = [] /\
             d_phase (ps_bus s') = CLOSED.
Proof. apply straight_terminates; [apply my_consume_returns | lia]. Qed.
End main_run.


(** ** Runs of main.py

    [main_demo]: both consumers registered, [0] and [1] published,
    consumer 0's worker, [2] published, consumer 1's worker.
    [main_closed]: a whole run, the workers catching up after every
    hundred publications, then [close()]. *)

Section main_runs.
Local Open Scope string_scope.

Definition main_start : pstate Z my_consumer :=
  mk_pstate (p_body main_py) (p_cleanup main_py)
    {| d_name := "Example"; d_ring := RingBuffer.create (1024 * 8); d_cursor := (-1)%Z;
       d_consumers := []; d_phase := NEW; d_handler := None; d_trace := []; d_log := [] |}.

Definition main_demo : pstate Z my_consumer :=
  prog_run main_start [Main; Main; Main; Main; Worker 0; Main; Worker 1].

Definition main_schedule : list choice :=
  ([Main; Main] ++ concat (replicate 100 (replicate 100 Main ++ [Worker 0; Worker 1])) ++ [Main; Main])%list.

Definition main_closed : pstate Z my_consumer := prog_run main_start main_schedule.

Lemma main_start_reachable : prog_reachable main_py main_start.
Proof. exists main_start. split; [reflexivity | apply rtc_refl]. Qed.

Lemma main_demo_reachable : prog_reachable main_py main_demo.
Proof. apply prog_run_reachable, main_start_reachable. Qed.

Lemma main_closed_reachable : prog_reachable main_py main_closed.
Proof. apply prog_run_reachable, main_start_reachable. Qed.

(** The whole run ends CLOSED, with consumer 0 registered and its
    [close()] right after the 10000 publications and 200 deliveries. *)
Lemma main_closed_facts :
  d_phase (ps_bus main_closed) = CLOSED /\
  match d_consumers (ps_bus main_closed) !! 0%nat with Some _ => true | None => false end = true /\
  d_trace (ps_bus main_closed) !! 10200%nat = Some (EvClose 0 None).
Proof. vm_compute. split_and!; reflexivity. Qed.

Lemma worker_pstep {A C} `{!Consumer A C} (s : pstate A C) i d' :
  work (ps_bus s) i = Done d' -> pstep s (mk_pstate (ps_body s) (ps_cleanup s) d').
Proof. destruct s. apply pstep_worker. Qed.
End main_runs.

Definition demo_one : my_consumer :=
  {| mc_name := "Consumer One"; mc_stdout := ["Consumer One consumed [0, 1]"%string] |}.

Lemma main_refinement_witness : exists b, Broadcast.reachable b /\ refines (ps_bus main_demo) b.
Proof. apply main_refinement, main_demo_reachable. Defined.

Lemma main_broadcast_complete_witness :
  d_consumers (ps_bus main_demo) !! 0%nat = Some (demo_one, 1%Z) /\
  delivered 0 (d_trace (ps_bus main_demo)) =
  take (Z.to_nat (1 + 1)) (published (d_trace (ps_bus main_demo))).
Proof.
  assert (d_consumers (ps_bus main_demo) !! 0%nat = Some (demo_one, 1%Z)) as H
    by (vm_compute; reflexivity).
  split; [exact H | apply (main_broadcast_complete main_demo 0 demo_one 1 main_demo_reachable H)].
Defined.

Lemma main_reads_published_witness :
  d_consumers (ps_bus main_demo) !! 0%nat = Some (demo_one, 1%Z) /\
  (1 < d_cursor (ps_bus main_demo))%Z /\
  RingBuffer.read_range (d_ring (ps_bus main_demo)) (1 + 1) (d_cursor (ps_bus main_demo)) =
  Some (drop (Z.to_nat (1 + 1)) (published (d_trace (ps_bus main_demo)))).
Proof.
  assert (d_consumers (ps_bus main_demo) !! 0%nat = Some (demo_one, 1%Z)) as H
    by (vm_compute; reflexivity).
  assert (1 < d_cursor (ps_bus main_demo))%Z as Hc by (vm_compute; reflexivity).
  split_and!; [exact H | exact Hc |].
  apply (main_reads_published main_demo 0 demo_one 1 main_demo_reachable H Hc).
Defined.

Lemma main_cursor_bounds_witness :
  d_consumers (ps_bus main_demo) !! 0%nat = Some (demo_one, 1%Z) /\
  (-1 <= 1 <= d_cursor (ps_bus main_demo))%Z /\ (d_cursor (ps_bus main_demo) - 1 <= 1024 * 8)%Z /\
  d_cursor (ps_bus main_demo) = (Z.of_nat (length (published (d_trace (ps_bus main_demo)))) - 1)%Z.
Proof.
  assert (d_consumers (ps_bus main_demo) !! 0%nat = Some (demo_one, 1%Z)) as H
    by (vm_compute; reflexivity).
  split; [exact H | apply (main_cursor_bounds main_demo 0 demo_one 1 main_demo_reachable H)].
Defined.

Lemma main_cursors_monotone_witness :
  exists s', pstep main_demo s' /\
  (d_cursor (ps_bus main_demo) <= d_cursor (ps_bus s'))%Z /\
  (forall i c ci, d_consumers (ps_bus main_demo) !! i = Some (c, ci) ->
     exists c' ci', d_consumers (ps_bus s') !! i = Some (c', ci') /\ (ci <= ci')%Z).
Proof.
  destruct (work (ps_bus main_demo) 0) as [d'| |] eqn:E; try (vm_compute in E; discriminate).
  exists (mk_pstate (ps_body main_demo) (ps_cleanup main_demo) d').
  assert (pstep main_demo (mk_pstate (ps_body main_demo) (ps_cleanup main_demo) d')) as Hst
    by (apply worker_pstep with 0%nat; exact E).
  split; [exact Hst | apply (main_cursors_monotone _ _ main_demo_reachable Hst)].
Defined.

Lemma main_graceful_close_witness :
  d_phase (ps_bus main_closed) = CLOSED /\
  exists c ci, d_consumers (ps_bus main_closed) !! 0%nat = Some (c, ci) /\
  ci = d_cursor (ps_bus main_closed) /\
  delivered 0 (d_trace (ps_bus main_closed)) = published (d_trace (ps_bus main_closed)) /\
  closes 0 (d_trace (ps_bus main_closed)) = 1%nat.
Proof.
  destruct main_closed_facts as (Hph & Hc & _). split; [exact Hph|].
  destruct (d_consumers (ps_bus main_closed) !! 0%nat) as [[c ci]|] eqn:E; [|discriminate].
  exists c, ci. split; [reflexivity|].
  apply (main_graceful_close main_closed 0 c ci main_closed_reachable Hph E).
Defined.

Lemma main_close_after_last_consume_witness :
  exists t1 t2 e, d_trace (ps_bus main_closed) = (t1 ++ EvClose 0 e :: t2)%list /\
  d_phase (ps_bus main_closed) = CLOSED /\ forall j, batches j t2 = [].
Proof.
  destruct main_closed_facts as (_ & _ & Ht).
  exists (take 10200 (d_trace (ps_bus main_closed))), (drop 10201 (d_trace (ps_bus main_closed))), None.
  assert (d_trace (ps_bus main_closed) =
    (take 10200 (d_trace (ps_bus main_closed)) ++
     EvClose 0 None :: drop 10201 (d_trace (ps_bus main_closed)))%list) as Hsplit
    by (symmetry; apply take_drop_middle, Ht).
  split; [exact Hsplit | apply (main_close_after_last_consume _ _ _ 0 None main_closed_reachable Hsplit)].
Defined.

Lemma main_work_isolation_witness :
  exists d', work (ps_bus main_demo) 0 = Done d' /\
  prog_reachable main_py (mk_pstate (ps_body main_demo) (ps_cleanup main_demo) d') /\
  d_cursor d' = d_cursor (ps_bus main_demo) /\
  (exists c', d_consumers d' !! 0%nat = Some (c', d_cursor (ps_bus main_demo))) /\
  (forall j, j <> 0%nat -> d_consumers d' !! j = d_consumers (ps_bus main_demo) !! j /\
                       batches j (d_trace d') = batches j (d_trace (ps_bus main_demo))).
Proof.
  destruct (work (ps_bus main_demo) 0) as [d'| |] eqn:E; try (vm_compute in E; discriminate).
  exists d'. split; [reflexivity | apply (main_work_isolation main_demo 0 d' main_demo_reachable E)].
Defined.

Lemma main_lifecycle_witness :
  exists s', pstep main_demo s' /\ lifecycle (d_phase (ps_bus main_demo)) (d_phase (ps_bus s')).
Proof.
  destruct (work (ps_bus main_demo) 0) as [d'| |] eqn:E; try (vm_compute in E; discriminate).
  exists (mk_pstate (ps_body main_demo) (ps_cleanup main_demo) d').
  assert (pstep main_demo (mk_pstate (ps_body main_demo) (ps_cleanup main_demo) d')) as Hst
    by (apply worker_pstep with 0%nat; exact E).
  split; [exact Hst | apply (main_lifecycle _ _ main_demo_reachable Hst)].
Defined.

Lemma main_no_misuse_witness :
  (forall a body m, ps_body main_demo = a :: body -> exec (ps_bus main_demo) a <> Misuse m) /\
  (forall a cl m, ps_body main_demo = [] -> ps_cleanup main_demo = a :: cl ->
                  exec (ps_bus main_demo) a <> Misuse m).
Proof. apply main_no_misuse, main_demo_reachable. Defined.

Lemma main_output_witness :
  d_consumers (ps_bus main_demo) !! 0%nat = Some (demo_one, 1%Z) /\
  main_names !! 0%nat = Some (mc_name demo_one) /\
  exists bs, mc_stdout demo_one = consumed_line (mc_name demo_one) <$> bs /\
    concat bs = seqZ 0 (1 + 1) /\
    (d_phase (ps_bus main_demo) = CLOSED -> concat bs = seqZ 0 10000).
Proof.
  assert (d_consumers (ps_bus main_demo) !! 0%nat = Some (demo_one, 1%Z)) as H
    by (vm_compute; reflexivity).
  split; [exact H | apply (main_output main_demo 0 demo_one 1 main_demo_reachable H)].
Defined.

Lemma main_terminates_witness :
  exists s', rtc pstep main_demo s' /\ ps_body s' = [] /\ ps_cleanup s' = [] /\
             d_phase (ps_bus s') = CLOSED.
Proof. apply main_terminates, main_demo_reachable. Defined.
End Driver.
