(* ===== verification/BatchMain.v ===== *)
(** * [main()] of src/batch_json_example.py

    Two [BatchJsonConsumer]s with [batch_size=100], a [Disruptor] of size
    2048, the consumers registered, then [produce([json_obj])] for each of
    the 10000 objects [generate_complex_json()] returns, then
    [disruptor.close()].  It is a straight-line main of [Drivers.v] over
    the consumer of [BatchJson.v]; [generate_complex_json] is a parameter
    (the [k]-th object it returns), and so are the data-frame library
    calls.  The theorems compose the dispatcher's guarantees with the
    consumer's re-batching: in every state each consumer has written the
    full batches of what it was handed, in order, and once closed each has
    written exactly [batch_0001.parquet] to [batch_0100.parquet], file [k]
    holding objects [100 (k - 1)] to [100 k - 1]. *)

From S2P Require Import Prelude RingBuffer Consumer Broadcast Dispatcher DispatcherFacts.
From S2P Require Import PyFormat BatchJson Drivers.
Import Dispatcher Driver BatchJson.

Local Open Scope string_scope.

(** ** Files written by a run of batches *)

Section write_batches.
Context {Row : Type}.
Implicit Types (bs : list (list Row)) (fs : gmap string (list Row)).

Definition batch_file (dir : string) (k : Z) : string := dir ++ "/" ++ batch_filename k.

Lemma batch_file_inj dir k1 k2 : batch_file dir k1 = batch_file dir k2 -> k1 = k2.
Proof. unfold batch_file. intros H. do 2 apply string_app_inj_l in H. by apply batch_filename_inj. Qed.

(** A path that no later file number names keeps its contents. *)
Lemma write_batches_other dir fc bs fs p :
  (forall k, (fc < k)%Z -> p <> batch_file dir k) ->
  write_batches dir fc bs fs !! p = fs !! p.
Proof.
  revert fc fs. induction bs as [|b bs IH]; intros fc fs Hp; simpl; [done|].
  rewrite IH by (intros k Hk; apply Hp; lia).
  rewrite lookup_insert_ne; [done|]. intros E. apply (Hp (fc + 1)%Z); [lia | by rewrite <-E].
Qed.

(** The [j]-th batch is the file numbered [fc + j + 1]. *)
Lemma write_batches_lookup dir fc bs fs j b :
  bs !! j = Some b -> write_batches dir fc bs fs !! batch_file dir (fc + Z.of_nat j + 1) = Some b.
Proof.
  revert fc fs j. induction bs as [|b' bs IH]; intros fc fs j Hj; [done|]. simpl.
  destruct j as [|j]; simpl in Hj.
  - injection Hj as ->. rewrite write_batches_other.
    + rewrite Z.add_0_r. apply lookup_insert_eq.
    + intros k Hk E. apply batch_file_inj in E. lia.
  - replace (fc + Z.of_nat (S j) + 1)%Z with (fc + 1 + Z.of_nat j + 1)%Z by lia. by apply IH.
Qed.
(** Every file is one that was there, or one of the new numbers. *)
Lemma write_batches_some dir fc bs fs p b :
  write_batches dir fc bs fs !! p = Some b ->
  fs !! p = Some b \/ exists k, (fc < k <= fc + Z.of_nat (length bs))%Z /\ p = batch_file dir k.
Proof.
  revert fc fs. induction bs as [|b' bs IH]; intros fc fs H; simpl in *; [by left|].
  destruct (IH _ _ H) as [Hp | (k & Hk & ->)].
  - destruct (decide (p = batch_file dir (fc + 1))) as [->|Hne].
    + right. exists (fc + 1)%Z. split; [lia | done].
    + left. rewrite lookup_insert_ne in Hp; [done|]. by intros E; apply Hne; rewrite <-E.
  - right. exists k. split; [lia | done].
Qed.
End write_batches.

(** ** The program *)

Section batch_main.
Context {Row Frame Amount : Type}.
Variable to_frame : list Row -> exn + Frame.
Variable total_amount : Frame -> exn + Amount.
Variable write_fails : string -> bool.
(** [generate_complex_json()]: the object its [k]-th call returned. *)
Variable generate_complex_json : Z -> Row.

#[local] Instance batch_json_consumer : Consumer Row (state Row) :=
  consumer_inst to_frame total_amount write_fails.

(** [BatchJsonConsumer(name="Consumer-1", batch_size=100)] and
    [BatchJsonConsumer(name="Consumer-2", batch_size=100)], writing under
    the default [output_dir="data"]. *)
Definition batch_consumers : list (state Row) :=
  [init "Consumer-1" 100 "data"; init "Consumer-2" 100 "data"].

(** [json_obj = generate_complex_json()] for [i] in [range(10_000)]. *)
Definition batch_objects : list Row := generate_complex_json <$> seqZ 0 10000.

(** [main()]: [Disruptor(name='BatchJsonExample', size=2048)], both
    consumers registered, [produce([json_obj])] for each object, then
    [disruptor.close()]. *)
Definition batch_main : program Row (state Row) :=
  straight_program "BatchJsonExample" 2048 None batch_consumers batch_objects.

Lemma batch_consumers_init i c0 :
  batch_consumers !! i = Some c0 -> exists nm, c0 = init nm 100 "data".
Proof. intros H. destruct i as [|[|i]]; simplify_eq/=; by eexists. Qed.

(** C13 (batch_json_example.py never misuses the dispatcher). In every
    state of the run the main thread's next action, of the [try] block
    or of the [finally] block, is accepted by the dispatcher. *)
Theorem batch_main_no_misuse s :
  prog_reachable batch_main s ->
  (forall a body m, ps_body s = a :: body -> exec (ps_bus s) a <> Misuse m) /\
  (forall a cl m, ps_body s = [] -> ps_cleanup s = a :: cl -> exec (ps_bus s) a <> Misuse m).
Proof. apply straight_no_misuse. Qed.

Section success.
(** The data-frame calls and [write_parquet] succeed. *)
Hypothesis frame_ok : forall b, exists df, to_frame b = inr df.
Hypothesis total_ok : forall df, exists a, total_amount df = inr a.
Hypothesis write_ok : forall p, write_fails p = false.

(** A consumer of the run, handed the batches [bs], is as if handed
    their concatenation in one [consume] call. *)
Lemma batch_feed nm bs :
  feed (init nm 100 "data") bs = rebatch (init nm 100 "data") (concat bs).
Proof.
  rewrite <-(rebatch_nil (init nm 100 "data")) at 1 by (simpl; lia || done).
  by rewrite (feed_rebatch to_frame total_amount write_fails frame_ok total_ok write_ok).
Qed.

(** What a consumer of the run has become: [rebatch] of what it was
    handed, then [close()] once the dispatcher is CLOSED. *)
Lemma batch_main_consumer s i c ci :
  prog_reachable batch_main s -> d_consumers (ps_bus s) !! i = Some (c, ci) ->
  exists nm, batch_consumers !! i = Some (init nm 100 "data") /\
    (0 <= ci + 1 <= 10000)%Z /\
    (d_phase (ps_bus s) <> CLOSED ->
       c = rebatch (init nm 100 "data") (take (Z.to_nat (ci + 1)) batch_objects)) /\
    (d_phase (ps_bus s) = CLOSED ->
       c = (Consumer.close (rebatch (init nm 100 "data") batch_objects)).1).
Proof.
  intros Hs Hi. destruct (straight_consumers _ _ _ _ _ s i c ci Hs Hi) as (c0 & H0 & Hc).
  destruct (batch_consumers_init _ _ H0) as [nm ->]. exists nm.
  destruct (straight_delivered _ _ _ _ _ s i c ci Hs Hi) as (Hci & Hdel & Hall).
  rewrite delivered_concat in Hdel, Hall. unfold batch_objects in Hci.
  rewrite length_fmap, length_seqZ in Hci. split_and!; [done | lia | lia | |].
  - intros Hop. rewrite Hc, <-Hdel, <-batch_feed. by destruct (d_phase (ps_bus s)).
  - intros Hcl. rewrite Hc, Hcl. cbn [consumer_view]. by rewrite batch_feed, Hall.
Qed.

(** C14 (what the consumers of batch_json_example.py have written, in
    every state). Until the dispatcher is closed, each consumer that has
    been handed the first [ci + 1] objects has cut them, in order, into
    full batches of 100, written batch [k] as [batch_{k:04d}.parquet] in
    its directory, and keeps the rest (fewer than 100) in its buffer; its
    file counter and processed count agree with the files written. *)
Theorem batch_main_rebatches s i c ci :
  prog_reachable batch_main s -> d_consumers (ps_bus s) !! i = Some (c, ci) ->
  d_phase (ps_bus s) <> CLOSED ->
  let received := take (Z.to_nat (ci + 1)) batch_objects in
  let bs := (chunks 100 received).1 in
  (concat bs ++ batch_buffer c)%list = received /\ Forall (fun b => length b = 100%nat) bs /\
  (length (batch_buffer c) < 100)%nat /\
  files c = write_batches (consumer_dir c) 0 bs ∅ /\
  file_counter c = Z.of_nat (length bs) /\ processed_count c = (100 * Z.of_nat (length bs))%Z.
Proof.
  intros Hs Hi Hop received bs.
  destruct (batch_main_consumer s i c ci Hs Hi) as (nm & _ & _ & Hc & _).
  rewrite (Hc Hop), rebatch_eq. unfold init.
  cbn [name batch_size processed_count batch_buffer file_counter output_dir consumer_dir files].
  change (Z.to_nat 100) with 100%nat. rewrite app_nil_l. fold received bs.
  destruct (chunks_spec 100 received) as (H1 & H2 & H3); [lia|].
  split_and!; try done; lia.
Qed.

(** The batches of the whole run: objects [100 k] to [100 k + 99]. *)
Definition batch_blocks : list (list Row) :=
  (fun k => generate_complex_json <$> seqZ (100 * k) 100) <$> seqZ 0 100.

(** A consumer at the end of the run: all 10000 objects written as the
    hundred blocks, nothing left over, and [close()] then has nothing to
    flush. *)
Lemma batch_final nm :
  (Consumer.close (rebatch (init nm 100 "data") batch_objects)).1 =
  mk_state nm 100 10000 [] 100 "data" ("data/" ++ consumer_dir_name nm)
    (write_batches ("data/" ++ consumer_dir_name nm) 0 batch_blocks ∅).
Proof.
  assert (chunks 100 batch_objects = (batch_blocks, [])) as Hb.
  { pose proof (chunks_blocks generate_complex_json 100 100 ltac:(lia)) as H.
    change (Z.of_nat 100 * Z.of_nat 100)%Z with 10000%Z in H. exact H. }
  rewrite rebatch_eq. unfold init.
  cbn [name batch_size processed_count batch_buffer file_counter output_dir consumer_dir files].
  change (Z.to_nat 100) with 100%nat. rewrite app_nil_l, Hb. cbn [fst snd].
  assert (length batch_blocks = 100%nat) as Hl by (unfold batch_blocks; by rewrite length_fmap, length_seqZ).
  rewrite Hl. cbn -[write_batches batch_blocks consumer_dir_name]. reflexivity.
Qed.

(** C15 (what the consumers of batch_json_example.py have written once
    it is closed). Once [disruptor.close()] has returned, each consumer
    has an empty buffer, has processed all 10000 objects into exactly one
    hundred files [batch_0001.parquet] to [batch_0100.parquet] of its
    directory, file [k] holding the objects [100 (k - 1)] to [100 k - 1]
    in the order they were produced, and no other file. *)
Theorem batch_main_closed s i c ci :
  prog_reachable batch_main s -> d_consumers (ps_bus s) !! i = Some (c, ci) ->
  d_phase (ps_bus s) = CLOSED ->
  batch_buffer c = [] /\ file_counter c = 100%Z /\ processed_count c = 10000%Z /\
  (forall k, (1 <= k <= 100)%Z ->
     files c !! batch_file (consumer_dir c) k =
     Some (generate_complex_json <$> seqZ (100 * (k - 1)) 100)) /\
  (forall p b, files c !! p = Some b ->
     exists k, (1 <= k <= 100)%Z /\ p = batch_file (consumer_dir c) k).
Proof.
  intros Hs Hi Hcl. destruct (batch_main_consumer s i c ci Hs Hi) as (nm & _ & _ & _ & Hc).
  rewrite (Hc Hcl), batch_final. cbn [batch_buffer file_counter processed_count files consumer_dir].
  split_and!; [done..| |].
  - intros k Hk. replace k with (0 + Z.of_nat (Z.to_nat (k - 1)) + 1)%Z at 1 by lia.
    apply write_batches_lookup. unfold batch_blocks.
    rewrite list_lookup_fmap, lookup_seqZ_lt by lia. by replace (0 + Z.of_nat (Z.to_nat (k - 1)))%Z with (k - 1)%Z by lia.
  - intros p b Hp. apply write_batches_some in Hp as [Hp | (k & Hk & ->)]; [done|].
    exists k. unfold batch_blocks in Hk. rewrite length_fmap, length_seqZ in Hk. split; [lia | done].
Qed.
End success.
End batch_main.

(** ** Runs of batch_json_example.py

    Over integer rows, with the data frame the batch itself, the statistic
    its sum, every write succeeding, and [generate_complex_json] returning
    its call number.  [batch_demo]: both consumers registered, three
    objects published, consumer 0's worker.  [batch_closed]: a whole run,
    the workers catching up after every hundred publications, then
    [close()]. *)

Section batch_runs.
#[local] Instance demo_consumer : Consumer Z (state Z) := consumer_inst demo_frame demo_total demo_ok.
Let P : program Z (state Z) := batch_main (fun k => k).

Definition batch_start : pstate Z (state Z) :=
  mk_pstate (p_body P) (p_cleanup P)
    {| d_name := "BatchJsonExample"; d_ring := RingBuffer.create 2048; d_cursor := (-1)%Z;
       d_consumers := []; d_phase := NEW; d_handler := None; d_trace := []; d_log := [] |}.

Definition batch_demo : pstate Z (state Z) :=
  prog_run batch_start
    [Main; Main; Main; Main; Main; Worker 0].

Definition batch_closed : pstate Z (state Z) :=
  prog_run batch_start
    ([Main; Main] ++ concat (replicate 100 (replicate 100 Main ++ [Worker 0; Worker 1])) ++
     [Main; Main])%list.

Lemma batch_start_reachable : prog_reachable P batch_start.
Proof. exists batch_start. split; [reflexivity | apply rtc_refl]. Qed.

Lemma batch_demo_reachable : prog_reachable P batch_demo.
Proof. apply prog_run_reachable, batch_start_reachable. Qed.

Lemma batch_closed_reachable : prog_reachable P batch_closed.
Proof. apply prog_run_reachable, batch_start_reachable. Qed.

Lemma batch_closed_facts :
  d_phase (ps_bus batch_closed) = CLOSED /\
  match d_consumers (ps_bus batch_closed) !! 0%nat with Some _ => true | None => false end = true.
Proof. vm_compute. split; reflexivity. Qed.
End batch_runs.

Lemma batch_main_no_misuse_witness :
  (forall a body m, ps_body batch_demo = a :: body ->
     exec (Consumer0 := demo_consumer) (ps_bus batch_demo) a <> Misuse m) /\
  (forall a cl m, ps_body batch_demo = [] -> ps_cleanup batch_demo = a :: cl ->
     exec (Consumer0 := demo_consumer) (ps_bus batch_demo) a <> Misuse m).
Proof.
  apply (batch_main_no_misuse demo_frame demo_total demo_ok (fun k => k)).
  exact batch_demo_reachable.
Defined.

Lemma batch_main_rebatches_witness :
  exists c ci, d_consumers (ps_bus batch_demo) !! 0%nat = Some (c, ci) /\
  d_phase (ps_bus batch_demo) <> CLOSED /\
  let received := take (Z.to_nat (ci + 1)) (batch_objects (fun k => k)) in
  let bs := (chunks 100 received).1 in
  (concat bs ++ batch_buffer c)%list = received /\ Forall (fun b => length b = 100%nat) bs /\
  (length (batch_buffer c) < 100)%nat /\
  files c = write_batches (consumer_dir c) 0 bs ∅ /\
  file_counter c = Z.of_nat (length bs) /\ processed_count c = (100 * Z.of_nat (length bs))%Z.
Proof.
  destruct (d_consumers (ps_bus batch_demo) !! 0%nat) as [[c ci]|] eqn:E;
    [|vm_compute in E; discriminate].
  assert (d_phase (ps_bus batch_demo) <> CLOSED) as Hph by (vm_compute; discriminate).
  exists c, ci. split; [reflexivity|]. split; [exact Hph|].
  refine (batch_main_rebatches demo_frame demo_total demo_ok (fun k => k) _ _ _ batch_demo 0 c ci
            batch_demo_reachable E Hph);
    [intros b; eexists; reflexivity | intros df; eexists; reflexivity | intros p; reflexivity].
Defined.

Lemma batch_main_closed_witness :
  exists c ci, d_consumers (ps_bus batch_closed) !! 0%nat = Some (c, ci) /\
  d_phase (ps_bus batch_closed) = CLOSED /\
  batch_buffer c = [] /\ file_counter c = 100%Z /\ processed_count c = 10000%Z /\
  (forall k, (1 <= k <= 100)%Z ->
     files c !! batch_file (consumer_dir c) k = Some ((fun k => k) <$> seqZ (100 * (k - 1)) 100)) /\
  (forall p b, files c !! p = Some b ->
     exists k, (1 <= k <= 100)%Z /\ p = batch_file (consumer_dir c) k).
Proof.
  destruct batch_closed_facts as [Hph Hc].
  destruct (d_consumers (ps_bus batch_closed) !! 0%nat) as [[c ci]|] eqn:E; [|discriminate].
  exists c, ci. split; [reflexivity|]. split; [exact Hph|].
  refine (batch_main_closed demo_frame demo_total demo_ok (fun k => k) _ _ _ batch_closed 0 c ci
            batch_closed_reachable E Hph);
    [intros b; eexists; reflexivity | intros df; eexists; reflexivity | intros p; reflexivity].
Defined.
