(* ===== verification/FTMain.v ===== *)
(** * [main()] of src/fault_tolerant_example.py

    Two [FaultTolerantBatchConsumer]s ("FT-Consumer-1" and
    "FT-Consumer-2", [batch_size=100], [max_retries=3], [retry_delay=0.5],
    [enable_dlq=True]),
    a [Disruptor] of size 2048 with [consumer_error_handler=
    custom_error_handler], the consumers registered, then
    [produce([json_obj])] for 1000 objects of [generate_complex_json()],
    then [disruptor.close()] in the [finally] block.  The [except] clauses
    of [main] only log, so an exception of the [try] block goes on to the
    [finally] block as in every straight-line main of [Drivers.v].  Both
    consumers are constructed over the files [fs0] found on disk (their
    checkpoints are loaded) and the random generator at draw [rng0].

    The theorems: the main thread never misuses the dispatcher; the error
    handler it installs never runs, so the dispatcher logs nothing; and in
    every state each consumer has accounted for every full batch of 100 of
    what it was handed (written or counted as an error), so that once
    closed each has written or failed exactly ten batches on top of what
    its checkpoint recorded.  The last needs the retries to be safe: the
    delays 0.5, 1 and 2 seconds are valid sleeps, and the recursion limit
    must leave room for the four nested calls of
    [_process_batch_with_retry] ([3 < max_depth]; CPython's default
    limit is 1000 frames). *)

From S2P Require Import Prelude RingBuffer Consumer Broadcast Dispatcher DispatcherFacts.
From S2P Require Import PyFormat FaultTolerant Drivers.
From Stdlib Require Import QArith.
Import Dispatcher Driver FaultTolerant.

Local Open Scope string_scope.

Section ft_main.
Context {Row Frame Amount : Type}.
Variable to_frame : list Row -> exn + Frame.
Variable total_amount : Frame -> exn + Amount.
Variable write_fails : string -> bool.
Variable sim_fail : nat -> bool.
Variable clock randint : nat -> Z.
(** Nested calls of [_process_batch_with_retry] the recursion limit allows. *)
Variable max_depth : Z.
(** [repr] of a list of objects, as the f-string of [custom_error_handler]
    prints it. *)
Variable repr : list Row -> string.
(** [generate_complex_json()]: the object its [k]-th call returned. *)
Variable generate_complex_json : Z -> Row.
(** The files on disk when [main] starts, and the state of [random]. *)
Variable fs0 : gmap string (file Row).
Variable rng0 : nat.

#[local] Instance ft_consumer : Consumer Row (state Row) :=
  consumer_inst to_frame total_amount write_fails sim_fail clock randint max_depth.

(** [FaultTolerantBatchConsumer(name="FT-Consumer-1", batch_size=100,
    max_retries=3, retry_delay=0.5, enable_dlq=True)] and the same for
    "FT-Consumer-2". *)
Definition ft_consumers : list (state Row) :=
  [init "FT-Consumer-1" 100 "data" 3 (1 # 2) true fs0 rng0;
   init "FT-Consumer-2" 100 "data" 3 (1 # 2) true fs0 rng0].

(** [json_obj = generate_complex_json()] for [i] in [range(total_objects)],
    [total_objects = 1000]. *)
Definition ft_objects : list Row := generate_complex_json <$> seqZ 0 1000.

(** [main()] *)
Definition ft_main : program Row (state Row) :=
  straight_program "FaultTolerantExample" 2048 (Some (custom_error_handler repr))
    ft_consumers ft_objects.

Lemma ft_consumers_init i c0 :
  ft_consumers !! i = Some c0 ->
  batch_size c0 = 100%Z /\ batch_buffer c0 = [] /\ max_retries c0 = 3%Z /\ retry_delay c0 = (1 # 2)%Q.
Proof.
  intros H. destruct i as [|[|i]]; simplify_eq/=; unfold init, load_checkpoint; cbn;
    destruct (fs0 !! _) as [[]|]; done.
Qed.

Lemma ft_view_batch_size ph c0 bs :
  batch_size c0 = 100%Z -> batch_size (consumer_view ph c0 bs) = 100%Z.
Proof.
  intros Hbs. pose proof (feed_statics to_frame total_amount write_fails sim_fail clock randint
                            max_depth c0 bs) as Hst.
  assert (statics (consumer_view ph c0 bs) = statics c0) as Hv.
  { destruct ph; try exact Hst. cbn [consumer_view]. rewrite <-Hst. apply close_statics. }
  unfold statics in Hv. congruence.
Qed.

(** C33 (fault_tolerant_example.py never misuses the dispatcher). In
    every state of the run the main thread's next action is accepted, so
    neither [except] clause of [main] is ever entered. *)
Theorem ft_main_no_misuse s :
  prog_reachable ft_main s ->
  (forall a body m, ps_body s = a :: body -> exec (ps_bus s) a <> Misuse m) /\
  (forall a cl m, ps_body s = [] -> ps_cleanup s = a :: cl -> exec (ps_bus s) a <> Misuse m).
Proof. apply straight_no_misuse. Qed.

(** C34 (the error handler of fault_tolerant_example.py never runs). In
    every state of the run the dispatcher's log is empty: every [consume]
    of the two consumers returns, so neither [custom_error_handler] nor
    the default handler is ever called. *)
Theorem ft_main_handler_silent s : prog_reachable ft_main s -> d_log (ps_bus s) = [].
Proof.
  intros (s0 & Hs0 & Hrtc).
  refine (rtc_ind_r (fun s => d_log (ps_bus s) = []) s0 _ _ s Hrtc).
  { unfold start, create in Hs0. simpl in Hs0. by simplify_eq/=. }
  intros s1 s2 Hr1 Hst IH. destruct (pstep_bus _ _ Hst) as [-> | Hd]; [done|].
  inversion Hd as [d a d' Hex]; subst; clear Hd.
  destruct (exec_log _ _ _ Hex) as [-> | (i & c & ci & batch & c' & evs & lines & Hi & Hdl & ->)];
    [done|].
  assert (prog_reachable ft_main s1) as Hs1 by (by exists s0).
  destruct (straight_consumers _ _ _ _ _ s1 i c ci Hs1 Hi) as (c0 & H0 & ->).
  destruct (ft_consumers_init _ _ H0) as [Hbs _].
  destruct (consume_returns to_frame total_amount write_fails sim_fail clock randint max_depth batch
              (consumer_view (d_phase (ps_bus s1)) c0 (batches i (d_trace (ps_bus s1)))))
    as (c1 & Hc); [rewrite ft_view_batch_size by done; lia|].
  rewrite IH, (@deliver_ok_lines _ _ ft_consumer _ _ _ _ _ _ _ _ Hc Hdl). done.
Qed.

(** CPython's recursion limit leaves room for the four attempts. *)
Hypothesis ft_room : (3 < max_depth)%Z.

(** The consumers' delays 0.5, 1 and 2 seconds are valid sleeps. *)
Lemma ft_consumers_safe i c0 : ft_consumers !! i = Some c0 -> retry_safe max_depth c0 = true.
Proof.
  intros H. destruct (ft_consumers_init _ _ H) as (_ & _ & Hm & Hd).
  unfold retry_safe. rewrite Hm, Hd, bool_decide_true by lia. vm_compute. reflexivity.
Qed.

(** A consumer of the run has accounted for everything it was handed. *)
Lemma ft_feed_accounted i c0 bs :
  ft_consumers !! i = Some c0 -> accounted c0 (concat bs) (feed c0 bs).
Proof.
  intros H. destruct (ft_consumers_init _ _ H) as (Hbs & Hb & _).
  apply (feed_accounted to_frame total_amount write_fails sim_fail clock randint max_depth
           c0 [] c0 bs); [by apply (ft_consumers_safe i) | lia |].
  apply accounted_start. rewrite Hb, Hbs. simpl. lia.
Qed.

(** C35 (every batch of fault_tolerant_example.py is accounted for). In
    every state of the run, consumer [i], registered as [c0] and handed the
    first [ci + 1] objects, has cut them into full batches of 100 and
    buffers the rest; the batches it wrote plus those it counted as errors
    are exactly those full batches, and each written batch added 100 to
    [processed_count].  Once [disruptor.close()] has returned its buffer is
    empty and it has written or failed exactly ten batches beyond what its
    checkpoint recorded. *)
Theorem ft_main_accounts s i c ci :
  prog_reachable ft_main s -> d_consumers (ps_bus s) !! i = Some (c, ci) ->
  exists c0, ft_consumers !! i = Some c0 /\
    let bs := (chunks 100 (take (Z.to_nat (ci + 1)) ft_objects)).1 in
    (d_phase (ps_bus s) <> CLOSED ->
       (concat bs ++ batch_buffer c)%list = take (Z.to_nat (ci + 1)) ft_objects /\
       (file_counter c - file_counter c0 + (error_count c - error_count c0) =
          Z.of_nat (length bs))%Z /\
       (processed_count c - processed_count c0 = 100 * (file_counter c - file_counter c0))%Z) /\
    (d_phase (ps_bus s) = CLOSED ->
       batch_buffer c = [] /\
       (file_counter c - file_counter c0 + (error_count c - error_count c0) = 10)%Z /\
       (processed_count c - processed_count c0 = 100 * (file_counter c - file_counter c0))%Z).
Proof.
  intros Hs Hi. destruct (straight_consumers _ _ _ _ _ s i c ci Hs Hi) as (c0 & H0 & Hc).
  exists c0. split; [done|]. intros bs. subst bs.
  destruct (ft_consumers_init _ _ H0) as (Hbs & Hb & _).
  destruct (straight_delivered _ _ _ _ _ s i c ci Hs Hi) as (_ & Hdel & Hall).
  rewrite delivered_concat in Hdel, Hall.
  destruct (ft_feed_accounted i c0 (batches i (d_trace (ps_bus s))) H0)
    as (_ & Hbuf & Hcnt & Hpc & _).
  rewrite Hbs in Hbuf, Hcnt, Hpc. rewrite Hb, app_nil_l in Hbuf. rewrite Hb, app_nil_l in Hcnt.
  change (Z.to_nat 100) with 100%nat in *.
  split.
  - intros Hop. assert (c = feed c0 (batches i (d_trace (ps_bus s)))) as ->
      by (rewrite Hc; by destruct (d_phase (ps_bus s))).
    rewrite Hdel in Hbuf, Hcnt. split_and!; [|lia|lia].
    rewrite Hbuf. apply (chunks_spec 100). lia.
  - intros Hcl. rewrite (Hall Hcl) in Hbuf, Hcnt.
    assert (chunks 100 ft_objects = ((fun k => generate_complex_json <$> seqZ (Z.of_nat 100 * k) (Z.of_nat 100)) <$> seqZ 0 (Z.of_nat 10), [])) as Hch.
    { pose proof (chunks_blocks generate_complex_json 100 10 ltac:(lia)) as H.
      change (Z.of_nat 100 * Z.of_nat 10)%Z with 1000%Z in H. exact H. }
    rewrite Hch in Hbuf, Hcnt. cbn [fst snd] in Hbuf, Hcnt. rewrite length_fmap, length_seqZ in Hcnt.
    rewrite Hc, Hcl. cbn [consumer_view].
    destruct (close_empty to_frame total_amount write_fails sim_fail clock randint max_depth _ Hbuf)
      as [l Hcl'].
    change (Consumer.close (feed c0 (batches i (d_trace (ps_bus s))))) with
      (close to_frame total_amount write_fails sim_fail clock randint max_depth
         (feed c0 (batches i (d_trace (ps_bus s))))).
    rewrite Hcl'. cbn [fst set_log batch_buffer file_counter error_count processed_count].
    split_and!; [done | lia | lia].
Qed.
End ft_main.

(** ** Runs of fault_tolerant_example.py

    Over integer rows, with the data frame the batch itself, the
    statistic its sum, every write succeeding, [random.random() < 0.05]
    holding on draws 5 to 8 of each consumer (so that its sixth batch
    fails all four attempts), [generate_complex_json] returning its
    call number, and an empty disk.  [ft_demo]: both consumers registered,
    three objects published, consumer 0's worker.  [ft_closed]: a whole
    run, the workers catching up after every hundred publications, then
    [close()]. *)

Section ft_runs.
Definition demo_sim_fail (k : nat) : bool := Nat.leb 5 k && Nat.leb k 8.

#[local] Instance ft_demo_consumer : Consumer Z (state Z) :=
  consumer_inst demo_frame demo_total demo_ok demo_sim_fail demo_clock demo_randint demo_depth.
Let P : program Z (state Z) := ft_main py_repr_int_list (fun k => k) ∅ 0.

Definition ft_start : pstate Z (state Z) :=
  mk_pstate (p_body P) (p_cleanup P)
    {| d_name := "FaultTolerantExample"; d_ring := RingBuffer.create 2048; d_cursor := (-1)%Z;
       d_consumers := []; d_phase := NEW; d_handler := Some (custom_error_handler py_repr_int_list);
       d_trace := []; d_log := [] |}.

Definition ft_demo : pstate Z (state Z) := prog_run ft_start [Main; Main; Main; Main; Main; Worker 0].

Definition ft_closed : pstate Z (state Z) :=
  prog_run ft_start
    ([Main; Main] ++ concat (replicate 10 (replicate 100 Main ++ [Worker 0; Worker 1])) ++
     [Main; Main])%list.

Lemma ft_start_reachable : prog_reachable P ft_start.
Proof. exists ft_start. split; [reflexivity | apply rtc_refl]. Qed.

Lemma ft_demo_reachable : prog_reachable P ft_demo.
Proof. apply prog_run_reachable, ft_start_reachable. Qed.

Lemma ft_closed_reachable : prog_reachable P ft_closed.
Proof. apply prog_run_reachable, ft_start_reachable. Qed.

(** The whole run ends CLOSED; consumer 0 wrote some batches and counted
    an error for the batch whose retries were exhausted. *)
Lemma ft_closed_facts :
  d_phase (ps_bus ft_closed) = CLOSED /\
  match d_consumers (ps_bus ft_closed) !! 0%nat with
  | Some (c, _) => bool_decide (0 < error_count c)%Z && bool_decide (0 < file_counter c)%Z
  | None => false end = true.
Proof. vm_compute. split; reflexivity. Qed.
End ft_runs.

Lemma ft_main_no_misuse_witness :
  (forall a body m, ps_body ft_demo = a :: body ->
     exec (Consumer0 := ft_demo_consumer) (ps_bus ft_demo) a <> Misuse m) /\
  (forall a cl m, ps_body ft_demo = [] -> ps_cleanup ft_demo = a :: cl ->
     exec (Consumer0 := ft_demo_consumer) (ps_bus ft_demo) a <> Misuse m).
Proof.
  exact (ft_main_no_misuse demo_frame demo_total demo_ok demo_sim_fail demo_clock demo_randint
           demo_depth py_repr_int_list (fun k => k) ∅ 0 ft_demo ft_demo_reachable).
Defined.

Lemma ft_main_handler_silent_witness : d_log (ps_bus ft_closed) = [].
Proof.
  exact (ft_main_handler_silent demo_frame demo_total demo_ok demo_sim_fail demo_clock demo_randint
           demo_depth py_repr_int_list (fun k => k) ∅ 0 ft_closed ft_closed_reachable).
Defined.

Lemma ft_main_accounts_witness :
  exists c ci, d_consumers (ps_bus ft_closed) !! 0%nat = Some (c, ci) /\
  exists c0 : state Z, ft_consumers ∅ 0 !! 0%nat = Some c0 /\
    let bs := (chunks 100 (take (Z.to_nat (ci + 1)) (ft_objects (fun k => k)))).1 in
    (d_phase (ps_bus ft_closed) <> CLOSED ->
       (concat bs ++ batch_buffer c)%list = take (Z.to_nat (ci + 1)) (ft_objects (fun k => k)) /\
       (file_counter c - file_counter c0 + (error_count c - error_count c0) =
          Z.of_nat (length bs))%Z /\
       (processed_count c - processed_count c0 = 100 * (file_counter c - file_counter c0))%Z) /\
    (d_phase (ps_bus ft_closed) = CLOSED ->
       batch_buffer c = [] /\
       (file_counter c - file_counter c0 + (error_count c - error_count c0) = 10)%Z /\
       (processed_count c - processed_count c0 = 100 * (file_counter c - file_counter c0))%Z).
Proof.
  destruct ft_closed_facts as [_ Hc].
  destruct (d_consumers (ps_bus ft_closed) !! 0%nat) as [[c ci]|] eqn:E; [|discriminate].
  exists c, ci. split; [reflexivity|].
  exact (ft_main_accounts demo_frame demo_total demo_ok demo_sim_fail demo_clock demo_randint
           demo_depth py_repr_int_list (fun k => k) ∅ 0 eq_refl ft_closed 0 c ci
           ft_closed_reachable E).
Defined.
